(** * Fantasy Football Assistant: a shallow embedding of the client code

    The development follows the repository: the retry strategy of the ESPN
    integration guide ([espn_request_with_retry]), the axios response
    interceptor of [services/api.ts], the helpers of [utils/index.ts], the
    winner styling of [MatchupCard.tsx], the budget hook of
    [useWaiverBudgets.ts] with [WaiverBudgetCard], and, modelled from the
    specification, the waiver ledger and the trade evaluator that live in
    the backend. *)

From Stdlib Require Import ZArith NArith QArith Qminmax Qabs Lqa.
From Stdlib Require Import List String Ascii Bool Lia.
From Stdlib Require Import Floats Uint63.
From stdpp Require Import base strings gmap.
Import ListNotations.

Set Default Proof Using "Type".

(* ===================================================================== *)
(** * RemoteClient: the retry strategy                                     *)
(* ===================================================================== *)

Module RemoteClient.

Local Open Scope Z_scope.

(** What one [await httpx.get(url, cookies=cookies)] can do: answer with a
    status code and a body, or fail in transport ([httpx.RequestError]). *)
Inductive Reply (Payload : Type) : Type :=
| Responded (status_code : Z) (json : Payload)
| RequestFailed (msg : string).
Arguments Responded {Payload} status_code json.
Arguments RequestFailed {Payload} msg.

(** The exceptions that leave the function. *)
Inductive Exn : Type :=
| HTTPStatusError (status_code : Z)   (* response.raise_for_status() *)
| RequestError (msg : string)         (* httpx.RequestError *)
| Exception (msg : string).           (* raise Exception(...) *)

(** What the outside world observes, in order. *)
Inductive Event : Type :=
| Get                         (* one httpx.get was issued *)
| Sleep (seconds : Z).        (* one asyncio.sleep(seconds) *)

(** Requests issued so far, and everything that happened, oldest first. *)
Record World : Type := mkWorld { sent : nat; log : list Event }.

Definition start : World := mkWorld 0 [].

(** A computation either yields a value or raises. *)
Inductive Flow (A : Type) : Type :=
| Normal (a : A)
| Raise (e : Exn).
Arguments Normal {A} a.
Arguments Raise {A} e.

Definition IO (A : Type) : Type := World -> Flow A * World.

Definition ret {A} (a : A) : IO A := fun w => (Normal a, w).

Definition bind {A B} (m : IO A) (k : A -> IO B) : IO B :=
  fun w => match m w with
           | (Normal a, w') => k a w'
           | (Raise e, w') => (Raise e, w')
           end.

Definition raise {A} (e : Exn) : IO A := fun w => (Raise e, w).

(** [try: body  except httpx.RequestError: handler]: only transport errors
    are caught, every other exception passes through. *)
Definition try_except_RequestError {A} (body : IO A) (handler : Exn -> IO A) : IO A :=
  fun w => match body w with
           | (Raise (RequestError msg), w') => handler (RequestError msg) w'
           | r => r
           end.

Declare Scope io_scope.
Delimit Scope io_scope with io.
Notation "x <- m ;; k" := (bind m (fun x => k))
  (at level 100, m at next level, right associativity) : io_scope.
Notation "m ;;; k" := (bind m (fun _ => k))
  (at level 100, right associativity) : io_scope.

(** How one pass through the loop body ends: [return value] leaves the
    function, anything else goes on with the next [attempt]. *)
Inductive Step (Payload : Type) : Type :=
| Done (value : Payload)
| Next.
Arguments Done {Payload} value.
Arguments Next {Payload}.

(** [range(n)] of Python: empty when [n <= 0]. *)
Definition range (n : Z) : list Z := map Z.of_nat (seq 0 (Z.to_nat n)).

Section Retry.

Context {Payload : Type}.

(** The upstream: its reply to the k-th request, k counted from 0. *)
Variable upstream : nat -> Reply Payload.

Record Response : Type := mkResponse { status_code : Z; json : Payload }.

Definition httpx_get : IO Response :=
  fun w =>
    let w' := mkWorld (S (sent w)) (log w ++ [Get]) in
    match upstream (sent w) with
    | Responded code body => (Normal (mkResponse code body), w')
    | RequestFailed msg => (Raise (RequestError msg), w')
    end.

Definition asyncio_sleep (seconds : Z) : IO unit :=
  fun w => (Normal tt, mkWorld (sent w) (log w ++ [Sleep seconds])).

(** httpx: a 2xx response passes, every other one raises HTTPStatusError. *)
Definition raise_for_status (response : Response) : IO unit :=
  if (200 <=? status_code response) && (status_code response <=? 299)
  then ret tt
  else raise (HTTPStatusError (status_code response)).

(** The body of [for attempt in range(max_retries)]. *)
Definition attempt_body (max_retries attempt : Z) : IO (Step Payload) :=
  try_except_RequestError
    (response <- httpx_get ;;
     if status_code response =? 200 then
       ret (Done (json response))
     else if status_code response =? 429 then
       (asyncio_sleep (2 ^ attempt) ;;; ret Next)
     else
       (raise_for_status response ;;; ret Next))%io
    (fun e =>
       if attempt =? max_retries - 1 then raise e
       else (asyncio_sleep 1 ;;; ret Next)%io).

Fixpoint for_attempt (attempts : list Z) (body : Z -> IO (Step Payload))
  : IO (option Payload) :=
  match attempts with
  | [] => ret None
  | attempt :: later =>
      (s <- body attempt ;;
       match s with
       | Done value => ret (Some value)
       | Next => for_attempt later body
       end)%io
  end.

Definition espn_request_with_retry (max_retries : Z) : IO Payload :=
  (r <- for_attempt (range max_retries) (attempt_body max_retries) ;;
   match r with
   | Some value => ret value
   | None => raise (Exception "Max retries exceeded")
   end)%io.

(** [max_retries=3] in the signature. *)
Definition default_max_retries : Z := 3.

End Retry.

(** Observations on a finished run. *)
Fixpoint gets (l : list Event) : nat :=
  match l with
  | [] => 0%nat
  | Get :: l' => S (gets l')
  | Sleep _ :: l' => gets l'
  end.

Definition attempts (w : World) : nat := gets (log w).

Fixpoint delays (l : list Event) : list Z :=
  match l with
  | [] => []
  | Sleep s :: l' => s :: delays l'
  | Get :: l' => delays l'
  end.

Fixpoint strictly_increasing (l : list Z) : Prop :=
  match l with
  | a :: ((b :: _) as tl) => a < b /\ strictly_increasing tl
  | _ => True
  end.

(** The scenario of the claim: 429 three times, then 200 with [body]. *)
Definition limited_thrice {Payload} (body other : Payload) : nat -> Reply Payload :=
  fun k => if (k <? 3)%nat then Responded 429 other else Responded 200 body.

End RemoteClient.

(* ===================================================================== *)
(** * services/api.ts: token management and the response interceptor      *)
(* ===================================================================== *)

Module Api.

Local Open Scope Z_scope.

(** The part of the browser and of the axios instance that the module
    touches: [localStorage], [api.defaults.headers.common] and
    [window.location.pathname]. *)
Record Browser : Type := mkBrowser {
  localStorage : gmap string string;
  common_headers : gmap string string;
  pathname : string
}.

Definition getAuthToken (b : Browser) : option string :=
  localStorage b !! "access_token".

Definition setAuthToken (token : string) (b : Browser) : Browser :=
  mkBrowser (<["access_token" := token]> (localStorage b))
            (<["Authorization" := "Bearer " +:+ token]> (common_headers b))
            (pathname b).

Definition removeAuthToken (b : Browser) : Browser :=
  mkBrowser (delete "access_token" (localStorage b))
            (delete "Authorization" (common_headers b))
            (pathname b).

(** [window.location.href = '/login'] *)
Definition navigate (path : string) (b : Browser) : Browser :=
  mkBrowser (localStorage b) (common_headers b) path.

(** [error.response]: its status and [data.detail] when present. *)
Record ErrorResponse : Type := mkErrorResponse {
  status : Z;
  data_detail : option string
}.

Record AxiosError : Type := mkAxiosError {
  response : option ErrorResponse;
  message : string
}.

Record ApiError : Type := mkApiError {
  detail : string;
  api_status : option Z
}.

(** What a response interceptor hands back to axios: a value that resolves
    the call, or a rejection that the caller's [catch] receives. *)
Inductive Settled (A : Type) : Type :=
| Resolved (value : A)
| Rejected (reason : ApiError).
Arguments Resolved {A} value.
Arguments Rejected {A} reason.

(** [a || b] on strings: the empty string is falsy. *)
Definition or_string (a : option string) (b : string) : string :=
  match a with
  | Some s => if String.eqb s "" then b else s
  | None => b
  end.

(** The fulfilled branch: [(response) => response]. *)
Definition onFulfilled {A} (r : A) (b : Browser) : Settled A * Browser :=
  (Resolved r, b).

(** The rejected branch of [api.interceptors.response.use]. *)
Definition onRejected {A} (error : AxiosError) (b : Browser) : Settled A * Browser :=
  let b1 :=
    match response error with
    | Some r =>
        if status r =? 401 then
          let b' := removeAuthToken b in
          if negb (String.eqb (pathname b') "/login") then navigate "/login" b' else b'
        else b
    | None => b
    end in
  let apiError :=
    mkApiError
      (or_string (match response error with
                  | Some r => data_detail r
                  | None => None
                  end)
                 (or_string (Some (message error)) "An unexpected error occurred"))
      (option_map status (response error)) in
  (Rejected apiError, b1).

End Api.

(* ===================================================================== *)
(** * utils/index.ts                                                       *)
(* ===================================================================== *)

Module Utils.

(** ** Colour mappings *)

Section Colours.

(** [String.prototype.toUpperCase]. The colour functions compare only its
    result with literals, so they are stated for any such function. *)
Variable toUpperCase : string -> string.

Definition getPositionColor (position : string) : string :=
  let p := toUpperCase position in
  if String.eqb p "QB" then "text-red-600 bg-red-100"
  else if String.eqb p "RB" then "text-green-600 bg-green-100"
  else if String.eqb p "WR" then "text-blue-600 bg-blue-100"
  else if String.eqb p "TE" then "text-yellow-600 bg-yellow-100"
  else if String.eqb p "K" then "text-purple-600 bg-purple-100"
  else if String.eqb p "D/ST" || String.eqb p "DST" then "text-gray-600 bg-gray-100"
  else "text-gray-600 bg-gray-100".

(** [status?: string]: [None] is [undefined]. *)
Definition getInjuryStatusColor (status : option string) : string :=
  match status with
  | None => "text-green-600"
  | Some s =>
      if String.eqb s "" || String.eqb s "ACTIVE" then "text-green-600"
      else
        let u := toUpperCase s in
        if String.eqb u "QUESTIONABLE" then "text-yellow-600"
        else if String.eqb u "DOUBTFUL" then "text-orange-600"
        else if String.eqb u "OUT" || String.eqb u "IR" then "text-red-600"
        else "text-gray-600"
  end.

End Colours.

(** The codes each function recognises, as its [case] labels list them. *)
Definition position_codes : list string := ["QB"; "RB"; "WR"; "TE"; "K"; "D/ST"; "DST"].
Definition injury_codes : list string := ["QUESTIONABLE"; "DOUBTFUL"; "OUT"; "IR"].

Definition position_default : string := "text-gray-600 bg-gray-100".
Definition injury_default : string := "text-gray-600".

(** Every value the two mappings can produce. *)
Definition position_classes : list string :=
  ["text-red-600 bg-red-100"; "text-green-600 bg-green-100";
   "text-blue-600 bg-blue-100"; "text-yellow-600 bg-yellow-100";
   "text-purple-600 bg-purple-100"; "text-gray-600 bg-gray-100"].

Definition injury_classes : list string :=
  ["text-green-600"; "text-yellow-600"; "text-orange-600"; "text-red-600";
   "text-gray-600"].

(** [toUpperCase] on strings of ASCII characters, where it maps a-z to A-Z
    and leaves every other character alone. *)
Definition upper_ascii (c : ascii) : ascii :=
  let n := nat_of_ascii c in
  if (97 <=? n)%nat && (n <=? 122)%nat then ascii_of_nat (n - 32) else c.

Fixpoint ascii_toUpperCase (s : string) : string :=
  match s with
  | EmptyString => EmptyString
  | String c s' => String (upper_ascii c) (ascii_toUpperCase s')
  end.

(** ** Records *)

(** A [number] is an IEEE 754 binary64 value, a [float] here, and the
    operators are those of the language: [+], [*] and [/] round to the
    nearest value, ties to even, overflow to an infinity and give NaN where
    IEEE 754 does; [===] on numbers is the IEEE equality, for which 0 and
    -0 are equal and NaN differs from everything. The default [ties = 0]
    is the call with 0 as third argument. *)
Definition getWinPercentage (wins losses ties : float) : float :=
  let totalGames := (wins + losses + ties)%float in
  if (totalGames =? 0)%float then 0%float
  else (((wins + ties * 0.5) / totalGames) * 100)%float.

(** ** League identifiers *)

(** A JavaScript string is a sequence of UTF-16 code units. *)
Definition JSString : Type := list N.

Definition units (s : string) : JSString := map N_of_ascii (list_ascii_of_string s).

Local Open Scope N_scope.

(** WhiteSpace and LineTerminator code points, which [parseInt] skips. *)
Definition isStrWhiteSpaceChar (c : N) : bool :=
  (c =? 0x9) || (c =? 0xA) || (c =? 0xB) || (c =? 0xC) || (c =? 0xD) ||
  (c =? 0x20) || (c =? 0xA0) || (c =? 0x1680) ||
  ((0x2000 <=? c) && (c <=? 0x200A)) ||
  (c =? 0x2028) || (c =? 0x2029) || (c =? 0x202F) || (c =? 0x205F) ||
  (c =? 0x3000) || (c =? 0xFEFF).

Fixpoint trimStart (s : JSString) : JSString :=
  match s with
  | c :: s' => if isStrWhiteSpaceChar c then trimStart s' else s
  | [] => []
  end.

(** The value of a code unit as a digit, for radix up to 16. *)
Definition digitValue (c : N) : option N :=
  if (0x30 <=? c) && (c <=? 0x39) then Some (c - 0x30)
  else if (0x61 <=? c) && (c <=? 0x66) then Some (c - 0x61 + 10)
  else if (0x41 <=? c) && (c <=? 0x46) then Some (c - 0x41 + 10)
  else None.

Definition radixDigit (R : N) (c : N) : option N :=
  match digitValue c with
  | Some d => if d <? R then Some d else None
  | None => None
  end.

(** The longest prefix of radix-[R] digits, read as a number: [acc] is the
    value of the digits read so far, [seen] whether there was any. *)
Fixpoint readDigits (R : N) (s : JSString) (seen : bool) (acc : N) : option N :=
  match s with
  | c :: s' =>
      match radixDigit R c with
      | Some d => readDigits R s' true (acc * R + d)
      | None => if seen then Some acc else None
      end
  | [] => if seen then Some acc else None
  end.

(** Step 3 of [parseInt]: the sign is -1 when the first code unit is "-". *)
Definition signOf (s : JSString) : Z :=
  match s with
  | c :: _ => if c =? 0x2D then (-1)%Z else 1%Z
  | [] => 1%Z
  end.

(** Step 4: a leading "+" or "-" is removed. *)
Definition dropSign (s : JSString) : JSString :=
  match s with
  | c :: rest => if (c =? 0x2B) || (c =? 0x2D) then rest else s
  | [] => s
  end.

(** With no radix given: radix 16 after a "0x" or "0X" prefix, which is
    removed, and radix 10 otherwise. *)
Definition radixAndBody (s : JSString) : N * JSString :=
  match s with
  | c0 :: c1 :: rest =>
      if (c0 =? 0x30) && ((c1 =? 0x78) || (c1 =? 0x58)) then (16, rest) else (10, s)
  | _ => (10, s)
  end.

(** [parseInt(string)] with no radix argument. [None] is NaN; otherwise the
    integer whose Number value is returned (a positive integer becomes a
    positive Number or Infinity, zero becomes a zero, a negative integer a
    negative Number, so comparisons with 0 are those of the integer). *)
Definition parseInt (string : JSString) : option Z :=
  let inputS := trimStart string in
  let sign := signOf inputS in
  let '(R, body) := radixAndBody (dropSign inputS) in
  match readDigits R body false 0 with
  | Some mathInt => Some (sign * Z.of_N mathInt)%Z
  | None => None
  end.

Definition isNaN (x : option Z) : bool :=
  match x with None => true | Some _ => false end.

(** [x > 0] on a Number: false on NaN. *)
Definition gt0 (x : option Z) : bool :=
  match x with None => false | Some n => (0 <? n)%Z end.

Definition isValidESPNLeagueId (leagueId : JSString) : bool :=
  let id := parseInt leagueId in
  negb (isNaN id) && gt0 id.

(** Decimal digits, and the number a list of them denotes. *)
Definition isDecimalDigit (c : N) : bool := (0x30 <=? c) && (c <=? 0x39).

Definition decimalValue (ds : JSString) : N :=
  fold_left (fun acc c => acc * 10 + (c - 0x30)) ds 0.

Definition startsWithDigit (s : JSString) : bool :=
  match s with
  | c :: _ => isDecimalDigit c
  | [] => false
  end.

(** What is left once [parseInt] has skipped white space and one sign. *)
Definition afterSign (s : JSString) : JSString := dropSign (trimStart s).

End Utils.

(* ===================================================================== *)
(** * Page-local mappings                                                  *)
(* ===================================================================== *)

(** These switch on the string as it is, with no upper-casing. *)

(** pages/TeamRosterPage.tsx *)
Module TeamRosterPage.

Definition getPositionColor (position : string) : string :=
  if String.eqb position "QB" then "bg-purple-100 text-purple-800"
  else if String.eqb position "RB" then "bg-green-100 text-green-800"
  else if String.eqb position "WR" then "bg-blue-100 text-blue-800"
  else if String.eqb position "TE" then "bg-orange-100 text-orange-800"
  else if String.eqb position "K" then "bg-yellow-100 text-yellow-800"
  else if String.eqb position "D/ST" then "bg-gray-100 text-gray-800"
  else "bg-gray-100 text-gray-800".

Definition getSlotColor (slot : string) : string :=
  if String.eqb slot "BENCH" then "bg-gray-100 text-gray-600"
  else if String.eqb slot "IR" then "bg-red-100 text-red-600"
  else "bg-green-100 text-green-700".

End TeamRosterPage.

(** The transaction badge of WaiverBudgetCard. *)
Module TransactionBadge.

Definition getTypeColor (type : string) : string :=
  if String.eqb type "ADD" then "bg-green-100 text-green-800"
  else if String.eqb type "DROP" then "bg-red-100 text-red-800"
  else if String.eqb type "TRADE" then "bg-blue-100 text-blue-800"
  else "bg-gray-100 text-gray-800".

Definition getStatusColor (status : string) : string :=
  if String.eqb status "SUCCESSFUL" then "bg-green-100 text-green-800"
  else if String.eqb status "FAILED" then "bg-red-100 text-red-800"
  else if String.eqb status "PENDING" then "bg-yellow-100 text-yellow-800"
  else "bg-gray-100 text-gray-800".

End TransactionBadge.

(* ===================================================================== *)
(** * components/matchups/MatchupCard.tsx                                  *)
(* ===================================================================== *)

Module MatchupCard.

Local Open Scope Z_scope.

(** Modelled from the spec: the declaration of the [Matchup] type is not
    among the sources; its [winner] field is the enum
    {HOME, AWAY, TIE, UNDECIDED} of the data model, the four literals the
    component compares it with. *)
Inductive Winner : Type := HOME | AWAY | TIE | UNDECIDED.

Definition Winner_eqb (a b : Winner) : bool :=
  match a, b with
  | HOME, HOME | AWAY, AWAY | TIE, TIE | UNDECIDED, UNDECIDED => true
  | _, _ => false
  end.

(** The fields of a matchup that the card reads for names and winner. *)
Record Matchup : Type := mkMatchup {
  home_team_id : Z;
  away_team_id : Z;
  home_team_name : option string;
  home_team_location : option string;
  home_team_nickname : option string;
  away_team_name : option string;
  away_team_location : option string;
  away_team_nickname : option string;
  winner : Winner
}.

Section Card.

(** [String.prototype.trim] *)
Variable trim : string -> string.

Variable matchup : Matchup.

(** [userTeamId?: number] *)
Variable userTeamId : option Z.

(** [name || `${location || ''} ${nickname || ''}`.trim() || 'Team'] *)
Definition teamName (name location nickname : option string) : string :=
  Api.or_string name
    (Api.or_string
       (Some (trim (Api.or_string location "" +:+ " " +:+ Api.or_string nickname "")))
       "Team").

Definition homeTeamName : string :=
  teamName (home_team_name matchup) (home_team_location matchup)
           (home_team_nickname matchup).

Definition awayTeamName : string :=
  teamName (away_team_name matchup) (away_team_location matchup)
           (away_team_nickname matchup).

Definition getWinnerStyle (isHome : bool) : string :=
  let isWinner := Winner_eqb (winner matchup) (if isHome then HOME else AWAY) in
  let isUser :=
    match userTeamId with
    | Some u => u =? (if isHome then home_team_id matchup else away_team_id matchup)
    | None => false
    end in
  if Winner_eqb (winner matchup) UNDECIDED then ""
  else if isWinner then
    (if isUser then "bg-green-50 border-green-200" else "bg-blue-50 border-blue-200")
  else "bg-gray-50 border-gray-200 opacity-75".

(** [matchup.winner === 'AWAY' && 'font-bold'] on the name and
    [... && 'text-green-600'] on the score, and the same for HOME. *)
Definition winnerHighlight (isHome : bool) : bool :=
  Winner_eqb (winner matchup) (if isHome then HOME else AWAY).

(** The "Result Summary" block: [None] when it is not rendered. *)
Definition resultSummary : option string :=
  if negb (Winner_eqb (winner matchup) UNDECIDED) then
    Some (if Winner_eqb (winner matchup) TIE then "Tied Game"
          else (if Winner_eqb (winner matchup) HOME then homeTeamName else awayTeamName)
               +:+ " Wins")
  else None.

End Card.

End MatchupCard.

(* ===================================================================== *)
(** * Waiver budgets: hooks/useWaiverBudgets.ts and WaiverBudgetCard       *)
(* ===================================================================== *)

Module WaiverBudgets.

Local Open Scope Z_scope.

(** The declarations of [WaiverTransaction] and [TeamBudgetSummary] are not
    among the sources: the records below have the fields the hook and the
    card read, and the two enumerations have the literals the transaction
    badge switches on, which are those of the data model. *)
Inductive TransactionType : Type := ADD | DROP | TRADE.
Inductive TransactionStatus : Type := PENDING | SUCCESSFUL | FAILED.

Record WaiverTransaction : Type := mkTransaction {
  id : Z;
  player_name : string;
  transaction_type : TransactionType;
  bid_amount : Z;
  status : TransactionStatus
}.

(** The fields of [TeamBudgetSummary] that the hook and the card read. *)
Record TeamBudgetSummary : Type := mkSummary {
  team_id : Z;
  team_name : string;
  current_budget : Z;
  spent_budget : Z;
  total_budget : Z;
  recent_transactions : list WaiverTransaction
}.

(** [budgetInfo] without its two percentages, which are roundings of
    quotients of the three amounts kept here. *)
Record BudgetInfo : Type := mkBudgetInfo {
  remaining : Z;
  spent : Z;
  total : Z
}.

Record TeamBudget : Type := mkTeamBudget {
  data : option TeamBudgetSummary;
  budgetInfo : option BudgetInfo
}.

(** [budgets?.find(budget => budget.team_id === teamId)] *)
Fixpoint find_team (budgets : list TeamBudgetSummary) (teamId : Z)
  : option TeamBudgetSummary :=
  match budgets with
  | [] => None
  | budget :: rest =>
      if team_id budget =? teamId then Some budget else find_team rest teamId
  end.

(** [budgets] is [None] while the query has no data. *)
Definition useTeamBudget (budgets : option (list TeamBudgetSummary)) (teamId : Z)
  : TeamBudget :=
  let teamBudget :=
    match budgets with
    | Some bs => find_team bs teamId
    | None => None
    end in
  mkTeamBudget teamBudget
    (match teamBudget with
     | Some b => Some (mkBudgetInfo (current_budget b) (spent_budget b) (total_budget b))
     | None => None
     end).

(** The three amounts [WaiverBudgetCard] prints: "Budget Remaining",
    "Total:" and "Spent:". *)
Record CardAmounts : Type := mkCardAmounts {
  shown_remaining : Z;
  shown_total : Z;
  shown_spent : Z
}.

Definition WaiverBudgetCard (budget : TeamBudgetSummary) : CardAmounts :=
  mkCardAmounts (current_budget budget) (total_budget budget) (spent_budget budget).

(** [budget.recent_transactions.some(t => t.status === 'PENDING')] *)
Definition hasPending (budget : TeamBudgetSummary) : bool :=
  existsb (fun t => match status t with PENDING => true | _ => false end)
          (recent_transactions budget).

End WaiverBudgets.

(* ===================================================================== *)
(** * WaiverLedger                                                         *)
(* ===================================================================== *)

Module WaiverLedger.

Import WaiverBudgets.
Local Open Scope Z_scope.

(** Modelled from the spec: the backend fold that derives a team's budget
    is not among the sources. A transaction counts towards [spent] when
    its type is ADD and its status is SUCCESSFUL. *)
Definition counts (t : WaiverTransaction) : bool :=
  match transaction_type t, status t with
  | ADD, SUCCESSFUL => true
  | _, _ => false
  end.

(** Modelled from the spec: spent is the sum of the bid amounts of the
    transactions that count (the ledger fold is missing from the sources). *)
Fixpoint spentOf (history : list WaiverTransaction) : Z :=
  match history with
  | [] => 0
  | t :: rest => (if counts t then bid_amount t else 0) + spentOf rest
  end.

(** Modelled from the spec: the result {total, spent, remaining} of
    [currentBudget], whose declaration is missing from the sources. *)
Record Budget : Type := mkBudget {
  total : Z;
  spent : Z;
  remaining : Z
}.

(** Modelled from the spec: [currentBudget(team) -> {total, spent,
    remaining}] with remaining = total - spent; the function itself is
    missing from the sources. *)
Definition currentBudget (leagueTotal : Z) (history : list WaiverTransaction) : Budget :=
  let s := spentOf history in
  mkBudget leagueTotal s (leagueTotal - s).

(** Modelled from the spec: a team as the ledger sees it, with its
    transaction history; the backend record is missing from the sources. *)
Record TeamLedger : Type := mkTeamLedger {
  ledger_team_id : Z;
  ledger_team_name : string;
  history : list WaiverTransaction
}.

(** Modelled from the spec: the record [getWaiverBudgets] serves for a
    team, with remaining exposed as [current_budget], spent as
    [spent_budget] and total as [total_budget]; the endpoint is missing
    from the sources. *)
Definition summary (leagueTotal : Z) (t : TeamLedger) : TeamBudgetSummary :=
  let b := currentBudget leagueTotal (history t) in
  mkSummary (ledger_team_id t) (ledger_team_name t)
            (remaining b) (spent b) (total b) (history t).

(** Modelled from the spec: the exposed operation [getWaiverBudgets], one
    record per team of the league; the endpoint is missing from the
    sources, which hold only the client call. *)
Definition getWaiverBudgets (leagueTotal : Z) (teams : list TeamLedger)
  : list TeamBudgetSummary :=
  map (summary leagueTotal) teams.

(** [t.status === 'PENDING'] *)
Definition isPending (t : WaiverTransaction) : bool :=
  match status t with PENDING => true | _ => false end.

(** The history with its pending transactions taken out. *)
Fixpoint resolved (history : list WaiverTransaction) : list WaiverTransaction :=
  match history with
  | [] => []
  | t :: rest => if isPending t then resolved rest else t :: resolved rest
  end.

End WaiverLedger.

(* ===================================================================== *)
(** * Trades: the request and response types, and the TradeEvaluator       *)
(* ===================================================================== *)

Module Trades.

Local Open Scope Z_scope.

(** [TradeAnalysisRequest] of types/index.ts. *)
Record TradeAnalysisRequest : Type := mkRequest {
  league_id : Z;
  proposing_team_id : Z;
  receiving_team_id : Z;
  give_players : list Z;
  receive_players : list Z
}.

(** [TradeAnalysisResponse] of types/index.ts: the two scores are optional
    fields. The summary, the recommendations and the player details are
    free text and are left out. *)
Record TradeAnalysisResponse : Type := mkResponse {
  is_valid : bool;
  fairness_score : option Q;
  value_difference : option Q
}.

(** The analysis panel renders the "Fairness Score" block when
    [analysis.fairness_score !== undefined] and the "Value Assessment"
    block when [analysis.value_difference !== undefined]. *)
Definition showsFairnessScore (analysis : TradeAnalysisResponse) : bool :=
  match fairness_score analysis with Some _ => true | None => false end.

Definition showsValueAssessment (analysis : TradeAnalysisResponse) : bool :=
  match value_difference analysis with Some _ => true | None => false end.

(** The same trade seen from the other team: the teams and the two player
    lists change places. *)
Definition swapSides (r : TradeAnalysisRequest) : TradeAnalysisRequest :=
  mkRequest (league_id r) (receiving_team_id r) (proposing_team_id r)
            (receive_players r) (give_players r).

Section Evaluator.

(** The value of a player: a blend whose weights are policy constants. *)
Variable value : Z -> Q.

(** The active roster of a team. *)
Variable roster : Z -> list Z.

(** The factor of the penalty, and the floor of its denominator. *)
Variable penaltyFactor : Q.
Variable epsilon : Q.

Definition member (p : Z) (players : list Z) : bool := existsb (Z.eqb p) players.

(** Modelled from the spec: "both sets non-empty", a part of the validity
    check, which is missing from the sources. *)
Definition nonEmpty (players : list Z) : bool :=
  match players with [] => false | _ :: _ => true end.

(** Modelled from the spec: "disjoint", a part of the validity check, which
    is missing from the sources. *)
Definition disjoint (a b : list Z) : bool :=
  forallb (fun p => negb (member p b)) a.

(** Modelled from the spec: "every player currently on the respective
    team's active roster", a part of the validity check, which is missing
    from the sources. *)
Definition onRoster (team : Z) (players : list Z) : bool :=
  forallb (fun p => member p (roster team)) players.

(** Modelled from the spec: the validity check of the evaluator, which is
    missing from the sources: both sets non-empty, disjoint, every player
    on the active roster of the respective team. *)
Definition isValid (r : TradeAnalysisRequest) : bool :=
  nonEmpty (give_players r) && nonEmpty (receive_players r) &&
  disjoint (give_players r) (receive_players r) &&
  onRoster (proposing_team_id r) (give_players r) &&
  onRoster (receiving_team_id r) (receive_players r).

(** Modelled from the spec: the ways a request can fail the validity
    check, which is missing from the sources. *)
Definition invalid (r : TradeAnalysisRequest) : Prop :=
  give_players r = [] \/ receive_players r = [] \/
  (exists p, In p (give_players r) /\ In p (receive_players r)) \/
  (exists p, In p (give_players r) /\ ~ In p (roster (proposing_team_id r))) \/
  (exists p, In p (receive_players r) /\ ~ In p (roster (receiving_team_id r))).

Local Open Scope Q_scope.

(** Modelled from the spec: the total value of one side, the sum of the
    values of its players; the evaluator is missing from the sources. *)
Fixpoint totalValue (players : list Z) : Q :=
  match players with
  | [] => 0
  | p :: rest => value p + totalValue rest
  end.

(** Modelled from the spec: sum(receiveValues) - sum(giveValues), from the
    proposing team's side; the evaluator is missing from the sources. *)
Definition valueDifference (r : TradeAnalysisRequest) : Q :=
  totalValue (receive_players r) - totalValue (give_players r).

(** Modelled from the spec: "clamped to [0,100]"; the evaluator is missing
    from the sources. *)
Definition clamp (lo hi x : Q) : Q := Qmax lo (Qmin hi x).

(** Modelled from the spec: 100 minus a penalty proportional to
    |valueDifference| / max(totalGive, totalReceive, epsilon), clamped to
    [0, 100]; the evaluator is missing from the sources. *)
Definition fairnessScore (r : TradeAnalysisRequest) : Q :=
  let give := totalValue (give_players r) in
  let receive := totalValue (receive_players r) in
  clamp 0 100
    (100 - penaltyFactor *
           (Qabs (valueDifference r) / Qmax (Qmax give receive) epsilon)).

(** Modelled from the spec: [evaluate]; an invalid input short-circuits
    with [is_valid = false] and no score. The function is missing from the
    sources, which hold only its caller [tradesService.analyzeTrade]. *)
Definition evaluate (r : TradeAnalysisRequest) : TradeAnalysisResponse :=
  if isValid r then
    mkResponse true (Some (fairnessScore r)) (Some (valueDifference r))
  else
    mkResponse false None None.

End Evaluator.

End Trades.

(* ===================================================================== *)
(** * Sample data                                                          *)
(* ===================================================================== *)

Module Samples.

Local Open Scope Z_scope.

(** Two teams: team 1 rosters players 11, 12, 13 and team 2 rosters 21, 22. *)
Definition roster (team : Z) : list Z :=
  match team with
  | 1 => [11; 12; 13]
  | 2 => [21; 22]
  | _ => []
  end.

Definition value (player : Z) : Q :=
  match player with
  | 11 => 30%Q
  | 12 => 20%Q
  | 13 => 50%Q
  | 21 => 70%Q
  | 22 => 50%Q
  | _ => 0%Q
  end.

Definition penaltyFactor : Q := 100.
Definition epsilon : Q := 1 # 1000.

(** Team 1 gives player 11 (30) for player 21 (70). *)
Definition lopsided : Trades.TradeAnalysisRequest := Trades.mkRequest 7 1 2 [11] [21].

(** Team 1 gives player 13 (50) for player 22 (50). *)
Definition even : Trades.TradeAnalysisRequest := Trades.mkRequest 7 1 2 [13] [22].

(** Team 1 offers player 21, who is on the other roster. *)
Definition offRoster : Trades.TradeAnalysisRequest := Trades.mkRequest 7 1 2 [21] [22].

(** A season of bids: one paid for, one lost, one still pending, one drop. *)
Definition bids : list WaiverBudgets.WaiverTransaction :=
  [ WaiverBudgets.mkTransaction 1 "Rookie RB" WaiverBudgets.ADD 23 WaiverBudgets.SUCCESSFUL;
    WaiverBudgets.mkTransaction 2 "Backup QB" WaiverBudgets.ADD 40 WaiverBudgets.FAILED;
    WaiverBudgets.mkTransaction 3 "Slot WR" WaiverBudgets.ADD 15 WaiverBudgets.PENDING;
    WaiverBudgets.mkTransaction 4 "Old TE" WaiverBudgets.DROP 0 WaiverBudgets.SUCCESSFUL ].

Definition pendingBid : WaiverBudgets.WaiverTransaction :=
  WaiverBudgets.mkTransaction 5 "Kicker" WaiverBudgets.ADD 60 WaiverBudgets.PENDING.

Definition league : list WaiverLedger.TeamLedger :=
  [ WaiverLedger.mkTeamLedger 1 "Aces" bids;
    WaiverLedger.mkTeamLedger 2 "Deep Threat" [] ].

End Samples.

(* ===================================================================== *)
(** * Upstream scenarios for the retry strategy                            *)
(* ===================================================================== *)

Module Scenarios.

Import RemoteClient.
Local Open Scope Z_scope.

(** What the loop does with an answer it does not return or raise on: a
    429, a 2xx other than 200, or a transport failure. *)
Definition retried {Payload} (r : Reply Payload) : Prop :=
  match r with
  | Responded code _ => code = 429 \/ (200 <= code <= 299 /\ code <> 200)
  | RequestFailed _ => True
  end.

(** A status on which [raise_for_status] raises and the loop does not
    sleep: anything outside 2xx except 429. *)
Definition fatalStatus (code : Z) : Prop :=
  (code < 200 \/ 299 < code) /\ code <> 429.

(** The events of [n] attempts that were all answered 429. *)
Definition backoffLog (attempts : list Z) : list Event :=
  flat_map (fun attempt => [Get; Sleep (2 ^ attempt)]) attempts.

End Scenarios.

(* ===================================================================== *)
(** * Team records as numbers                                              *)
(* ===================================================================== *)

Module Records.

(** The number that a whole count of games is. *)
Definition ofNat (n : nat) : float := PrimFloat.of_uint63 (Uint63.of_Z (Z.of_nat n)).


(** The counts 0, 1, ..., n as numbers. *)
Definition counts (n : nat) : list float := map ofNat (seq 0 (S n)).

(** A test on every record (wins, losses, ties) made of the given counts. *)
Definition onEveryRecord (test : float -> float -> float -> bool) (cs : list float) : bool :=
  forallb (fun wins => forallb (fun losses => forallb (fun ties =>
    test wins losses ties) cs) cs) cs.

Definition played (wins losses ties : float) : bool :=
  negb (wins + losses + ties =? 0)%float.

(** [0 <= r && r <= 100]; false of NaN. *)
Definition inRange (r : float) : bool := ((0 <=? r) && (r <=? 100))%float.

(** The percentage is in range, and the total is 0 only when the three
    counts are. *)
Definition guardedAndBounded (wins losses ties : float) : bool :=
  inRange (Utils.getWinPercentage wins losses ties) &&
  (((wins =? 0) && (losses =? 0) && (ties =? 0))%float || played wins losses ties).

(** One ulp of 100: 2^-46. *)
Definition ulp100 : float := 0x1p-46%float.

(** The percentages of a record and of its mirror add up to 100 within one
    ulp, and a record with as many wins as losses stands at 50. *)
Definition mirrored (wins losses ties : float) : bool :=
  negb (played wins losses ties) ||
  (abs (Utils.getWinPercentage wins losses ties +
        Utils.getWinPercentage losses wins ties - 100) <=? ulp100)%float.

Definition evenAt50 (wins losses ties : float) : bool :=
  negb (played wins wins ties) || (Utils.getWinPercentage wins wins ties =? 50)%float.

(** One more win does not lower the percentage, one more loss does not
    raise it. *)
Definition monotone (wins losses ties : float) : bool :=
  ((Utils.getWinPercentage wins losses ties <=?
    Utils.getWinPercentage (wins + 1) losses ties) &&
   (Utils.getWinPercentage wins (losses + 1) ties <=?
    Utils.getWinPercentage wins losses ties))%float.

End Records.

(* ===================================================================== *)
(** * services/auth.ts, contexts/AuthContext.tsx and the route guard        *)
(* ===================================================================== *)

(** The [Location] of react-router: [useLocation()] returns one, and a
    [Navigate] can carry one in its state. *)
Module Router.

Record Location : Type := mkLocation {
  pathname : string;
  search : string;
  hash : string
}.

End Router.

Module Auth.

Import Api.

(** What the server did with a request: it answered with [data], or the
    call failed with an axios error. *)
Inductive Outcome (A : Type) : Type :=
| Answered (data : A)
| Failed (error : AxiosError).
Arguments Answered {A} data.
Arguments Failed {A} error.

(** A call through the axios instance: its outcome passes the response
    interceptor, the fulfilled branch or the rejected one. *)
Definition request {A} (outcome : Outcome A) (b : Browser) : Settled A * Browser :=
  match outcome with
  | Answered data => onFulfilled data b
  | Failed error => onRejected error b
  end.

Section Service.

(** The [User] of types/index.ts, whose fields the service hands on
    untouched. *)
Context {User : Type}.

Record AuthResponse : Type := mkAuthResponse {
  access_token : string;
  token_type : string;
  user : User
}.

(** [authService.login] and [authService.register]: on an answer the token
    is stored, a failure passes through. *)
Definition login (outcome : Outcome AuthResponse) (b : Browser)
  : Settled AuthResponse * Browser :=
  match request outcome b with
  | (Resolved data, b') => (Resolved data, setAuthToken (access_token data) b')
  | (Rejected reason, b') => (Rejected reason, b')
  end.

(** [authService.getCurrentUser] *)
Definition getCurrentUser (outcome : Outcome User) (b : Browser) : Settled User * Browser :=
  request outcome b.

(** [authService.logout] *)
Definition logout (b : Browser) : Browser := removeAuthToken b.

(** [Boolean(localStorage.getItem('access_token'))]: a missing item and an
    empty one are both false. *)
Definition isAuthenticated (b : Browser) : bool :=
  match getAuthToken b with
  | Some token => negb (String.eqb token "")
  | None => false
  end.

(** The state of [AuthProvider]. *)
Record AuthState : Type := mkAuthState {
  currentUser : option User;
  isLoading : bool
}.

(** The state before the effect has run: no user, loading. *)
Definition initialAuthState : AuthState := mkAuthState None true.

(** [checkAuthStatus], run once when the provider mounts. [outcome] is what
    the server does with the request for the current user, if it is made. *)
Definition checkAuthStatus (outcome : Outcome User) (s : AuthState) (b : Browser)
  : AuthState * Browser :=
  if isAuthenticated b then
    match getCurrentUser outcome b with
    | (Resolved userData, b') => (mkAuthState (Some userData) false, b')
    | (Rejected _, b') => (mkAuthState (currentUser s) false, logout b')
    end
  else (mkAuthState (currentUser s) false, b).

(** [const isAuthenticated = Boolean(user)] of the context. *)
Definition contextAuthenticated (s : AuthState) : bool :=
  match currentUser s with Some _ => true | None => false end.

End Service.

(** ** components/auth/ProtectedRoute.tsx and the login page *)

(** What the guard renders. *)
Inductive Rendered : Type :=
| LoadingPage
| Navigate (to : string) (state_from : Router.Location)  (* state = { from: location } *)
| Children.

(** [redirectTo = '/login'] by default; [location] is [useLocation()], the
    whole current location. *)
Definition ProtectedRoute (isAuthenticated isLoading : bool) (redirectTo : string)
    (location : Router.Location) : Rendered :=
  if isLoading then LoadingPage
  else if negb isAuthenticated then Navigate redirectTo location
  else Children.

(** [handleLoginSuccess]: the path it navigates to,
    [(location.state as any)?.from?.pathname || '/'], where [state_from] is
    the [from] kept in the location state, if any. Of the kept location
    only the pathname is read. *)
Definition handleLoginSuccess (state_from : option Router.Location) : string :=
  or_string (option_map Router.pathname state_from) "/".

End Auth.

(* ===================================================================== *)
(** * App.tsx: the query client, and calls that are counted                 *)
(* ===================================================================== *)

Module QueryClient.

Import Api.



(** The client side of a call: the browser, and the requests that have left
    it, each with the Authorization header it carried, if any. *)
Record Client : Type := mkClient {
  browser : Browser;
  requests : list (option string)
}.

(** One call through the axios instance ([api.get], [api.post], ...): the
    request leaves with the default headers of the instance, and what the
    server does with it passes the response interceptor. *)
Definition call {A} (outcome : Auth.Outcome A) (c : Client) : Settled A * Client :=
  let sent := requests c ++ [common_headers (browser c) !! "Authorization"] in
  match Auth.request outcome (browser c) with
  | (settled, b') => (settled, mkClient b' sent)
  end.




End QueryClient.

(* ===================================================================== *)
(** * Text extraction: utils/index.ts and pages/LeagueConnectPage.tsx       *)
(* ===================================================================== *)

(** The two regular expressions of the sources have one shape: a literal,
    then one or more characters of a class, captured. *)
Module Regex.

Import Utils.
Local Open Scope N_scope.

(** The literal at the start of [s]: what follows it, if it matches. Every
    character of the literal is a test on a code unit. *)
Fixpoint matchLiteral (literal : list (N -> bool)) (s : JSString) : option JSString :=
  match literal with
  | [] => Some s
  | p :: literal' =>
      match s with
      | c :: s' => if p c then matchLiteral literal' s' else None
      | [] => None
      end
  end.

(** The longest run of characters of a class at the start of [s]. *)
Fixpoint takeRun (class : N -> bool) (s : JSString) : JSString :=
  match s with
  | c :: s' => if class c then c :: takeRun class s' else []
  | [] => []
  end.

(** A match that starts at the first character: the captured group. The
    group is greedy and nothing follows it in the pattern, so there is a
    match exactly when the run is not empty. *)
Definition matchHere (literal : list (N -> bool)) (class : N -> bool) (s : JSString)
  : option JSString :=
  match matchLiteral literal s with
  | Some rest =>
      match takeRun class rest with
      | [] => None
      | capture => Some capture
      end
  | None => None
  end.

(** [s.match(/literal(class+)/)]: the group of the leftmost match. *)
Fixpoint search (literal : list (N -> bool)) (class : N -> bool) (s : JSString)
  : option JSString :=
  match matchHere literal class s with
  | Some capture => Some capture
  | None =>
      match s with
      | _ :: s' => search literal class s'
      | [] => None
      end
  end.

(** A literal matched as it is written. *)
Definition exactly (text : string) : list (N -> bool) :=
  map (fun p c => c =? p) (units text).

(** The upper case of an ASCII letter; every other code unit is itself. *)
Definition asciiUpper (c : N) : N :=
  if (0x61 <=? c) && (c <=? 0x7A) then c - 0x20 else c.

(** A literal of ASCII characters under the [i] flag: a code unit matches
    a letter in either case, and no code unit above ASCII matches one. *)
Definition ignoringCase (text : string) : list (N -> bool) :=
  map (fun p c => asciiUpper c =? asciiUpper p) (units text).

(** [String.prototype.trim]: white space and line terminators are removed
    at both ends. *)
Definition trim (s : JSString) : JSString :=
  rev (trimStart (rev (trimStart s))).

End Regex.

Module Cookies.

Import Utils Regex.
Local Open Scope N_scope.

(** [{ espn_s2?: string; swid?: string }] *)
Record ESPNCookies : Type := mkCookies {
  espn_s2 : option JSString;
  swid : option JSString
}.

(** [[^;]] *)
Definition notSemicolon (c : N) : bool := negb (c =? 0x3B).

(** Any code unit but "=". *)
Definition notEquals (c : N) : bool := negb (c =? 0x3D).

(** [extractESPNCookies]: [/espn_s2=([^;]+)/i] and [/SWID=([^;]+)/i], each
    group trimmed. *)
Definition extractESPNCookies (cookieText : JSString) : ESPNCookies :=
  mkCookies
    (option_map trim (search (ignoringCase "espn_s2=") notSemicolon cookieText))
    (option_map trim (search (ignoringCase "SWID=") notSemicolon cookieText)).

End Cookies.

Module LeagueConnectPage.

Import Utils Regex.
Local Open Scope N_scope.

(** [extractLeagueIdFromUrl]: the group of [/leagueId=(\d+)/], or ''. *)
Definition extractLeagueIdFromUrl (url : JSString) : JSString :=
  match search (exactly "leagueId=") isDecimalDigit url with
  | Some id => id
  | None => []
  end.

(** [parseInt(val, 10)]: as [parseInt] without a radix, except that no
    "0x" prefix is looked for. The result here is the mathematical integer
    that was read; the number that [parseInt] returns is that integer
    rounded to binary64, which is the integer itself as long as it is at
    most 2^53 in size, and has its sign in any case. *)
Definition parseInt10 (string : JSString) : option Z :=
  let inputS := trimStart string in
  let sign := signOf inputS in
  match readDigits 10 (dropSign inputS) false 0 with
  | Some mathInt => Some (sign * Z.of_N mathInt)%Z
  | None => None
  end.

(** The [league_id] field of [leagueConnectionSchema]: the number it yields
    or the message of its first issue. *)
Definition league_id_schema (val : JSString) : Z + string :=
  match val with
  | [] => inr "League ID is required"%string
  | _ :: _ =>
      let n := parseInt10 val in
      if negb (isNaN n) && gt0 n then
        match n with
        | Some id => inl id
        | None => inr "League ID must be a valid number"%string
        end
      else inr "League ID must be a valid number"%string
  end.

(** [handleUrlPaste]: the new value of the field, when it is set. *)
Definition handleUrlPaste (pastedText : JSString) : option JSString :=
  match extractLeagueIdFromUrl pastedText with
  | [] => None
  | extractedId => Some extractedId
  end.

(** [LeagueConnectionRequest] of types/index.ts. *)
Record LeagueConnectionRequest : Type := mkConnection {
  league_id : Z;
  espn_s2 : option JSString;
  espn_swid : option JSString
}.

(** [if (field?.trim()) connectionData.field = field.trim()] *)
Definition trimmedIfAny (field : option JSString) : option JSString :=
  match field with
  | Some text =>
      match trim text with
      | [] => None
      | trimmed => Some trimmed
      end
  | None => None
  end.

(** The [connectionData] that [onSubmit] sends. *)
Definition connectionData (id : Z) (s2 swid : option JSString) : LeagueConnectionRequest :=
  mkConnection id (trimmedIfAny s2) (trimmedIfAny swid).

End LeagueConnectPage.

(* ===================================================================== *)
(** * Matchups: the favourite of a card and hooks/useMatchups.ts            *)
(* ===================================================================== *)

Module Favorites.

Local Open Scope Q_scope.

(** [a > b] on two finite numbers. *)
Definition gt (a b : Q) : bool := negb (Qle_bool a b).

Section Card.

(** [matchup.home_projected_score] and [matchup.away_projected_score],
    [None] when the field is missing. *)
Variable home_projected_score away_projected_score : option Q.

(** [score || 0]: a missing projection and a projection of 0 both give 0. *)
Definition orZero (score : option Q) : Q :=
  match score with Some x => x | None => 0 end.

Definition homeProjected : Q := orZero home_projected_score.
Definition awayProjected : Q := orZero away_projected_score.

Definition homeFavorite : bool := gt homeProjected awayProjected && gt homeProjected 0.
Definition awayFavorite : bool := gt awayProjected homeProjected && gt awayProjected 0.

(** [projected > 0 ? `Proj: ...` : 'No projection'] *)
Definition showsProjection (projected : Q) : bool := gt projected 0.

End Card.

End Favorites.

Module MatchupsHook.

Import MatchupCard.
Local Open Scope Z_scope.

Section Hook.

(** The scores of a matchup, which the card record does not carry. *)
Context {Score : Type}.
Variable home_score away_score : Matchup -> Score.

Record Opponent : Type := mkOpponent {
  teamId : Z;
  teamName : option string;
  score : Score
}.

Record CurrentMatchup : Type := mkCurrentMatchup {
  data : option Matchup;
  opponent : option Opponent;
  myScore : option Score
}.

(** [matchups?.find(m => m.home_team_id === teamId || m.away_team_id === teamId)] *)
Fixpoint find_matchup (matchups : list Matchup) (team : Z) : option Matchup :=
  match matchups with
  | [] => None
  | m :: rest =>
      if (home_team_id m =? team) || (away_team_id m =? team) then Some m
      else find_matchup rest team
  end.

(** [matchups] is [None] while the query has no data. *)
Definition useCurrentMatchup (matchups : option (list Matchup)) (team : Z)
  : CurrentMatchup :=
  let currentMatchup :=
    match matchups with
    | Some ms => find_matchup ms team
    | None => None
    end in
  mkCurrentMatchup currentMatchup
    (match currentMatchup with
     | Some m =>
         Some (mkOpponent
                 (if home_team_id m =? team then away_team_id m else home_team_id m)
                 (if home_team_id m =? team then away_team_name m else home_team_name m)
                 (if home_team_id m =? team then away_score m else home_score m))
     | None => None
     end)
    (match currentMatchup with
     | Some m => Some (if home_team_id m =? team then home_score m else away_score m)
     | None => None
     end).

End Hook.

End MatchupsHook.

(* ===================================================================== *)
(** * The waiver budget card: its recent activity                          *)
(* ===================================================================== *)

Module BudgetCard.

Import WaiverBudgets.
Local Open Scope Z_scope.

(** The "Recent Activity" block: the "Pending" badge, the transaction
    badges and the "+n more transactions" line. *)
Record RecentActivity : Type := mkRecentActivity {
  pendingBadge : bool;
  badges : list WaiverTransaction;
  more : option Z
}.

(** The two conditional blocks at the foot of the card. *)
Record Activity : Type := mkActivity {
  recentActivity : option RecentActivity;
  noRecentActivity : bool
}.

Definition activity (budget : TeamBudgetSummary) : Activity :=
  let transactions := recent_transactions budget in
  let length := Z.of_nat (List.length transactions) in
  mkActivity
    (if 0 <? length then
       Some (mkRecentActivity
               (hasPending budget)
               (firstn 3 transactions)
               (if 3 <? length then Some (length - 3) else None))
     else None)
    (length =? 0).

End BudgetCard.

(* ===================================================================== *)
(** * pages/TeamRosterPage.tsx: the three groups of the roster             *)
(* ===================================================================== *)

Module TeamRosterGroups.

(** The fields of [RosterPlayer] (types/index.ts) that the grouping and
    the slot badge read. *)
Record RosterPlayer : Type := mkRosterPlayer {
  player_id : Z;
  full_name : string;
  lineup_slot_name : string
}.

Definition isStarter (player : RosterPlayer) : bool :=
  negb (String.eqb (lineup_slot_name player) "BENCH") &&
  negb (String.eqb (lineup_slot_name player) "IR").

Definition isBench (player : RosterPlayer) : bool :=
  String.eqb (lineup_slot_name player) "BENCH".

Definition isIR (player : RosterPlayer) : bool :=
  String.eqb (lineup_slot_name player) "IR".

(** [roster?.roster?.filter(...) || []]: [roster] is [None] while the
    query has no data. *)
Definition group (keep : RosterPlayer -> bool) (roster : option (list RosterPlayer))
  : list RosterPlayer :=
  match roster with
  | Some players => List.filter keep players
  | None => []
  end.

Definition startingRoster := group isStarter.
Definition benchPlayers := group isBench.
Definition irPlayers := group isIR.

End TeamRosterGroups.

(* ===================================================================== *)
(** * hooks/useApi.ts                                                       *)
(* ===================================================================== *)

Module UseApi.

Import Api.

Inductive Toast : Type :=
| ToastSuccess (text : string)
| ToastError (text : string).

Section Hook.

Context {T : Type}.

Record UseApiState : Type := mkUseApiState {
  data : option T;
  loading : bool;
  error : option string
}.

Definition initialState : UseApiState := mkUseApiState None false None.

(** The first [setState] of [execute], before the call is awaited. *)
Definition pending (prev : UseApiState) : UseApiState :=
  mkUseApiState (data prev) true None.

(** What [execute] leaves behind once [apiFunction] has settled. *)
Record Executed : Type := mkExecuted {
  settled : Settled T;
  state : UseApiState;
  toasts : list Toast
}.

Definition execute (showSuccessToast : bool) (successMessage : string)
    (apiFunction : Settled T) (prev : UseApiState) : Executed :=
  let prev := pending prev in
  match apiFunction with
  | Resolved result =>
      mkExecuted (Resolved result)
                 (mkUseApiState (Some result) false None)
                 (if showSuccessToast then [ToastSuccess successMessage] else [])
  | Rejected apiError =>
      let errorMessage := or_string (Some (detail apiError)) "An unexpected error occurred" in
      mkExecuted (Rejected apiError)
                 (mkUseApiState (data prev) false (Some errorMessage))
                 [ToastError errorMessage]
  end.

Definition reset (prev : UseApiState) : UseApiState :=
  mkUseApiState None false None.

End Hook.

End UseApi.

(* ===================================================================== *)
(** * StrategicSuggestions, the variant that asks the server               *)
(* ===================================================================== *)

Module StrategicSuggestions.

Import Api.
Local Open Scope Z_scope.

(** The fields of [StrategicSuggestion] that the component itself reads;
    the texts of a suggestion are handed to its card untouched. *)
Record StrategicSuggestion : Type := mkSuggestion {
  id : string;
  type : string;
  priority : string
}.

Record SuggestionFilters : Type := mkFilters {
  filter_type : option string;
  filter_priority : option string
}.

Inductive FilterKey : Type := KeyType | KeyPriority.

(** A string or [null] or [undefined] used as a condition. *)
Definition truthy (s : option string) : bool :=
  match s with
  | Some text => negb (String.eqb text "")
  | None => false
  end.

(** [value !== wanted], where [wanted] may be undefined. *)
Definition differs (value : string) (wanted : option string) : bool :=
  match wanted with
  | Some text => negb (String.eqb value text)
  | None => true
  end.

(** The predicate of [suggestions.filter(...)]. *)
Definition passes (filters : SuggestionFilters) (suggestion : StrategicSuggestion) : bool :=
  if truthy (filter_type filters) && differs (type suggestion) (filter_type filters)
  then false
  else if truthy (filter_priority filters) &&
          differs (priority suggestion) (filter_priority filters)
  then false
  else true.

Definition filteredSuggestions (filters : SuggestionFilters)
    (suggestions : list StrategicSuggestion) : list StrategicSuggestion :=
  List.filter (passes filters) suggestions.

(** [{ ...prev, [key]: value === 'all' ? undefined : value }] *)
Definition handleFilterChange (key : FilterKey) (value : string) (prev : SuggestionFilters)
  : SuggestionFilters :=
  let chosen := if String.eqb value "all" then None else Some value in
  match key with
  | KeyType => mkFilters chosen (filter_priority prev)
  | KeyPriority => mkFilters (filter_type prev) chosen
  end.

(** The state of the component. *)
Record State : Type := mkState {
  filters : SuggestionFilters;
  isLoading : bool;
  suggestions : list StrategicSuggestion;
  error : option string
}.

Definition initialState : State := mkState (mkFilters None None) false [] None.

(** [!userTeamId]: a missing team and team 0 are both falsy. *)
Definition noTeam (userTeamId : option Z) : bool :=
  match userTeamId with
  | Some t => t =? 0
  | None => true
  end.

(** [fetchSuggestions]. [outcome] is what the server does with the request
    if it is made; the request goes through the axios instance and so
    through its response interceptor. *)
Definition fetchSuggestions (userTeamId : option Z)
    (outcome : Auth.Outcome (list StrategicSuggestion)) (s : State) (b : Browser)
  : State * Browser :=
  if noTeam userTeamId then
    (mkState (filters s) (isLoading s) (suggestions s) (Some "No team selected"), b)
  else
    match Auth.request outcome b with
    | (Resolved data, b') => (mkState (filters s) false data None, b')
    | (Rejected err, b') =>
        (mkState (filters s) false []
           (Some (or_string (Some (detail err))
                            "Failed to load AI suggestions. Please try again.")),
         b')
    end.

(** What the list area shows. *)
Inductive Panel : Type :=
| UnableToLoad (message : string)
| Spinner
| Cards (shown : list StrategicSuggestion)
| NoSuggestionsAvailable
| NoSuggestionsMatch.

Definition panel (s : State) : Panel :=
  if truthy (error s) then
    UnableToLoad (match error s with Some message => message | None => "" end)
  else if isLoading s then Spinner
  else
    let filtered := filteredSuggestions (filters s) (suggestions s) in
    match filtered with
    | _ :: _ => Cards filtered
    | [] =>
        match suggestions s with
        | [] => NoSuggestionsAvailable
        | _ :: _ => NoSuggestionsMatch
        end
    end.

(** [{!error && (<Button ...>)}]: the refresh button. *)
Definition refreshButton (s : State) : bool := negb (truthy (error s)).

End StrategicSuggestions.

(* ===================================================================== *)
(** * TradeAnalyzerPage                                                    *)
(* ===================================================================== *)

Module TradeAnalyzerPage.

Import Trades.
Local Open Scope Z_scope.

(** The fields of [Team] that the page reads. *)
Record Team : Type := mkTeam {
  id : Z;
  espn_team_id : Z;
  name : string
}.

(** The state of the page; [league] is the data of the league query. *)
Record State : Type := mkState {
  league : option Z;                      (* league.id, when loaded *)
  selectedTeam1 : option Team;
  selectedTeam2 : option Team;
  team1Players : list Z;
  team2Players : list Z;
  analysis : option TradeAnalysisResponse
}.

(** [teams?.find(t => t.id === parseInt(e.target.value))]: [value] is the
    number the chosen option parses to, [None] for the empty option
    "Select a team...", whose value parses to NaN. *)
Fixpoint find_team (teams : list Team) (value : option Z) : option Team :=
  match teams with
  | [] => None
  | t :: rest =>
      match value with
      | Some v => if id t =? v then Some t else find_team rest value
      | None => find_team rest value
      end
  end.

Definition teamsOrNone (teams : option (list Team)) : list Team :=
  match teams with Some ts => ts | None => [] end.

(** The [onChange] of the two selects. *)
Definition selectTeam1 (teams : option (list Team)) (value : option Z) (s : State) : State :=
  mkState (league s) (find_team (teamsOrNone teams) value) (selectedTeam2 s)
          [] (team2Players s) (analysis s).

Definition selectTeam2 (teams : option (list Team)) (value : option Z) (s : State) : State :=
  mkState (league s) (selectedTeam1 s) (find_team (teamsOrNone teams) value)
          (team1Players s) [] (analysis s).



(** A copy of the state array under [newPlayers[index] = value]: writing
    past the end leaves holes, [None] here. *)
Fixpoint assign (index : nat) (value : Z) (newPlayers : list (option Z))
  : list (option Z) :=
  match index, newPlayers with
  | O, [] => [Some value]
  | O, _ :: rest => Some value :: rest
  | S n, [] => None :: assign n value []
  | S n, p :: rest => p :: assign n value rest
  end.

(** [newPlayers.splice(index, 1)] *)
Fixpoint splice1 (index : nat) (newPlayers : list (option Z)) : list (option Z) :=
  match index, newPlayers with
  | _, [] => []
  | O, _ :: rest => rest
  | S n, p :: rest => p :: splice1 n rest
  end.

(** [newPlayers.filter(p => p)]: holes are skipped and 0 is falsy. *)
Fixpoint compact (newPlayers : list (option Z)) : list Z :=
  match newPlayers with
  | [] => []
  | Some p :: rest => if p =? 0 then compact rest else p :: compact rest
  | None :: rest => compact rest
  end.

(** The [onChange] of player box [i] (1, 2 or 3), from the value it parsed;
    [None] is [null] or NaN. *)
Definition playersChanged (i : nat) (value : option Z) (players : list Z) : list Z :=
  let newPlayers := map Some players in
  compact
    (match value with
     | Some v =>
         if v =? 0 then splice1 (i - 1) newPlayers else assign (i - 1) v newPlayers
     | None => splice1 (i - 1) newPlayers
     end).

(** [e.target.value ? parseInt(e.target.value) : null] *)
Definition boxValue (text : Utils.JSString) : option Z :=
  match text with
  | [] => None
  | _ :: _ => Utils.parseInt text
  end.

Definition team1PlayerChanged (i : nat) (text : Utils.JSString) (s : State) : State :=
  mkState (league s) (selectedTeam1 s) (selectedTeam2 s)
          (playersChanged i (boxValue text) (team1Players s)) (team2Players s)
          (analysis s).

Definition team2PlayerChanged (i : nat) (text : Utils.JSString) (s : State) : State :=
  mkState (league s) (selectedTeam1 s) (selectedTeam2 s)
          (team1Players s) (playersChanged i (boxValue text) (team2Players s))
          (analysis s).

Definition isEmpty (players : list Z) : bool :=
  match players with [] => true | _ :: _ => false end.

Definition missing {A} (x : option A) : bool :=
  match x with Some _ => false | None => true end.

(** The request [handleAnalyzeTrade] hands to the mutation, if any. *)
Definition handleAnalyzeTrade (s : State) : option TradeAnalysisRequest :=
  if missing (selectedTeam1 s) || missing (selectedTeam2 s) ||
     isEmpty (team1Players s) || isEmpty (team2Players s) || missing (league s)
  then None
  else
    match selectedTeam1 s, selectedTeam2 s, league s with
    | Some team1, Some team2, Some league_id =>
        Some (mkRequest league_id (espn_team_id team1) (espn_team_id team2)
                        (team1Players s) (team2Players s))
    | _, _, _ => None
    end.

(** The [disabled] of the "Analyze Trade" button. *)
Definition analyzeDisabled (s : State) (mutationIsLoading : bool) : bool :=
  missing (selectedTeam1 s) || missing (selectedTeam2 s) ||
  isEmpty (team1Players s) || isEmpty (team2Players s) || mutationIsLoading.

Definition resetAnalysis (s : State) : State :=
  mkState (league s) None None [] [] None.

(** What the user can do on the page, and the state after a series of
    such events on a page that starts with nothing selected. *)
Inductive Event : Type :=
| SelectTeam1 (value : option Z)
| SelectTeam2 (value : option Z)
| Team1Player (i : nat) (text : Utils.JSString)
| Team2Player (i : nat) (text : Utils.JSString)
| ClickReset.

Definition initialState (league : option Z) : State :=
  mkState league None None [] [] None.

Definition step (teams : option (list Team)) (s : State) (e : Event) : State :=
  match e with
  | SelectTeam1 value => selectTeam1 teams value s
  | SelectTeam2 value => selectTeam2 teams value s
  | Team1Player i text => team1PlayerChanged i text s
  | Team2Player i text => team2PlayerChanged i text s
  | ClickReset => resetAnalysis s
  end.

Definition run (teams : option (list Team)) (league : option Z) (events : list Event)
  : State :=
  fold_left (step teams) events (initialState league).

(** The page has three player boxes a side, [[1, 2, 3].map(i => ...)]. *)
Definition ofThePage (e : Event) : Prop :=
  match e with
  | Team1Player i _ | Team2Player i _ => (1 <= i <= 3)%nat
  | _ => True
  end.

(** What holds of every state of the page: the league is the one of the
    query, a selected team is a team of the league, and a side holds at
    most three players, none of them 0. *)
Definition wellFormed (teams : option (list Team)) (league_id : option Z) (s : State)
  : Prop :=
  league s = league_id /\
  (forall t, selectedTeam1 s = Some t -> In t (teamsOrNone teams)) /\
  (forall t, selectedTeam2 s = Some t -> In t (teamsOrNone teams)) /\
  (List.length (team1Players s) <= 3)%nat /\
  Forall (fun p => p <> 0) (team1Players s) /\
  (List.length (team2Players s) <= 3)%nat /\
  Forall (fun p => p <> 0) (team2Players s).

End TradeAnalyzerPage.

(* ===================================================================== *)
(** * Facts: RemoteClient                                                  *)
(* ===================================================================== *)

Section RemoteClientFacts.

Import RemoteClient.
Local Open Scope Z_scope.

Context {Payload : Type}.
Implicit Types (up : nat -> Reply Payload) (w : World).

Lemma range_at_least_4 (n : Z) :
  4 <= n -> exists later, range n = 0 :: 1 :: 2 :: 3 :: later.
Proof.
  intros H. unfold range.
  destruct (Z.to_nat n) as [|[|[|[|k]]]] eqn:E; try lia.
  cbn. eauto.
Qed.


(** One pass through the loop body when the upstream answers 429. *)
Lemma attempt_body_429 up max_retries attempt w other :
  up (sent w) = Responded 429 other ->
  attempt_body up max_retries attempt w =
    (Normal Next, mkWorld (S (sent w)) (log w ++ [Get; Sleep (2 ^ attempt)])).
Proof.
  intros H. unfold attempt_body, try_except_RequestError, bind, httpx_get.
  rewrite H. cbn. rewrite <- app_assoc. reflexivity.
Qed.

Lemma attempt_body_200 up max_retries attempt w body :
  up (sent w) = Responded 200 body ->
  attempt_body up max_retries attempt w =
    (Normal (Done body), mkWorld (S (sent w)) (log w ++ [Get])).
Proof.
  intros H. unfold attempt_body, try_except_RequestError, bind, httpx_get.
  rewrite H. reflexivity.
Qed.


(** Every pass issues exactly one request and only appends to the log. *)
Lemma attempt_body_sent up max_retries attempt w :
  sent (snd (attempt_body up max_retries attempt w)) = S (sent w).
Proof.
  unfold attempt_body, try_except_RequestError, bind, httpx_get, raise_for_status.
  destruct (up (sent w)) as [code body|msg]; cbn.
  - destruct (code =? 200); [reflexivity|].
    destruct (code =? 429); [reflexivity|].
    destruct ((200 <=? code) && (code <=? 299)); reflexivity.
  - destruct (attempt =? max_retries - 1); reflexivity.
Qed.

Lemma gets_app (l1 l2 : list Event) : gets (l1 ++ l2) = (gets l1 + gets l2)%nat.
Proof.
  induction l1 as [|[|s] l1 IH]; cbn; [reflexivity| |]; rewrite IH; reflexivity.
Qed.

(** Every pass adds exactly one [Get] to the log. *)
Lemma attempt_body_gets up max_retries attempt w :
  gets (log (snd (attempt_body up max_retries attempt w))) = S (gets (log w)).
Proof.
  unfold attempt_body, try_except_RequestError, bind, httpx_get, raise_for_status.
  destruct (up (sent w)) as [code body|msg]; cbn.
  - destruct (code =? 200); [cbn; rewrite gets_app; cbn; lia|].
    destruct (code =? 429); [cbn; rewrite !gets_app; cbn; lia|].
    destruct ((200 <=? code) && (code <=? 299)); cbn; rewrite gets_app; cbn; lia.
  - destruct (attempt =? max_retries - 1); cbn; rewrite !gets_app; cbn; lia.
Qed.

(** The loop, one pass at a time. *)
Lemma for_attempt_cons (body : Z -> IO (Step Payload)) attempt later w :
  for_attempt (attempt :: later) body w =
    match body attempt w with
    | (Normal (Done value), w') => (Normal (Some value), w')
    | (Normal Next, w') => for_attempt later body w'
    | (Raise e, w') => (Raise e, w')
    end.
Proof.
  cbn [for_attempt]. unfold bind.
  destruct (body attempt w) as [[[value|]|e] w']; reflexivity.
Qed.



(** The requests counted in the world are the [Get]s of the log. *)
Lemma for_attempt_counts up max_retries (todo : list Z) w :
  gets (log w) = sent w ->
  let r := for_attempt todo (attempt_body up max_retries) w in
  gets (log (snd r)) = sent (snd r).
Proof.
  revert w. induction todo as [|attempt later IH]; intros w Hw; cbn zeta.
  - exact Hw.
  - rewrite for_attempt_cons.
    pose proof (attempt_body_sent up max_retries attempt w) as Hs.
    pose proof (attempt_body_gets up max_retries attempt w) as Hg.
    destruct (attempt_body up max_retries attempt w) as [[[value|]|e] w1];
      cbn [snd] in *; try lia.
    apply IH. lia.
Qed.

Lemma attempts_are_requests up max_retries :
  let r := espn_request_with_retry up max_retries start in
  attempts (snd r) = sent (snd r).
Proof.
  cbn zeta. unfold attempts.
  pose proof (for_attempt_counts up max_retries (range max_retries) start eq_refl) as H.
  cbn zeta in H. unfold espn_request_with_retry, bind.
  destruct (for_attempt (range max_retries) (attempt_body up max_retries) start)
    as [[[value|]|e] w1]; exact H.
Qed.


(** C2 (as amended). When the caller allows at least four attempts
    ([max_retries >= 4]) and the upstream answers 429 to the first three
    requests and 200 to the fourth, [espn_request_with_retry] returns the
    body of that fourth answer after exactly four requests, having slept
    1, 2 and 4 seconds between them, a strictly increasing sequence. *)
Theorem retry_succeeds_on_fourth_attempt up max_retries body :
  4 <= max_retries ->
  (forall k, (k < 3)%nat -> exists other, up k = Responded 429 other) ->
  up 3%nat = Responded 200 body ->
  let r := espn_request_with_retry up max_retries start in
  fst r = Normal body /\
  attempts (snd r) = 4%nat /\
  log (snd r) = [Get; Sleep 1; Get; Sleep 2; Get; Sleep 4; Get] /\
  delays (log (snd r)) = [1; 2; 4] /\
  strictly_increasing (delays (log (snd r))).
Proof.
  intros Hmax Hlimited Hok.
  destruct (range_at_least_4 max_retries Hmax) as [later E].
  destruct (Hlimited 0%nat) as [o0 H0]; [lia|].
  destruct (Hlimited 1%nat) as [o1 H1]; [lia|].
  destruct (Hlimited 2%nat) as [o2 H2]; [lia|].
  assert (R : espn_request_with_retry up max_retries start =
              (Normal body,
               mkWorld 4 [Get; Sleep 1; Get; Sleep 2; Get; Sleep 4; Get])).
  { unfold espn_request_with_retry, bind. rewrite E.
    rewrite for_attempt_cons, (attempt_body_429 _ _ _ _ o0) by exact H0.
    rewrite for_attempt_cons, (attempt_body_429 _ _ _ _ o1) by exact H1.
    rewrite for_attempt_cons, (attempt_body_429 _ _ _ _ o2) by exact H2.
    rewrite for_attempt_cons, (attempt_body_200 _ _ _ _ body) by exact Hok.
    reflexivity. }
  cbn zeta. rewrite R. cbn. repeat split; lia.
Qed.

End RemoteClientFacts.

(** The amended C2 at [max_retries = 4]. *)
Lemma retry_succeeds_on_fourth_attempt_witness :
  let r := RemoteClient.espn_request_with_retry
             (RemoteClient.limited_thrice "league" "slow down") 4 RemoteClient.start in
  fst r = RemoteClient.Normal "league" /\
  RemoteClient.attempts (snd r) = 4%nat /\
  RemoteClient.log (snd r) =
    [RemoteClient.Get; RemoteClient.Sleep 1; RemoteClient.Get; RemoteClient.Sleep 2;
     RemoteClient.Get; RemoteClient.Sleep 4; RemoteClient.Get] /\
  RemoteClient.delays (RemoteClient.log (snd r)) = [1; 2; 4]%Z /\
  RemoteClient.strictly_increasing (RemoteClient.delays (RemoteClient.log (snd r))).
Proof.
  apply (retry_succeeds_on_fourth_attempt
           (RemoteClient.limited_thrice "league" "slow down") 4 "league").
  - lia.
  - intros k Hk. exists "slow down". unfold RemoteClient.limited_thrice.
    destruct (Nat.ltb_spec k 3); [reflexivity | lia].
  - reflexivity.
Defined.

(** C2 as stated fails on the function as it is declared: with the default
    [max_retries = 3] the loop makes three requests, sleeps 1, 2 and 4
    seconds, and raises "Max retries exceeded"; the successful fourth
    answer is never asked for. *)
Lemma retry_default_gives_up_after_three :
  let up := RemoteClient.limited_thrice "league" "slow down" in
  let r := RemoteClient.espn_request_with_retry up RemoteClient.default_max_retries
             RemoteClient.start in
  (forall k, (k < 3)%nat -> up k = RemoteClient.Responded 429 "slow down") /\
  up 3%nat = RemoteClient.Responded 200 "league" /\
  fst r = RemoteClient.Raise (RemoteClient.Exception "Max retries exceeded") /\
  RemoteClient.attempts (snd r) = 3%nat /\
  RemoteClient.delays (RemoteClient.log (snd r)) = [1; 2; 4]%Z /\
  ~ (fst r = RemoteClient.Normal "league" /\ RemoteClient.attempts (snd r) = 4%nat).
Proof.
  cbn zeta. split.
  { intros k Hk. unfold RemoteClient.limited_thrice.
    destruct (Nat.ltb_spec k 3); [reflexivity | lia]. }
  split; [reflexivity|].
  split; [reflexivity|].
  split; [reflexivity|].
  split; [reflexivity|].
  intros [H _]. vm_compute in H. discriminate H.
Qed.

(* ===================================================================== *)
(** * Facts: the response interceptor, and Unauthorized                    *)
(* ===================================================================== *)

Section ApiFacts.

Import Api.
Local Open Scope Z_scope.

Lemma removeAuthToken_forgets (b : Browser) :
  getAuthToken (removeAuthToken b) = None /\
  common_headers (removeAuthToken b) !! "Authorization" = None.
Proof.
  unfold getAuthToken, removeAuthToken; cbn.
  split; apply lookup_delete_eq.
Qed.

Lemma setAuthToken_stores (token : string) (b : Browser) :
  getAuthToken (setAuthToken token b) = Some token.
Proof.
  unfold getAuthToken, setAuthToken; cbn. apply lookup_insert_eq.
Qed.

(** The rejected branch never resolves the call. *)
Lemma onRejected_rejects {A} (error : AxiosError) (b : Browser) :
  exists reason, fst (@onRejected A error b) = Rejected reason /\
                 api_status reason = option_map status (response error).
Proof.
  unfold onRejected. eexists. split; reflexivity.
Qed.

(** On a 401 the stored token and the default header are gone, the page is
    the login page, and the caller receives the rejection. *)
Lemma onRejected_401 {A} (error : AxiosError) (r : ErrorResponse) (b : Browser) :
  response error = Some r -> status r = 401 ->
  let out := @onRejected A error b in
  getAuthToken (snd out) = None /\
  common_headers (snd out) !! "Authorization" = None /\
  pathname (snd out) = "/login" /\
  exists reason, fst out = Rejected reason /\ api_status reason = Some 401.
Proof.
  intros Hr Hs. unfold onRejected. rewrite Hr, Hs. cbn [fst snd Z.eqb Pos.eqb].
  destruct (removeAuthToken_forgets b) as [Ht Hh].
  destruct (String.eqb_spec (pathname (removeAuthToken b)) "/login") as [E|E]; cbn [negb].
  - repeat split; try assumption. eexists; split; [reflexivity|]. cbn. now rewrite Hs.
  - repeat split; try assumption. eexists; split; [reflexivity|]. cbn. now rewrite Hs.
Qed.



End ApiFacts.





Example unauthorized_after_two_rate_limits :
  let up : nat -> RemoteClient.Reply string :=
    fun k => if (k <? 2)%nat then RemoteClient.Responded 429 "slow down"
             else RemoteClient.Responded 401 "Unauthorized" in
  RemoteClient.espn_request_with_retry up 5 RemoteClient.start =
    (RemoteClient.Raise (RemoteClient.HTTPStatusError 401),
     RemoteClient.mkWorld 3
       [RemoteClient.Get; RemoteClient.Sleep 1; RemoteClient.Get; RemoteClient.Sleep 2;
        RemoteClient.Get]).
Proof. reflexivity. Qed.

(* ===================================================================== *)
(** * Facts: utils                                                         *)
(* ===================================================================== *)

Section ColourFacts.

Import Utils.

Variable toUpperCase : string -> string.

Ltac by_cases_on_eqb :=
  repeat match goal with
         | |- context [String.eqb ?a ?b] =>
             destruct (String.eqb_spec a b)
         end.

Lemma getPositionColor_total (position : string) :
  In (getPositionColor toUpperCase position) position_classes.
Proof.
  unfold getPositionColor, position_classes. cbn zeta.
  by_cases_on_eqb; cbn; tauto.
Qed.

Lemma getPositionColor_unknown (position : string) :
  ~ In (toUpperCase position) position_codes ->
  getPositionColor toUpperCase position = position_default.
Proof.
  unfold getPositionColor, position_codes, position_default. cbn zeta. intros H.
  by_cases_on_eqb; cbn in *; try reflexivity; exfalso; apply H; auto 10.
Qed.

Lemma getInjuryStatusColor_total (status : option string) :
  In (getInjuryStatusColor toUpperCase status) injury_classes.
Proof.
  unfold getInjuryStatusColor, injury_classes. destruct status as [s|]; cbn zeta.
  - by_cases_on_eqb; cbn; tauto.
  - cbn; tauto.
Qed.

Lemma getInjuryStatusColor_unknown (status : string) :
  status <> "" -> status <> "ACTIVE" ->
  ~ In (toUpperCase status) injury_codes ->
  getInjuryStatusColor toUpperCase (Some status) = injury_default.
Proof.
  unfold getInjuryStatusColor, injury_codes, injury_default. cbn zeta. intros H1 H2 H.
  by_cases_on_eqb; cbn in *; try reflexivity; try contradiction;
    exfalso; apply H; auto 10.
Qed.

Lemma page_position_unknown (code : string) :
  ~ In code ["QB"; "RB"; "WR"; "TE"; "K"; "D/ST"] ->
  TeamRosterPage.getPositionColor code = "bg-gray-100 text-gray-800".
Proof.
  unfold TeamRosterPage.getPositionColor. intros H.
  by_cases_on_eqb; try reflexivity; exfalso; apply H; subst; cbn; auto 10.
Qed.

Lemma page_slot_unknown (code : string) :
  ~ In code ["BENCH"; "IR"] ->
  TeamRosterPage.getSlotColor code = "bg-green-100 text-green-700".
Proof.
  unfold TeamRosterPage.getSlotColor. intros H.
  by_cases_on_eqb; try reflexivity; exfalso; apply H; subst; cbn; auto 10.
Qed.

Lemma badge_type_unknown (code : string) :
  ~ In code ["ADD"; "DROP"; "TRADE"] ->
  TransactionBadge.getTypeColor code = "bg-gray-100 text-gray-800".
Proof.
  unfold TransactionBadge.getTypeColor. intros H.
  by_cases_on_eqb; try reflexivity; exfalso; apply H; subst; cbn; auto 10.
Qed.

Lemma badge_status_unknown (code : string) :
  ~ In code ["SUCCESSFUL"; "FAILED"; "PENDING"] ->
  TransactionBadge.getStatusColor code = "bg-gray-100 text-gray-800".
Proof.
  unfold TransactionBadge.getStatusColor. intros H.
  by_cases_on_eqb; try reflexivity; exfalso; apply H; subst; cbn; auto 10.
Qed.

(** C6. The mappings from a position, slot, type or status code to a
    colour are total functions without effects, and each of them gives its
    own default to every code that it does not recognise itself, whatever
    the other mappings make of that code. For any [toUpperCase]:
    [getPositionColor] gives its grey default to a code whose upper-case
    form is none of its seven labels; [getInjuryStatusColor] gives its
    grey default to a status that is neither empty nor ACTIVE and whose
    upper-case form is none of its four labels; and each page-local
    mapping gives its default to a code that is none of its own [case]
    labels. For every input whatever, the result is one of the colour
    classes of the mapping. *)
Theorem unknown_code_maps_to_default
    (code any : string) (anyStatus : option string) :
  (~ In (toUpperCase code) position_codes ->
   getPositionColor toUpperCase code = position_default) /\
  (~ In code [""; "ACTIVE"] -> ~ In (toUpperCase code) injury_codes ->
   getInjuryStatusColor toUpperCase (Some code) = injury_default) /\
  (~ In code ["QB"; "RB"; "WR"; "TE"; "K"; "D/ST"] ->
   TeamRosterPage.getPositionColor code = "bg-gray-100 text-gray-800") /\
  (~ In code ["BENCH"; "IR"] ->
   TeamRosterPage.getSlotColor code = "bg-green-100 text-green-700") /\
  (~ In code ["ADD"; "DROP"; "TRADE"] ->
   TransactionBadge.getTypeColor code = "bg-gray-100 text-gray-800") /\
  (~ In code ["SUCCESSFUL"; "FAILED"; "PENDING"] ->
   TransactionBadge.getStatusColor code = "bg-gray-100 text-gray-800") /\
  (In (getPositionColor toUpperCase any) position_classes /\
   In (getInjuryStatusColor toUpperCase anyStatus) injury_classes).
Proof.
  split; [apply getPositionColor_unknown|].
  split.
  { intros Ha Hi. apply getInjuryStatusColor_unknown; [| |exact Hi];
      intros ->; apply Ha; cbn; auto. }
  split; [apply page_position_unknown|].
  split; [apply page_slot_unknown|].
  split; [apply badge_type_unknown|].
  split; [apply badge_status_unknown|].
  split; [apply getPositionColor_total | apply getInjuryStatusColor_total].
Qed.

End ColourFacts.

(** C6 on codes that one mapping knows and another does not: the code 999
    is unknown to all of them, IR is a slot and an injury status but no
    position, QB is a position but no slot, and PENDING is a status but no
    transaction type. *)
Lemma unknown_code_maps_to_default_witness :
  (Utils.getPositionColor Utils.ascii_toUpperCase "999" = Utils.position_default /\
   Utils.getInjuryStatusColor Utils.ascii_toUpperCase (Some "999") = Utils.injury_default) /\
  (Utils.getPositionColor Utils.ascii_toUpperCase "ir" = Utils.position_default /\
   TeamRosterPage.getPositionColor "IR" = "bg-gray-100 text-gray-800") /\
  TeamRosterPage.getSlotColor "QB" = "bg-green-100 text-green-700" /\
  TransactionBadge.getTypeColor "PENDING" = "bg-gray-100 text-gray-800" /\
  TransactionBadge.getStatusColor "ADD" = "bg-gray-100 text-gray-800".
Proof.
  pose proof (unknown_code_maps_to_default Utils.ascii_toUpperCase "999" "d/st"
                (Some "Suspended")) as (H1 & H2 & _).
  pose proof (unknown_code_maps_to_default Utils.ascii_toUpperCase "ir" "d/st" None)
    as (H3 & _).
  pose proof (unknown_code_maps_to_default Utils.ascii_toUpperCase "IR" "d/st" None)
    as (_ & _ & H4 & _).
  pose proof (unknown_code_maps_to_default Utils.ascii_toUpperCase "QB" "d/st" None)
    as (_ & _ & _ & H5 & _).
  pose proof (unknown_code_maps_to_default Utils.ascii_toUpperCase "PENDING" "d/st" None)
    as (_ & _ & _ & _ & H6 & _).
  pose proof (unknown_code_maps_to_default Utils.ascii_toUpperCase "ADD" "d/st" None)
    as (_ & _ & _ & _ & _ & H7 & _).
  split; [split; [apply H1 | apply H2]|];
    [vm_compute; intuition discriminate .. |].
  split; [split; [apply H3 | apply H4]|];
    [vm_compute; intuition discriminate .. |].
  split; [apply H5; vm_compute; intuition discriminate|].
  split; [apply H6 | apply H7]; vm_compute; intuition discriminate.
Defined.

Example getPositionColor_lower_case :
  Utils.getPositionColor Utils.ascii_toUpperCase "qb" = "text-red-600 bg-red-100".
Proof. reflexivity. Qed.

Example getInjuryStatusColor_out :
  Utils.getInjuryStatusColor Utils.ascii_toUpperCase (Some "Out") = "text-red-600".
Proof. reflexivity. Qed.


Section WinPercentageFacts.

Import Utils Records.





Lemma onEveryRecord_spec (test : float -> float -> float -> bool) (cs : list float) :
  onEveryRecord test cs = true ->
  forall wins losses ties, In wins cs -> In losses cs -> In ties cs ->
                           test wins losses ties = true.
Proof.
  unfold onEveryRecord. intros H wins losses ties Hw Hl Ht.
  rewrite forallb_forall in H. specialize (H wins Hw).
  rewrite forallb_forall in H. specialize (H losses Hl).
  rewrite forallb_forall in H. exact (H ties Ht).
Qed.

Lemma ofNat_counts (n k : nat) : (k <= n)%nat -> In (ofNat k) (counts n).
Proof.
  intros H. unfold counts. apply in_map. apply in_seq. lia.
Qed.

(** Every record of at most 100 wins, 100 losses and 100 ties, by
    evaluation. *)
Lemma records_guardedAndBounded : onEveryRecord guardedAndBounded (counts 100) = true.
Proof. vm_compute. reflexivity. Qed.

Lemma counts_not_zero :
  forallb (fun k => match k with
                    | O => true
                    | S _ => negb (ofNat k =? 0)%float
                    end) (seq 0 101) = true.
Proof. vm_compute. reflexivity. Qed.

Lemma ofNat_not_zero (k : nat) :
  (k <= 100)%nat -> k <> 0%nat -> (ofNat k =? 0)%float = false.
Proof.
  intros Hk Hne. pose proof counts_not_zero as H. rewrite forallb_forall in H.
  specialize (H k). destruct k as [|k]; [contradiction|].
  apply negb_true_iff. apply H. apply in_seq. lia.
Qed.

(** Once a game has been played, the total is not 0. *)
Lemma record_played (wins losses ties : nat) :
  (wins <= 100)%nat -> (losses <= 100)%nat -> (ties <= 100)%nat ->
  (wins + losses + ties <> 0)%nat ->
  played (ofNat wins) (ofNat losses) (ofNat ties) = true.
Proof.
  intros Hw Hl Ht Hne.
  pose proof (onEveryRecord_spec _ _ records_guardedAndBounded
                (ofNat wins) (ofNat losses) (ofNat ties)
                (ofNat_counts _ _ Hw) (ofNat_counts _ _ Hl) (ofNat_counts _ _ Ht)) as H.
  unfold guardedAndBounded in H.
  apply andb_true_iff in H as [_ H]. apply orb_true_iff in H as [H|H]; [|exact H].
  exfalso. apply andb_true_iff in H as [H H3]. apply andb_true_iff in H as [H1 H2].
  destruct wins as [|w].
  - destruct losses as [|l].
    + destruct ties as [|t]; [lia|].
      rewrite ofNat_not_zero in H3 by lia. discriminate.
    + rewrite ofNat_not_zero in H2 by lia. discriminate.
  - rewrite ofNat_not_zero in H1 by lia. discriminate.
Qed.


End WinPercentageFacts.



(** 7-5-1 stands at 57.692307692307686, which is 8119470482038153 * 2^-47. *)
Example getWinPercentage_7_5_1 :
  Prim2SF (Utils.getWinPercentage 7 5 1) = S754_finite false 8119470482038153 (-47).
Proof. reflexivity. Qed.

Example getWinPercentage_no_games_played : Utils.getWinPercentage 0 0 0 = 0%float.
Proof. reflexivity. Qed.

Section LeagueIdFacts.

Import Utils.
Local Open Scope N_scope.

Lemma decimal_digit_not_space (c : N) :
  isDecimalDigit c = true -> isStrWhiteSpaceChar c = false.
Proof.
  unfold isDecimalDigit, isStrWhiteSpaceChar. intros H.
  apply andb_true_iff in H as [H1 H2].
  apply N.leb_le in H1, H2.
  repeat (apply orb_false_iff; split);
    try (apply N.eqb_neq; lia);
    apply andb_false_iff; left; apply N.leb_gt; lia.
Qed.

Lemma decimal_digit_not_sign (c : N) :
  isDecimalDigit c = true -> (c =? 0x2B) || (c =? 0x2D) = false.
Proof.
  unfold isDecimalDigit. intros H.
  apply andb_true_iff in H as [H1 H2]. apply N.leb_le in H1, H2.
  apply orb_false_iff; split; apply N.eqb_neq; lia.
Qed.

Lemma decimal_digit_not_x (c : N) :
  isDecimalDigit c = true -> (c =? 0x78) || (c =? 0x58) = false.
Proof.
  unfold isDecimalDigit. intros H.
  apply andb_true_iff in H as [H1 H2]. apply N.leb_le in H1, H2.
  apply orb_false_iff; split; apply N.eqb_neq; lia.
Qed.

Lemma radixDigit_decimal (c : N) :
  isDecimalDigit c = true -> radixDigit 10 c = Some (c - 0x30).
Proof.
  unfold isDecimalDigit, radixDigit, digitValue. intros H. rewrite H.
  apply andb_true_iff in H as [H1 H2]. apply N.leb_le in H1, H2.
  destruct (N.ltb_spec (c - 0x30) 10); [reflexivity | lia].
Qed.

Lemma radixDigit_not_decimal (c : N) :
  isDecimalDigit c = false -> radixDigit 10 c = None.
Proof.
  unfold isDecimalDigit, radixDigit, digitValue. intros H. rewrite H.
  destruct ((0x61 <=? c) && (c <=? 0x66)) eqn:E1.
  - apply andb_true_iff in E1 as [H1 H2]. apply N.leb_le in H1, H2.
    destruct (N.ltb_spec (c - 0x61 + 10) 10); [lia | reflexivity].
  - destruct ((0x41 <=? c) && (c <=? 0x46)) eqn:E2; [|reflexivity].
    apply andb_true_iff in E2 as [H1 H2]. apply N.leb_le in H1, H2.
    destruct (N.ltb_spec (c - 0x41 + 10) 10); [lia | reflexivity].
Qed.

(** Reading stops at the first character that is not a digit. *)
Lemma readDigits_stops (rest : JSString) (seen : bool) (acc : N) :
  startsWithDigit rest = false ->
  readDigits 10 rest seen acc = if seen then Some acc else None.
Proof.
  destruct rest as [|c rest]; cbn; [reflexivity|].
  intros H. rewrite (radixDigit_not_decimal c H). reflexivity.
Qed.

Lemma readDigits_decimal (ds rest : JSString) (seen : bool) (acc : N) :
  forallb isDecimalDigit ds = true -> ds <> [] ->
  startsWithDigit rest = false ->
  readDigits 10 (ds ++ rest) seen acc =
    Some (fold_left (fun a c => a * 10 + (c - 0x30)) ds acc).
Proof.
  revert seen acc. induction ds as [|d ds IH]; intros seen acc Hds Hne Hrest.
  - contradiction.
  - cbn in Hds. apply andb_true_iff in Hds as [Hd Hds].
    cbn [app readDigits fold_left]. rewrite (radixDigit_decimal d Hd).
    destruct ds as [|d' ds'].
    + cbn [app fold_left]. rewrite readDigits_stops by exact Hrest. reflexivity.
    + apply IH; [exact Hds | discriminate | exact Hrest].
Qed.

Lemma trimStart_digit (d : N) (s : JSString) :
  isDecimalDigit d = true -> trimStart (d :: s) = d :: s.
Proof.
  intros Hd. cbn. now rewrite (decimal_digit_not_space d Hd).
Qed.

Lemma radixAndBody_no_digit (s : JSString) :
  startsWithDigit s = false -> radixAndBody s = (10, s).
Proof.
  destruct s as [|c0 [|c1 tail]]; try reflexivity.
  cbn. intros H. destruct (N.eqb_spec c0 0x30) as [->|]; [discriminate H | reflexivity].
Qed.

(** A run of digits that denotes a positive number, followed by anything
    that is not a digit, parses to that number. *)
Lemma parseInt_digits_then_garbage (ds rest : JSString) :
  ds <> [] -> forallb isDecimalDigit ds = true -> 0 < decimalValue ds ->
  startsWithDigit rest = false ->
  parseInt (ds ++ rest) = Some (Z.of_N (decimalValue ds)).
Proof.
  intros Hne Hds Hpos Hrest.
  destruct ds as [|d ds]; [contradiction|].
  pose proof Hds as Hall.
  cbn in Hds. apply andb_true_iff in Hds as [Hd Hds].
  pose proof (decimal_digit_not_sign d Hd) as Hnosign.
  unfold parseInt. cbn [app]. rewrite (trimStart_digit d _ Hd).
  unfold signOf, dropSign. rewrite Hnosign.
  apply orb_false_iff in Hnosign as [_ ->].
  assert (Hprefix : radixAndBody (d :: ds ++ rest) = (10, d :: ds ++ rest)).
  { unfold radixAndBody. destruct ds as [|d' ds'].
    - destruct rest as [|c1 tail]; [reflexivity|]. cbn [app].
      destruct (N.eqb_spec d 0x30) as [->|]; [|reflexivity].
      exfalso. vm_compute in Hpos. discriminate.
    - cbn [app]. cbn in Hds. apply andb_true_iff in Hds as [Hd' _].
      rewrite (decimal_digit_not_x d' Hd'), andb_false_r. reflexivity. }
  rewrite Hprefix.
  change (d :: ds ++ rest) with ((d :: ds) ++ rest).
  rewrite readDigits_decimal by (assumption || discriminate).
  unfold decimalValue. f_equal. lia.
Qed.

(** A minus sign where the number starts never gives a positive number. *)
Lemma parseInt_minus_not_positive (s : JSString) :
  signOf (trimStart s) = (-1)%Z -> gt0 (parseInt s) = false.
Proof.
  intros H. unfold parseInt. rewrite H.
  destruct (radixAndBody (dropSign (trimStart s))) as [R body].
  destruct (readDigits R body false 0) as [m|]; [|reflexivity].
  cbn [gt0]. apply Z.ltb_ge. lia.
Qed.

(** No digit where the number should start: NaN. *)
Lemma parseInt_no_digits (s : JSString) :
  startsWithDigit (afterSign s) = false -> parseInt s = None.
Proof.
  unfold afterSign, parseInt. intros H.
  rewrite (radixAndBody_no_digit _ H), readDigits_stops by exact H.
  reflexivity.
Qed.

Lemma isValidESPNLeagueId_iff (s : JSString) :
  isValidESPNLeagueId s = true <-> exists n, parseInt s = Some n /\ (0 < n)%Z.
Proof.
  unfold isValidESPNLeagueId. cbn zeta.
  destruct (parseInt s) as [n|]; cbn.
  - rewrite Z.ltb_lt. split; [eauto|]. intros (m & [= <-] & H). exact H.
  - split; [discriminate|]. intros (m & [=] & _).
Qed.

(** C10. [isValidESPNLeagueId] is true exactly when [parseInt] of the
    string is a number greater than 0. So it accepts a run of decimal
    digits denoting a positive integer whatever follows it, "123abc" among
    them; and it rejects "0", every string whose number starts with a
    minus sign, and every string in which no digit stands where the number
    should start, that is right after the white space and the one sign
    that [parseInt] skips. *)
Theorem isValidESPNLeagueId_spec (s ds rest negative garbage : JSString) :
  ds <> [] -> forallb isDecimalDigit ds = true -> 0 < decimalValue ds ->
  startsWithDigit rest = false ->
  signOf (trimStart negative) = (-1)%Z ->
  startsWithDigit (afterSign garbage) = false ->
  (isValidESPNLeagueId s = true <-> exists n, parseInt s = Some n /\ (0 < n)%Z) /\
  isValidESPNLeagueId (ds ++ rest) = true /\
  isValidESPNLeagueId (units "123abc") = true /\
  isValidESPNLeagueId (units "0") = false /\
  isValidESPNLeagueId negative = false /\
  isValidESPNLeagueId garbage = false.
Proof.
  intros Hne Hds Hpos Hrest Hneg Hgarbage.
  split; [apply isValidESPNLeagueId_iff|].
  split.
  { apply isValidESPNLeagueId_iff. eexists. split.
    - apply parseInt_digits_then_garbage; assumption.
    - lia. }
  split; [reflexivity|].
  split; [reflexivity|].
  split.
  - unfold isValidESPNLeagueId. cbn zeta.
    rewrite (parseInt_minus_not_positive negative Hneg). apply andb_false_r.
  - unfold isValidESPNLeagueId. cbn zeta.
    rewrite (parseInt_no_digits garbage Hgarbage). reflexivity.
Qed.

End LeagueIdFacts.

(** C10 on "42 is my league", " -17" and "league 42". *)
Lemma isValidESPNLeagueId_spec_witness :
  (Utils.isValidESPNLeagueId (Utils.units " +0x1F") = true <->
   exists n, Utils.parseInt (Utils.units " +0x1F") = Some n /\ (0 < n)%Z) /\
  Utils.isValidESPNLeagueId (Utils.units "42" ++ Utils.units " is my league") = true /\
  Utils.isValidESPNLeagueId (Utils.units "123abc") = true /\
  Utils.isValidESPNLeagueId (Utils.units "0") = false /\
  Utils.isValidESPNLeagueId (Utils.units " -17") = false /\
  Utils.isValidESPNLeagueId (Utils.units "league 42") = false.
Proof.
  apply (isValidESPNLeagueId_spec
           (Utils.units " +0x1F") (Utils.units "42") (Utils.units " is my league")
           (Utils.units " -17") (Utils.units "league 42")).
  - discriminate.
  - reflexivity.
  - reflexivity.
  - reflexivity.
  - reflexivity.
  - reflexivity.
Defined.

Example parseInt_hex : Utils.parseInt (Utils.units "0x1F") = Some 31%Z.
Proof. reflexivity. Qed.

Example parseInt_blank_then_sign : Utils.parseInt (Utils.units "  +42") = Some 42%Z.
Proof. reflexivity. Qed.

Example parseInt_leading_zeros : Utils.parseInt (Utils.units "007x") = Some 7%Z.
Proof. reflexivity. Qed.

Example parseInt_bare_prefix : Utils.parseInt (Utils.units "0x") = None.
Proof. reflexivity. Qed.

Example parseInt_empty : Utils.parseInt (Utils.units "") = None.
Proof. reflexivity. Qed.


(* ===================================================================== *)
(** * Facts: MatchupCard                                                   *)
(* ===================================================================== *)

Section MatchupCardFacts.

Import MatchupCard.

Variable trim : string -> string.

Lemma Winner_eqb_eq (a b : Winner) : Winner_eqb a b = true <-> a = b.
Proof. destruct a, b; cbn; split; congruence. Qed.

Lemma getWinnerStyle_empty_iff (m : Matchup) (userTeamId : option Z) (isHome : bool) :
  getWinnerStyle m userTeamId isHome = "" <-> winner m = UNDECIDED.
Proof.
  unfold getWinnerStyle. cbn zeta.
  destruct (winner m), isHome; cbn;
    repeat match goal with
           | |- context [match ?u with Some _ => _ | None => _ end] => destruct u
           | |- context [if ?c then _ else _] => destruct c
           end; split; congruence.
Qed.

Lemma resultSummary_rendered_iff (m : Matchup) :
  resultSummary trim m <> None <-> winner m <> UNDECIDED.
Proof.
  unfold resultSummary. destruct (winner m); cbn; split; congruence.
Qed.

(** C8. The winner of a matchup is one of HOME, AWAY, TIE and UNDECIDED.
    While it is UNDECIDED nothing is derived from it: [getWinnerStyle] is
    the empty style for the home and for the away side (and only then),
    neither side is highlighted as the winner, and the result summary is
    rendered if and only if the winner is not UNDECIDED, reading
    "Tied Game" for a tie and "<name> Wins" for the side that won. *)
Theorem undecided_shows_no_winner (m : Matchup) (userTeamId : option Z) :
  (winner m = HOME \/ winner m = AWAY \/ winner m = TIE \/ winner m = UNDECIDED) /\
  (forall isHome, getWinnerStyle m userTeamId isHome = "" <-> winner m = UNDECIDED) /\
  (winner m = UNDECIDED <->
   getWinnerStyle m userTeamId true = "" /\ getWinnerStyle m userTeamId false = "") /\
  (winner m = UNDECIDED ->
   winnerHighlight m true = false /\ winnerHighlight m false = false) /\
  (resultSummary trim m <> None <-> winner m <> UNDECIDED) /\
  (resultSummary trim m =
     match winner m with
     | HOME => Some (homeTeamName trim m +:+ " Wins")
     | AWAY => Some (awayTeamName trim m +:+ " Wins")
     | TIE => Some "Tied Game"
     | UNDECIDED => None
     end).
Proof.
  split; [destruct (winner m); tauto|].
  split; [intros isHome; apply getWinnerStyle_empty_iff|].
  split.
  { rewrite !getWinnerStyle_empty_iff. tauto. }
  split.
  { intros H. unfold winnerHighlight. rewrite H. split; reflexivity. }
  split; [apply resultSummary_rendered_iff|].
  unfold resultSummary. destruct (winner m); reflexivity.
Qed.

End MatchupCardFacts.

Example undecided_card :
  let m := MatchupCard.mkMatchup 1 2 (Some "Aces") None None None (Some "Deep") (Some "Threat")
             MatchupCard.UNDECIDED in
  MatchupCard.getWinnerStyle m (Some 1%Z) true = "" /\
  MatchupCard.getWinnerStyle m (Some 1%Z) false = "" /\
  MatchupCard.resultSummary (fun s => s) m = None.
Proof. repeat split. Qed.

Example home_win_card :
  let m := MatchupCard.mkMatchup 1 2 (Some "Aces") None None None (Some "Deep") (Some "Threat")
             MatchupCard.HOME in
  MatchupCard.getWinnerStyle m (Some 1%Z) true = "bg-green-50 border-green-200" /\
  MatchupCard.getWinnerStyle m (Some 1%Z) false = "bg-gray-50 border-gray-200 opacity-75" /\
  MatchupCard.resultSummary (fun s => s) m = Some "Aces Wins".
Proof. repeat split. Qed.

(* ===================================================================== *)
(** * Facts: the waiver ledger and its display                             *)
(* ===================================================================== *)

Section WaiverFacts.

Import WaiverBudgets WaiverLedger.
Local Open Scope Z_scope.

Lemma pending_does_not_count (t : WaiverTransaction) :
  isPending t = true -> counts t = false.
Proof.
  unfold isPending, counts. destruct (transaction_type t), (status t);
    intros H; try discriminate H; reflexivity.
Qed.

(** Taking the pending transactions out of a history changes nothing. *)
Lemma spentOf_resolved (h : list WaiverTransaction) :
  spentOf (resolved h) = spentOf h.
Proof.
  induction h as [|t h IH]; [reflexivity|].
  cbn [resolved spentOf]. destruct (isPending t) eqn:E.
  - rewrite (pending_does_not_count t E), IH. lia.
  - cbn [spentOf]. rewrite IH. reflexivity.
Qed.

Lemma spentOf_app (h1 h2 : list WaiverTransaction) :
  spentOf (h1 ++ h2) = spentOf h1 + spentOf h2.
Proof.
  induction h1 as [|t h1 IH]; cbn [app spentOf]; [reflexivity|].
  rewrite IH. lia.
Qed.

(** A pending bid anywhere in the history leaves [spent] as it was. *)
Lemma spentOf_pending_anywhere (h1 h2 : list WaiverTransaction) (p : WaiverTransaction) :
  isPending p = true -> spentOf (h1 ++ p :: h2) = spentOf (h1 ++ h2).
Proof.
  intros H. rewrite !spentOf_app. cbn [spentOf].
  rewrite (pending_does_not_count p H). lia.
Qed.

Lemma find_team_served (leagueTotal : Z) (teams : list TeamLedger) (teamId : Z)
    (b : TeamBudgetSummary) :
  find_team (getWaiverBudgets leagueTotal teams) teamId = Some b ->
  exists t, In t teams /\ b = summary leagueTotal t.
Proof.
  induction teams as [|t teams IH]; cbn; [discriminate|].
  destruct (ledger_team_id t =? teamId).
  - intros [= <-]. eauto.
  - intros H. destruct (IH H) as (t' & Hin & E). eauto.
Qed.

(** C1. In every budget the ledger derives, spent + remaining = total, and
    the records it serves carry remaining as [current_budget], spent as
    [spent_budget] and total as [total_budget]; a PENDING transaction
    never contributes to spent, wherever it stands in the history; and so
    the [budgetInfo] of [useTeamBudget] and the amounts of
    [WaiverBudgetCard] satisfy remaining = total - spent on every budget
    record that is served, the hook and the card handing on the three
    amounts of a record as they are. *)
Theorem ledger_identity_reaches_display
    (leagueTotal : Z) (history before after : list WaiverTransaction)
    (p : WaiverTransaction) (teams : list TeamLedger) (team : TeamLedger)
    (teamId : Z) (info : BudgetInfo) (budget : TeamBudgetSummary) :
  isPending p = true ->
  budgetInfo (useTeamBudget (Some (getWaiverBudgets leagueTotal teams)) teamId) = Some info ->
  (let b := currentBudget leagueTotal history in
   WaiverLedger.spent b + WaiverLedger.remaining b = WaiverLedger.total b) /\
  (let s := summary leagueTotal team in
   spent_budget s + current_budget s = total_budget s /\
   current_budget s = WaiverLedger.remaining (currentBudget leagueTotal (WaiverLedger.history team)) /\
   spent_budget s = WaiverLedger.spent (currentBudget leagueTotal (WaiverLedger.history team)) /\
   total_budget s = WaiverLedger.total (currentBudget leagueTotal (WaiverLedger.history team))) /\
  (spentOf (before ++ p :: after) = spentOf (before ++ after) /\
   spentOf (resolved history) = spentOf history) /\
  (WaiverBudgets.remaining info = WaiverBudgets.total info - WaiverBudgets.spent info) /\
  (let card := WaiverBudgetCard (summary leagueTotal team) in
   shown_remaining card = shown_total card - shown_spent card) /\
  (let card := WaiverBudgetCard budget in
   shown_remaining card = current_budget budget /\
   shown_spent card = spent_budget budget /\
   shown_total card = total_budget budget /\
   budgetInfo (useTeamBudget (Some [budget]) (team_id budget)) =
     Some (mkBudgetInfo (current_budget budget) (spent_budget budget) (total_budget budget))).
Proof.
  intros Hp Hinfo.
  split; [cbn; lia|].
  split; [cbn; repeat split; lia|].
  split; [split; [apply spentOf_pending_anywhere; exact Hp | apply spentOf_resolved]|].
  split; [|split; [cbn; lia|]].
  2:{ cbn. rewrite Z.eqb_refl. repeat split. }
  unfold useTeamBudget in Hinfo. cbn in Hinfo.
  destruct (find_team (getWaiverBudgets leagueTotal teams) teamId) as [b|] eqn:E;
    [|discriminate].
  destruct (find_team_served _ _ _ _ E) as (t & _ & ->).
  injection Hinfo as <-. cbn. lia.
Qed.

End WaiverFacts.

(** C1 on a league whose budget is 100: team 1 paid 23 for one player and
    has one bid lost, one pending and one drop. *)
Lemma ledger_identity_reaches_display_witness :
  let leagueTotal := 100%Z in
  let history := Samples.bids in
  let before := firstn 2 Samples.bids in
  let after := skipn 2 Samples.bids in
  let p := Samples.pendingBid in
  let team := WaiverLedger.mkTeamLedger 1 "Aces" Samples.bids in
  let info := WaiverBudgets.mkBudgetInfo 77 23 100 in
  (let b := WaiverLedger.currentBudget leagueTotal history in
   WaiverLedger.spent b + WaiverLedger.remaining b = WaiverLedger.total b)%Z /\
  (let s := WaiverLedger.summary leagueTotal team in
   (WaiverBudgets.spent_budget s + WaiverBudgets.current_budget s
    = WaiverBudgets.total_budget s)%Z /\
   WaiverBudgets.current_budget s =
     WaiverLedger.remaining (WaiverLedger.currentBudget leagueTotal (WaiverLedger.history team)) /\
   WaiverBudgets.spent_budget s =
     WaiverLedger.spent (WaiverLedger.currentBudget leagueTotal (WaiverLedger.history team)) /\
   WaiverBudgets.total_budget s =
     WaiverLedger.total (WaiverLedger.currentBudget leagueTotal (WaiverLedger.history team))) /\
  (WaiverLedger.spentOf (before ++ p :: after) = WaiverLedger.spentOf (before ++ after) /\
   WaiverLedger.spentOf (WaiverLedger.resolved history) = WaiverLedger.spentOf history) /\
  (WaiverBudgets.remaining info = WaiverBudgets.total info - WaiverBudgets.spent info)%Z /\
  (let card := WaiverBudgets.WaiverBudgetCard (WaiverLedger.summary leagueTotal team) in
   WaiverBudgets.shown_remaining card
   = WaiverBudgets.shown_total card - WaiverBudgets.shown_spent card)%Z /\
  (let budget := WaiverLedger.summary leagueTotal team in
   let card := WaiverBudgets.WaiverBudgetCard budget in
   WaiverBudgets.shown_remaining card = WaiverBudgets.current_budget budget /\
   WaiverBudgets.shown_spent card = WaiverBudgets.spent_budget budget /\
   WaiverBudgets.shown_total card = WaiverBudgets.total_budget budget /\
   WaiverBudgets.budgetInfo
     (WaiverBudgets.useTeamBudget (Some [budget]) (WaiverBudgets.team_id budget)) =
     Some (WaiverBudgets.mkBudgetInfo (WaiverBudgets.current_budget budget)
             (WaiverBudgets.spent_budget budget) (WaiverBudgets.total_budget budget))).
Proof.
  apply (ledger_identity_reaches_display 100 Samples.bids (firstn 2 Samples.bids)
           (skipn 2 Samples.bids) Samples.pendingBid Samples.league
           (WaiverLedger.mkTeamLedger 1 "Aces" Samples.bids) 1
           (WaiverBudgets.mkBudgetInfo 77 23 100)
           (WaiverLedger.summary 100 (WaiverLedger.mkTeamLedger 1 "Aces" Samples.bids))).
  - reflexivity.
  - reflexivity.
Defined.

Example pending_bid_leaves_budget :
  WaiverLedger.currentBudget 100 (Samples.pendingBid :: Samples.bids)
  = WaiverLedger.mkBudget 100 23 77.
Proof. reflexivity. Qed.

(* ===================================================================== *)
(** * Facts: the trade evaluator                                           *)
(* ===================================================================== *)

Section TradeFacts.

Import Trades.

Variable value : Z -> Q.
Variable roster : Z -> list Z.
Variable penaltyFactor : Q.
Variable epsilon : Q.

Lemma member_In (p : Z) (players : list Z) : member p players = true <-> In p players.
Proof.
  unfold member. rewrite existsb_exists. split.
  - intros (q & Hin & E). apply Z.eqb_eq in E. now subst.
  - intros H. exists p. split; [exact H | apply Z.eqb_refl].
Qed.

Lemma disjoint_spec (a b : list Z) :
  disjoint a b = true <-> forall p, In p a -> ~ In p b.
Proof.
  unfold disjoint. rewrite forallb_forall. split.
  - intros H p Ha Hb. specialize (H p Ha).
    apply member_In in Hb. rewrite Hb in H. discriminate.
  - intros H p Ha. destruct (member p b) eqn:E; [|reflexivity].
    apply member_In in E. exfalso. exact (H p Ha E).
Qed.

Lemma disjoint_sym (a b : list Z) : disjoint a b = disjoint b a.
Proof.
  apply eq_true_iff_eq. rewrite !disjoint_spec.
  split; intros H p Ha Hb; exact (H p Hb Ha).
Qed.

Lemma onRoster_spec (team : Z) (players : list Z) :
  onRoster roster team players = true <-> forall p, In p players -> In p (roster team).
Proof.
  unfold onRoster. rewrite forallb_forall. split.
  - intros H p Hp. apply member_In. exact (H p Hp).
  - intros H p Hp. apply member_In. exact (H p Hp).
Qed.

(** Validity does not depend on the side from which the trade is seen. *)
Lemma isValid_swapSides (r : TradeAnalysisRequest) :
  isValid roster (swapSides r) = isValid roster r.
Proof.
  unfold isValid, swapSides.
  cbn [give_players receive_players proposing_team_id receiving_team_id].
  rewrite (disjoint_sym (receive_players r) (give_players r)).
  destruct (nonEmpty (give_players r)), (nonEmpty (receive_players r)),
    (disjoint (give_players r) (receive_players r)),
    (onRoster roster (proposing_team_id r) (give_players r)),
    (onRoster roster (receiving_team_id r) (receive_players r)); reflexivity.
Qed.

Local Open Scope Q_scope.

Lemma valueDifference_swapSides (r : TradeAnalysisRequest) :
  valueDifference value (swapSides r) == - valueDifference value r.
Proof.
  unfold valueDifference, swapSides. cbn. ring.
Qed.

Lemma fairnessScore_swapSides (r : TradeAnalysisRequest) :
  fairnessScore value penaltyFactor epsilon (swapSides r) ==
  fairnessScore value penaltyFactor epsilon r.
Proof.
  unfold fairnessScore, clamp. cbn zeta.
  rewrite valueDifference_swapSides, Qabs_opp.
  unfold swapSides; cbn [give_players receive_players].
  rewrite (Q.max_comm (totalValue value (receive_players r))
                      (totalValue value (give_players r))).
  reflexivity.
Qed.

(** With a positive epsilon the penalty never divides by zero. *)
Lemma denominator_positive (r : TradeAnalysisRequest) :
  0 < epsilon ->
  0 < Qmax (Qmax (totalValue value (give_players r))
                 (totalValue value (receive_players r))) epsilon.
Proof.
  intros H. eapply Qlt_le_trans; [exact H | apply Q.le_max_r].
Qed.

Lemma fairnessScore_even (r : TradeAnalysisRequest) :
  totalValue value (give_players r) == totalValue value (receive_players r) ->
  fairnessScore value penaltyFactor epsilon r == 100 /\
  valueDifference value r == 0.
Proof.
  intros H.
  assert (Hvd : valueDifference value r == 0).
  { unfold valueDifference. rewrite H. ring. }
  split; [|exact Hvd].
  unfold fairnessScore, clamp. cbn zeta. rewrite Hvd.
  change (Qabs 0) with 0.
  assert (E : 100 - penaltyFactor *
                (0 / Qmax (Qmax (totalValue value (give_players r))
                                (totalValue value (receive_players r))) epsilon)
              == 100).
  { unfold Qdiv. ring. }
  rewrite E. reflexivity.
Qed.

Local Close Scope Q_scope.

Lemma nonEmpty_false (players : list Z) : nonEmpty players = false <-> players = [].
Proof. destruct players; cbn; split; congruence. Qed.

Lemma invalid_isValid (r : TradeAnalysisRequest) :
  invalid roster r -> isValid roster r = false.
Proof.
  unfold invalid, isValid. intros [H|[H|[(p & Hg & Hr)|[(p & Hg & Hn)|(p & Hr & Hn)]]]].
  - rewrite H. reflexivity.
  - rewrite H. cbn. now rewrite andb_false_r.
  - assert (E : disjoint (give_players r) (receive_players r) = false).
    { destruct (disjoint (give_players r) (receive_players r)) eqn:E; [|reflexivity].
      exfalso. exact (proj1 (disjoint_spec _ _) E p Hg Hr). }
    rewrite E. now rewrite andb_false_r.
  - assert (E : onRoster roster (proposing_team_id r) (give_players r) = false).
    { destruct (onRoster roster (proposing_team_id r) (give_players r)) eqn:E;
        [|reflexivity].
      exfalso. exact (Hn (proj1 (onRoster_spec _ _) E p Hg)). }
    rewrite E. now rewrite andb_false_r.
  - assert (E : onRoster roster (receiving_team_id r) (receive_players r) = false).
    { destruct (onRoster roster (receiving_team_id r) (receive_players r)) eqn:E;
        [|reflexivity].
      exfalso. exact (Hn (proj1 (onRoster_spec _ _) E p Hr)). }
    rewrite E. now rewrite andb_false_r.
Qed.

(** C3. For a valid trade, seeing it from the other side (the give and the
    receive side change places) is valid too, yields a fairness score that
    deviates from 100 by the same amount (it is the same score), and
    yields the negated value difference. *)
Theorem swap_keeps_fairness_and_negates_difference (r : TradeAnalysisRequest) :
  isValid roster r = true ->
  let here := evaluate value roster penaltyFactor epsilon r in
  let there := evaluate value roster penaltyFactor epsilon (swapSides r) in
  is_valid here = true /\ is_valid there = true /\
  exists f vd f' vd',
    fairness_score here = Some f /\ value_difference here = Some vd /\
    fairness_score there = Some f' /\ value_difference there = Some vd' /\
    (Qabs (f' - 100) == Qabs (f - 100))%Q /\ (f' == f)%Q /\ (vd' == - vd)%Q.
Proof.
  intros Hv. cbn zeta. unfold evaluate.
  rewrite isValid_swapSides, Hv.
  cbn [is_valid fairness_score value_difference].
  split; [reflexivity|]. split; [reflexivity|].
  exists (fairnessScore value penaltyFactor epsilon r), (valueDifference value r),
    (fairnessScore value penaltyFactor epsilon (swapSides r)),
    (valueDifference value (swapSides r)).
  repeat (split; [reflexivity|]).
  split; [|split].
  - apply Qabs_wd. rewrite fairnessScore_swapSides. reflexivity.
  - apply fairnessScore_swapSides.
  - apply valueDifference_swapSides.
Qed.

(** C4. A valid trade whose two sides have the same total value gets the
    fairness score 100, exactly, and the value difference 0. *)
Theorem even_trade_is_perfectly_fair (r : TradeAnalysisRequest) :
  isValid roster r = true ->
  (totalValue value (give_players r) == totalValue value (receive_players r))%Q ->
  exists f vd,
    evaluate value roster penaltyFactor epsilon r = mkResponse true (Some f) (Some vd) /\
    (f == 100)%Q /\ (vd == 0)%Q.
Proof.
  intros Hv He. unfold evaluate. rewrite Hv.
  exists (fairnessScore value penaltyFactor epsilon r), (valueDifference value r).
  split; [reflexivity|]. apply fairnessScore_even. exact He.
Qed.

(** C5. A request with an empty give or receive set, with a player on both
    sides, or with a player who is not on the roster of the team that
    trades him away, short-circuits: the answer has [is_valid = false] and
    neither a fairness score nor a value difference, so the panel renders
    neither block. *)
Theorem invalid_trade_short_circuits (r : TradeAnalysisRequest) :
  invalid roster r ->
  let answer := evaluate value roster penaltyFactor epsilon r in
  answer = mkResponse false None None /\
  is_valid answer = false /\
  fairness_score answer = None /\ value_difference answer = None /\
  showsFairnessScore answer = false /\ showsValueAssessment answer = false.
Proof.
  intros H. cbn zeta. unfold evaluate. rewrite (invalid_isValid r H).
  repeat split.
Qed.

End TradeFacts.

(** C3 on the trade of player 11 (30) for player 21 (70). *)
Lemma swap_keeps_fairness_and_negates_difference_witness :
  let here := Trades.evaluate Samples.value Samples.roster Samples.penaltyFactor
                Samples.epsilon Samples.lopsided in
  let there := Trades.evaluate Samples.value Samples.roster Samples.penaltyFactor
                 Samples.epsilon (Trades.swapSides Samples.lopsided) in
  Trades.is_valid here = true /\ Trades.is_valid there = true /\
  exists f vd f' vd',
    Trades.fairness_score here = Some f /\ Trades.value_difference here = Some vd /\
    Trades.fairness_score there = Some f' /\ Trades.value_difference there = Some vd' /\
    (Qabs (f' - 100) == Qabs (f - 100))%Q /\ (f' == f)%Q /\ (vd' == - vd)%Q.
Proof.
  apply (swap_keeps_fairness_and_negates_difference Samples.value Samples.roster
           Samples.penaltyFactor Samples.epsilon Samples.lopsided).
  reflexivity.
Defined.

(** C4 on the trade of player 13 (50) for player 22 (50). *)
Lemma even_trade_is_perfectly_fair_witness :
  exists f vd,
    Trades.evaluate Samples.value Samples.roster Samples.penaltyFactor Samples.epsilon
      Samples.even = Trades.mkResponse true (Some f) (Some vd) /\
    (f == 100)%Q /\ (vd == 0)%Q.
Proof.
  apply (even_trade_is_perfectly_fair Samples.value Samples.roster
           Samples.penaltyFactor Samples.epsilon Samples.even).
  - reflexivity.
  - reflexivity.
Defined.

(** C5 on an offer of player 21 by team 1, which does not roster him. *)
Lemma invalid_trade_short_circuits_witness :
  let answer := Trades.evaluate Samples.value Samples.roster Samples.penaltyFactor
                  Samples.epsilon Samples.offRoster in
  answer = Trades.mkResponse false None None /\
  Trades.is_valid answer = false /\
  Trades.fairness_score answer = None /\ Trades.value_difference answer = None /\
  Trades.showsFairnessScore answer = false /\ Trades.showsValueAssessment answer = false.
Proof.
  apply (invalid_trade_short_circuits Samples.value Samples.roster
           Samples.penaltyFactor Samples.epsilon Samples.offRoster).
  right. right. right. left. exists 21%Z. split.
  - left. reflexivity.
  - cbn. intros [H|[H|[H|[]]]]; discriminate H.
Defined.

Example lopsided_scores :
  Trades.evaluate Samples.value Samples.roster Samples.penaltyFactor Samples.epsilon
    Samples.lopsided
  = Trades.mkResponse true (Some (Trades.fairnessScore Samples.value Samples.penaltyFactor
                                    Samples.epsilon Samples.lopsided))
                      (Some (Trades.valueDifference Samples.value Samples.lopsided)) /\
  (Trades.valueDifference Samples.value Samples.lopsided == 40)%Q /\
  (Trades.fairnessScore Samples.value Samples.penaltyFactor Samples.epsilon
     Samples.lopsided == 300 # 7)%Q.
Proof. repeat split. Qed.


(* ===================================================================== *)
(** * More facts: the retry strategy                                       *)
(* ===================================================================== *)

Section RetryFacts.

Import RemoteClient Scenarios.
Local Open Scope Z_scope.

Context {Payload : Type}.
Implicit Types (up : nat -> Reply Payload) (w : World).

(** What one pass through the loop body does, by the answer it gets. *)
Lemma attempt_body_cases up max_retries attempt w :
  attempt_body up max_retries attempt w =
    match up (sent w) with
    | Responded code body =>
        if code =? 200 then (Normal (Done body), mkWorld (S (sent w)) (log w ++ [Get]))
        else if code =? 429 then
          (Normal Next, mkWorld (S (sent w)) (log w ++ [Get; Sleep (2 ^ attempt)]))
        else if (200 <=? code) && (code <=? 299) then
          (Normal Next, mkWorld (S (sent w)) (log w ++ [Get]))
        else (Raise (HTTPStatusError code), mkWorld (S (sent w)) (log w ++ [Get]))
    | RequestFailed msg =>
        if attempt =? max_retries - 1 then
          (Raise (RequestError msg), mkWorld (S (sent w)) (log w ++ [Get]))
        else (Normal Next, mkWorld (S (sent w)) (log w ++ [Get; Sleep 1]))
    end.
Proof.
  unfold attempt_body, try_except_RequestError, bind, httpx_get, raise_for_status.
  destruct (up (sent w)) as [code body|msg]; cbn.
  - destruct (code =? 200); [reflexivity|].
    destruct (code =? 429); [cbn; rewrite <- app_assoc; reflexivity|].
    destruct ((200 <=? code) && (code <=? 299)); reflexivity.
  - destruct (attempt =? max_retries - 1); [reflexivity|].
    cbn. rewrite <- app_assoc. reflexivity.
Qed.

Lemma range_length (n : Z) : List.length (range n) = Z.to_nat n.
Proof. unfold range. now rewrite length_map, length_seq. Qed.

(** The loop issues at most one request per attempt it is given. *)
Lemma for_attempt_sent_bound up max_retries (todo : list Z) w :
  (sent (snd (for_attempt todo (attempt_body up max_retries) w))
   <= sent w + List.length todo)%nat.
Proof.
  revert w. induction todo as [|attempt later IH]; intros w.
  - cbn. lia.
  - rewrite for_attempt_cons.
    pose proof (attempt_body_sent up max_retries attempt w) as Hs.
    destruct (attempt_body up max_retries attempt w) as [[[value|]|e] w1];
      cbn [snd] in *; cbn [List.length]; try lia.
    specialize (IH w1). lia.
Qed.

(** X1. The loop is bounded: whatever the upstream answers, at most
    [max_retries] requests are issued; and with [max_retries <= 0] none is
    issued and the function raises "Max retries exceeded" at once. *)
Theorem retry_attempts_bounded up max_retries :
  (attempts (snd (espn_request_with_retry up max_retries start)) <= Z.to_nat max_retries)%nat /\
  (max_retries <= 0 ->
   espn_request_with_retry up max_retries start =
     (Raise (Exception "Max retries exceeded"), start)).
Proof.
  split.
  - pose proof (attempts_are_requests up max_retries) as Hc. cbn zeta in Hc. rewrite Hc.
    pose proof (for_attempt_sent_bound up max_retries (range max_retries) start) as Hb.
    rewrite range_length in Hb. cbn [sent start] in Hb.
    unfold espn_request_with_retry, bind.
    destruct (for_attempt (range max_retries) (attempt_body up max_retries) start)
      as [[[value|]|e] w1]; cbn [snd] in *; unfold ret, raise; cbn [snd]; lia.
  - intros H. unfold espn_request_with_retry, bind, range.
    replace (Z.to_nat max_retries) with 0%nat by lia. reflexivity.
Qed.

(** A run of 429 answers: every attempt is followed by its sleep. *)
Lemma for_attempt_all_429 up max_retries (todo : list Z) w :
  (forall k, exists other, up k = Responded 429 other) ->
  for_attempt todo (attempt_body up max_retries) w =
    (Normal None,
     mkWorld (sent w + List.length todo) (log w ++ backoffLog todo)).
Proof.
  intros Hup. revert w. induction todo as [|attempt later IH]; intros w.
  - cbn. unfold ret. rewrite Nat.add_0_r, app_nil_r. destruct w; reflexivity.
  - rewrite for_attempt_cons.
    destruct (Hup (sent w)) as [other Ho].
    rewrite (attempt_body_429 _ _ _ _ other Ho), IH.
    cbn [sent log List.length backoffLog flat_map].
    f_equal. f_equal; [lia|]. rewrite <- app_assoc. reflexivity.
Qed.

Lemma gets_backoffLog (todo : list Z) : gets (backoffLog todo) = List.length todo.
Proof.
  unfold backoffLog. induction todo as [|a l IH]; cbn; [reflexivity | now rewrite IH].
Qed.

Lemma delays_backoffLog (todo : list Z) :
  delays (backoffLog todo) = map (fun attempt => 2 ^ attempt) todo.
Proof.
  unfold backoffLog. induction todo as [|a l IH]; cbn [flat_map app delays map];
    [reflexivity | now rewrite IH].
Qed.

(** X2. When the upstream answers 429 to every request, the function gives
    up with "Max retries exceeded" after exactly [max_retries] requests,
    having slept 2^attempt seconds after every one of them, the last one
    included. *)
Theorem retry_exhausted_by_rate_limit up max_retries :
  (forall k, exists other, up k = Responded 429 other) ->
  let run := espn_request_with_retry up max_retries start in
  fst run = Raise (Exception "Max retries exceeded") /\
  attempts (snd run) = Z.to_nat max_retries /\
  log (snd run) = backoffLog (range max_retries) /\
  delays (log (snd run)) = map (fun attempt => 2 ^ attempt) (range max_retries).
Proof.
  intros Hup. cbn zeta. unfold espn_request_with_retry, bind.
  rewrite (for_attempt_all_429 up max_retries (range max_retries) start Hup).
  cbn [fst snd raise log start app]. unfold attempts. cbn [log].
  rewrite gets_backoffLog, range_length, delays_backoffLog. auto.
Qed.

Lemma range_snoc (n : Z) :
  1 <= n -> range n = range (n - 1) ++ [n - 1].
Proof.
  intros H. unfold range.
  replace (Z.to_nat n) with (S (Z.to_nat (n - 1))) by lia.
  rewrite seq_S, map_app. cbn. do 2 f_equal. lia.
Qed.

Lemma range_In (n a : Z) : In a (range n) -> 0 <= a < n.
Proof.
  unfold range. rewrite in_map_iff. intros (k & <- & Hk).
  apply in_seq in Hk. lia.
Qed.

(** Transport failures before the last attempt: each is followed by a
    sleep of one second. *)
Lemma for_attempt_failures up max_retries (front rest : list Z) w :
  (forall k, exists msg, up k = RequestFailed msg) ->
  (forall a, In a front -> a <> max_retries - 1) ->
  for_attempt (front ++ rest) (attempt_body up max_retries) w =
    for_attempt rest (attempt_body up max_retries)
      (mkWorld (sent w + List.length front)
               (log w ++ flat_map (fun _ => [Get; Sleep 1]) front)).
Proof.
  intros Hup. revert w. induction front as [|a front IH]; intros w Hfront.
  - cbn. rewrite Nat.add_0_r, app_nil_r. destruct w; reflexivity.
  - cbn [app]. rewrite for_attempt_cons, attempt_body_cases.
    destruct (Hup (sent w)) as [msg Hm]. rewrite Hm.
    destruct (Z.eqb_spec a (max_retries - 1)) as [E|_].
    { exfalso. apply (Hfront a); [left; reflexivity | exact E]. }
    rewrite IH by (intros b Hb; apply Hfront; right; exact Hb).
    cbn [sent log List.length flat_map].
    do 2 f_equal; [lia|]. rewrite <- app_assoc. reflexivity.
Qed.

Lemma gets_failures (front : list Z) :
  gets (flat_map (fun _ => [Get; Sleep 1]) front) = List.length front.
Proof. induction front as [|a l IH]; cbn; [reflexivity | now rewrite IH]. Qed.

Lemma delays_failures (front : list Z) :
  delays (flat_map (fun _ => [Get; Sleep 1]) front) = repeat 1 (List.length front).
Proof.
  induction front as [|a l IH]; cbn [flat_map app delays List.length repeat];
    [reflexivity | now rewrite IH].
Qed.

Lemma delays_app (l1 l2 : list Event) : delays (l1 ++ l2) = delays l1 ++ delays l2.
Proof.
  induction l1 as [|[|s] l1 IH]; cbn; [reflexivity| |]; rewrite IH; reflexivity.
Qed.

(** X3. When every request fails in transport, the function tries exactly
    [max_retries] times, sleeps one second between two tries and not after
    the last, and re-raises the RequestError of the last try. *)
Theorem retry_exhausted_by_transport_errors up (msg : nat -> string) max_retries :
  1 <= max_retries ->
  (forall k, up k = RequestFailed (msg k)) ->
  let run := espn_request_with_retry up max_retries start in
  fst run = Raise (RequestError (msg (Z.to_nat max_retries - 1)%nat)) /\
  attempts (snd run) = Z.to_nat max_retries /\
  delays (log (snd run)) = repeat 1 (Z.to_nat max_retries - 1) /\
  exists before, log (snd run) = before ++ [Get].
Proof.
  intros Hmax Hup. cbn zeta. unfold espn_request_with_retry, bind.
  rewrite (range_snoc max_retries Hmax).
  rewrite for_attempt_failures.
  2:{ intros k. exists (msg k). apply Hup. }
  2:{ intros a Ha. apply range_In in Ha. lia. }
  rewrite for_attempt_cons, attempt_body_cases.
  cbn [sent log start app Nat.add]. rewrite Hup, Z.eqb_refl.
  cbn [fst snd]. rewrite range_length.
  replace (Z.to_nat (max_retries - 1)) with (Z.to_nat max_retries - 1)%nat by lia.
  unfold attempts. cbn [log].
  rewrite gets_app, gets_failures, delays_app, delays_failures, range_length.
  cbn [gets delays]. rewrite app_nil_r.
  replace (Z.to_nat (max_retries - 1)) with (Z.to_nat max_retries - 1)%nat by lia.
  repeat split; [lia|]. eauto.
Qed.

(** An answer with a fatal status ends the run where it arrives. *)
Lemma for_attempt_fatal_is_last up max_retries (todo : list Z) w :
  let r := for_attempt todo (attempt_body up max_retries) w in
  forall k code body,
    up k = Responded code body -> fatalStatus code ->
    (sent w <= k < sent (snd r))%nat ->
    sent (snd r) = S k /\
    fst r = Raise (HTTPStatusError code) /\
    exists before, log (snd r) = before ++ [Get].
Proof.
  revert w. induction todo as [|attempt later IH]; intros w; cbn zeta.
  - cbn. intros; lia.
  - rewrite for_attempt_cons.
    pose proof (attempt_body_sent up max_retries attempt w) as Hs.
    pose proof (attempt_body_cases up max_retries attempt w) as Hc.
    intros k code body Hk [Hout H429] Hr.
    assert (Hhere : k = sent w ->
              attempt_body up max_retries attempt w =
                (Raise (HTTPStatusError code), mkWorld (S (sent w)) (log w ++ [Get]))).
    { intros ->. rewrite Hc, Hk.
      destruct (Z.eqb_spec code 200); [lia|].
      destruct (Z.eqb_spec code 429); [contradiction|].
      destruct (Z.leb_spec 200 code), (Z.leb_spec code 299); cbn [andb];
        try reflexivity; lia. }
    destruct (attempt_body up max_retries attempt w) as [[[value|]|e] w1] eqn:E;
      cbn [snd fst] in *.
    + unfold ret in Hr. cbn in Hr.
      assert (Hkw : k = sent w) by lia. specialize (Hhere Hkw). discriminate.
    + destruct (Nat.eq_dec k (sent w)) as [Hkw|Hne].
      * specialize (Hhere Hkw). discriminate.
      * pose proof (for_attempt_sent_bound up max_retries later w1) as _.
        specialize (IH w1). cbn zeta in IH.
        apply (IH k code body Hk (conj Hout H429)). lia.
    + assert (Hkw : k = sent w) by lia. specialize (Hhere Hkw).
      injection Hhere as -> ->. cbn. subst k. eauto.
Qed.

(** X4. A status outside 2xx other than 429 (a 500 as much as a 401 or a
    404) is never retried: the request that receives it is the last
    attempt, no sleep follows, and the caller gets the HTTPStatusError
    with that status. *)
Theorem fatal_status_is_not_retried up max_retries (k : nat) (code : Z) (body : Payload) :
  up k = Responded code body ->
  fatalStatus code ->
  (k < sent (snd (espn_request_with_retry up max_retries start)))%nat ->
  let run := espn_request_with_retry up max_retries start in
  attempts (snd run) = S k /\
  fst run = Raise (HTTPStatusError code) /\
  exists before, log (snd run) = before ++ [Get].
Proof.
  intros Hk Hfatal Hissued. cbn zeta.
  pose proof (attempts_are_requests up max_retries) as Hc. cbn zeta in Hc. rewrite Hc.
  pose proof (for_attempt_fatal_is_last up max_retries (range max_retries) start) as H.
  cbn zeta in H. specialize (H k code body Hk Hfatal).
  unfold espn_request_with_retry, bind in *.
  destruct (for_attempt (range max_retries) (attempt_body up max_retries) start)
    as [[[value|]|e] w1] eqn:E; unfold ret, raise in *; cbn [fst snd] in *.
  - destruct H as (? & ? & ?); [cbn; lia|]. discriminate.
  - destruct H as (? & ? & ?); [cbn; lia|]. discriminate.
  - destruct H as (Hsent & Hexn & Hlog); [cbn; lia|].
    injection Hexn as ->. auto.
Qed.

(** What a returned value tells about the answers the loop saw. *)
Lemma for_attempt_returns up max_retries (todo : list Z) w (body : Payload) :
  let r := for_attempt todo (attempt_body up max_retries) w in
  fst r = Normal (Some body) ->
  exists k, (sent w <= k)%nat /\ sent (snd r) = S k /\
            up k = Responded 200 body /\
            (forall j, (sent w <= j < k)%nat -> retried (up j)) /\
            exists before, log (snd r) = before ++ [Get].
Proof.
  revert w. induction todo as [|attempt later IH]; intros w; cbn zeta.
  - cbn. discriminate.
  - rewrite for_attempt_cons, attempt_body_cases.
    destruct (up (sent w)) as [code payload|msg] eqn:Hup.
    + destruct (Z.eqb_spec code 200) as [->|Hn200].
      * cbn. intros [= <-]. exists (sent w).
        repeat split; [lia | exact Hup | intros; lia | eauto].
      * assert (Hnext : forall w1, sent w1 = S (sent w) -> retried (up (sent w)) ->
                  fst (for_attempt later (attempt_body up max_retries) w1)
                  = Normal (Some body) ->
                  exists k, (sent w <= k)%nat /\
                    sent (snd (for_attempt later (attempt_body up max_retries) w1)) = S k /\
                    up k = Responded 200 body /\
                    (forall j, (sent w <= j < k)%nat -> retried (up j)) /\
                    exists before,
                      log (snd (for_attempt later (attempt_body up max_retries) w1))
                      = before ++ [Get]).
        { intros w1 Hw1 Hretried Hres.
          destruct (IH w1 Hres) as (k & Hle & Hsent & Hk & Hbefore & Hlog).
          exists k. repeat split; try assumption; [lia|].
          intros j Hj. destruct (Nat.eq_dec j (sent w)) as [->|Hne];
            [exact Hretried | apply Hbefore; lia]. }
        destruct (Z.eqb_spec code 429) as [->|Hn429].
        { apply Hnext; [reflexivity|]. rewrite Hup. cbn. lia. }
        destruct (Z.leb_spec 200 code), (Z.leb_spec code 299); cbn [andb];
          try (cbn; discriminate).
        apply Hnext; [reflexivity|]. rewrite Hup. cbn. lia.
    + destruct (attempt =? max_retries - 1); [cbn; discriminate|].
      intros Hres.
      destruct (IH _ Hres) as (k & Hle & Hsent & Hk & Hbefore & Hlog).
      cbn [sent] in *.
      exists k. repeat split; try assumption; [lia|].
      intros j Hj. destruct (Nat.eq_dec j (sent w)) as [->|Hne];
        [rewrite Hup; exact I | apply Hbefore; lia].
Qed.

(** X5. A value is returned only for a 200: when the function returns
    [body], the last request it issued was answered 200 with that body,
    nothing happened after it, and every earlier request had been answered
    by a 429, a 2xx other than 200 or a transport failure. *)
Theorem returned_value_is_the_200_body up max_retries (body : Payload) :
  fst (espn_request_with_retry up max_retries start) = Normal body ->
  let run := espn_request_with_retry up max_retries start in
  exists k, attempts (snd run) = S k /\
            up k = Responded 200 body /\
            (forall j, (j < k)%nat -> retried (up j)) /\
            exists before, log (snd run) = before ++ [Get].
Proof.
  intros Hres. cbn zeta.
  pose proof (attempts_are_requests up max_retries) as Hc. cbn zeta in Hc. rewrite Hc.
  pose proof (for_attempt_returns up max_retries (range max_retries) start body) as H.
  cbn zeta in H.
  unfold espn_request_with_retry, bind in *.
  destruct (for_attempt (range max_retries) (attempt_body up max_retries) start)
    as [[[value|]|e] w1] eqn:E; unfold ret, raise in *; cbn [fst snd] in *;
    try discriminate.
  injection Hres as ->.
  destruct (H eq_refl) as (k & _ & Hsent & Hk & Hbefore & Hlog).
  exists k. repeat split; try assumption.
  intros j Hj. apply Hbefore. cbn. lia.
Qed.

End RetryFacts.

(** X5 on three 429 answers and a 200, with four attempts allowed. *)
Lemma returned_value_is_the_200_body_witness :
  let up := RemoteClient.limited_thrice "league" "slow down" in
  let run := RemoteClient.espn_request_with_retry up 4 RemoteClient.start in
  exists k, RemoteClient.attempts (snd run) = S k /\
            up k = RemoteClient.Responded 200 "league" /\
            (forall j, (j < k)%nat -> Scenarios.retried (up j)) /\
            exists before, RemoteClient.log (snd run) = before ++ [RemoteClient.Get].
Proof.
  apply (@returned_value_is_the_200_body string
           (RemoteClient.limited_thrice "league" "slow down") 4 "league").
  reflexivity.
Defined.

(** X3 on three attempts. *)
Lemma retry_exhausted_by_transport_errors_witness :
  let up : nat -> RemoteClient.Reply string :=
    fun _ => RemoteClient.RequestFailed "connection reset" in
  let run := RemoteClient.espn_request_with_retry up 3 RemoteClient.start in
  fst run = RemoteClient.Raise (RemoteClient.RequestError "connection reset") /\
  RemoteClient.attempts (snd run) = Z.to_nat 3 /\
  RemoteClient.delays (RemoteClient.log (snd run)) = repeat 1%Z (Z.to_nat 3 - 1) /\
  exists before, RemoteClient.log (snd run) = before ++ [RemoteClient.Get].
Proof.
  apply (@retry_exhausted_by_transport_errors string
           (fun _ => RemoteClient.RequestFailed "connection reset")
           (fun _ => "connection reset") 3).
  - lia.
  - intros k. reflexivity.
Defined.

(** X4 on a 500 that follows one 429. *)
Lemma fatal_status_is_not_retried_witness :
  let up : nat -> RemoteClient.Reply string :=
    fun k => if (k <? 1)%nat then RemoteClient.Responded 429 "slow down"
             else RemoteClient.Responded 500 "Internal Server Error" in
  let run := RemoteClient.espn_request_with_retry up 3 RemoteClient.start in
  RemoteClient.attempts (snd run) = 2%nat /\
  fst run = RemoteClient.Raise (RemoteClient.HTTPStatusError 500) /\
  exists before, RemoteClient.log (snd run) = before ++ [RemoteClient.Get].
Proof.
  apply (@fatal_status_is_not_retried string
           (fun k => if (k <? 1)%nat then RemoteClient.Responded 429 "slow down"
                     else RemoteClient.Responded 500 "Internal Server Error")
           3 1 500 "Internal Server Error").
  - reflexivity.
  - unfold Scenarios.fatalStatus. lia.
  - vm_compute. lia.
Defined.

(** X2 on three attempts. *)
Lemma retry_exhausted_by_rate_limit_witness :
  let up : nat -> RemoteClient.Reply string :=
    fun _ => RemoteClient.Responded 429 "slow down" in
  let run := RemoteClient.espn_request_with_retry up 3 RemoteClient.start in
  fst run = RemoteClient.Raise (RemoteClient.Exception "Max retries exceeded") /\
  RemoteClient.attempts (snd run) = Z.to_nat 3 /\
  RemoteClient.log (snd run) = Scenarios.backoffLog (RemoteClient.range 3) /\
  RemoteClient.delays (RemoteClient.log (snd run))
  = map (fun attempt => 2 ^ attempt)%Z (RemoteClient.range 3).
Proof.
  apply (retry_exhausted_by_rate_limit
           (fun _ => RemoteClient.Responded 429 "slow down") 3).
  intros k. exists "slow down". reflexivity.
Defined.


(* ===================================================================== *)
(** * More facts: tokens, the interceptor and the session                   *)
(* ===================================================================== *)

Section TokenFacts.

Import Api Auth.
Local Open Scope Z_scope.

(** X6. The token functions round-trip: after [setAuthToken t] the stored
    token is [t] and the default header is "Bearer t"; [removeAuthToken]
    then leaves neither; a second [setAuthToken] replaces the first; and
    neither function touches any other item of the storage, any other
    header, or the location. *)
Theorem token_round_trip (t t' : string) (b : Browser) (key : string) :
  key <> "access_token" -> key <> "Authorization" ->
  getAuthToken (setAuthToken t b) = Some t /\
  common_headers (setAuthToken t b) !! "Authorization" = Some ("Bearer " +:+ t) /\
  getAuthToken (removeAuthToken (setAuthToken t b)) = None /\
  common_headers (removeAuthToken (setAuthToken t b)) !! "Authorization" = None /\
  setAuthToken t' (setAuthToken t b) = setAuthToken t' b /\
  localStorage (setAuthToken t b) !! key = localStorage b !! key /\
  localStorage (removeAuthToken b) !! key = localStorage b !! key /\
  common_headers (setAuthToken t b) !! key = common_headers b !! key /\
  common_headers (removeAuthToken b) !! key = common_headers b !! key /\
  pathname (setAuthToken t b) = pathname b /\
  pathname (removeAuthToken b) = pathname b.
Proof.
  intros Hk Hh. unfold getAuthToken, setAuthToken, removeAuthToken. cbn.
  repeat split.
  - apply lookup_insert_eq.
  - apply lookup_insert_eq.
  - apply lookup_delete_eq.
  - apply lookup_delete_eq.
  - now rewrite !insert_insert_eq.
  - now apply lookup_insert_ne.
  - now apply lookup_delete_ne.
  - now apply lookup_insert_ne.
  - now apply lookup_delete_ne.
Qed.

Lemma or_string_default_nonempty (a : option string) (d : string) :
  d <> "" -> or_string a d <> "".
Proof.
  intros Hd. unfold or_string. destruct a as [s|]; [|exact Hd].
  destruct (String.eqb_spec s ""); [exact Hd | assumption].
Qed.

Lemma onRejected_other_keeps {A} (error : AxiosError) (b : Browser) :
  (forall r, response error = Some r -> status r <> 401) ->
  snd (@onRejected A error b) = b.
Proof.
  intros Hnot. unfold onRejected. cbn [snd].
  destruct (response error) as [r|]; [|reflexivity].
  destruct (Z.eqb_spec (status r) 401) as [E|_]; [|reflexivity].
  exfalso. exact (Hnot r eq_refl E).
Qed.

(** X7. An error that is not a 401 (another status, or no response at all)
    leaves the stored token, the headers and the location as they are. And
    every error, 401 or not, is handed to the caller as a rejection whose
    status is that of the response and whose detail is never empty: the
    detail of the response body if it has one, else the message of the
    error, else "An unexpected error occurred". *)
Theorem other_errors_leave_session {A : Type} (error : AxiosError) (b : Browser) :
  let out := @onRejected A error b in
  ((forall r, response error = Some r -> status r <> 401) -> snd out = b) /\
  exists reason,
    fst out = Rejected reason /\
    api_status reason = option_map status (response error) /\
    detail reason <> "" /\
    (forall r d, response error = Some r -> data_detail r = Some d -> d <> "" ->
                 detail reason = d) /\
    ((forall r, response error = Some r ->
                data_detail r = None \/ data_detail r = Some "") ->
     message error <> "" -> detail reason = message error) /\
    ((forall r, response error = Some r ->
                data_detail r = None \/ data_detail r = Some "") ->
     message error = "" -> detail reason = "An unexpected error occurred").
Proof.
  cbn zeta. split; [apply onRejected_other_keeps|].
  unfold onRejected. cbn [fst snd].
  eexists. split; [reflexivity|]. cbn [api_status detail].
  split; [reflexivity|].
  split.
  { apply or_string_default_nonempty, or_string_default_nonempty. discriminate. }
  split.
  { intros r d Hr Hd Hne. rewrite Hr, Hd. cbn.
    destruct (String.eqb_spec d ""); [contradiction | reflexivity]. }
  split.
  + intros Hnone Hm.
    assert (E : forall x, or_string (match response error with
                                     | Some r => data_detail r
                                     | None => None
                                     end) x = x).
    { intros x. destruct (response error) as [r|]; [|reflexivity].
      destruct (Hnone r eq_refl) as [-> | ->]; reflexivity. }
    rewrite E. cbn. destruct (String.eqb_spec (message error) ""); [contradiction|].
    reflexivity.
  + intros Hnone Hm.
    assert (E : forall x, or_string (match response error with
                                     | Some r => data_detail r
                                     | None => None
                                     end) x = x).
    { intros x. destruct (response error) as [r|]; [|reflexivity].
      destruct (Hnone r eq_refl) as [-> | ->]; reflexivity. }
    rewrite E, Hm. reflexivity.
Qed.

End TokenFacts.

(** X6 on the token "jwt" and the item "theme". *)
Lemma token_round_trip_witness :
  let t := "jwt" in
  let t' := "jwt2" in
  let b := Api.mkBrowser (<["theme" := "dark"]> ∅) ∅ "/leagues" in
  let key := "theme" in
  Api.getAuthToken (Api.setAuthToken t b) = Some t /\
  Api.common_headers (Api.setAuthToken t b) !! "Authorization" = Some ("Bearer " +:+ t) /\
  Api.getAuthToken (Api.removeAuthToken (Api.setAuthToken t b)) = None /\
  Api.common_headers (Api.removeAuthToken (Api.setAuthToken t b)) !! "Authorization" = None /\
  Api.setAuthToken t' (Api.setAuthToken t b) = Api.setAuthToken t' b /\
  Api.localStorage (Api.setAuthToken t b) !! key = Api.localStorage b !! key /\
  Api.localStorage (Api.removeAuthToken b) !! key = Api.localStorage b !! key /\
  Api.common_headers (Api.setAuthToken t b) !! key = Api.common_headers b !! key /\
  Api.common_headers (Api.removeAuthToken b) !! key = Api.common_headers b !! key /\
  Api.pathname (Api.setAuthToken t b) = Api.pathname b /\
  Api.pathname (Api.removeAuthToken b) = Api.pathname b.
Proof.
  apply (token_round_trip "jwt" "jwt2"
           (Api.mkBrowser (<["theme" := "dark"]> ∅) ∅ "/leagues") "theme");
    discriminate.
Defined.

(** X7 on a 500 without a body, which leaves the session, and on a 401
    with a detail, which is handed on with its status and detail. *)
Lemma other_errors_leave_session_witness :
  let error := Api.mkAxiosError (Some (Api.mkErrorResponse 500 None))
                 "Request failed with status code 500" in
  let unauthorized := Api.mkAxiosError (Some (Api.mkErrorResponse 401 (Some "Expired")))
                        "Request failed with status code 401" in
  let b := Api.setAuthToken "jwt" (Api.mkBrowser ∅ ∅ "/leagues") in
  snd (@Api.onRejected unit error b) = b /\
  (exists reason,
     fst (@Api.onRejected unit error b) = Api.Rejected reason /\
     Api.api_status reason = Some 500%Z /\
     Api.detail reason = "Request failed with status code 500") /\
  (exists reason,
     fst (@Api.onRejected unit unauthorized b) = Api.Rejected reason /\
     Api.api_status reason = Some 401%Z /\
     Api.detail reason = "Expired").
Proof.
  cbv zeta.
  destruct (@other_errors_leave_session unit
              (Api.mkAxiosError (Some (Api.mkErrorResponse 500 None))
                 "Request failed with status code 500")
              (Api.setAuthToken "jwt" (Api.mkBrowser ∅ ∅ "/leagues")))
    as (Hkeep & reason & Hrej & Hst & _ & _ & Hmsg & _).
  destruct (@other_errors_leave_session unit
              (Api.mkAxiosError (Some (Api.mkErrorResponse 401 (Some "Expired")))
                 "Request failed with status code 401")
              (Api.setAuthToken "jwt" (Api.mkBrowser ∅ ∅ "/leagues")))
    as (_ & reason' & Hrej' & Hst' & _ & Hdet' & _).
  split; [apply Hkeep; intros r [= <-]; cbn; discriminate|].
  split.
  - exists reason. split; [exact Hrej|]. split; [exact Hst|].
    apply Hmsg; [intros r [= <-]; now left | discriminate].
  - exists reason'. split; [exact Hrej'|]. split; [exact Hst'|].
    apply (Hdet' (Api.mkErrorResponse 401 (Some "Expired")) "Expired");
      [reflexivity | reflexivity | discriminate].
Defined.

Section SessionFacts.

Import Api Auth.
Local Open Scope Z_scope.

Context {User : Type}.

Lemma isAuthenticated_removeAuthToken (b : Browser) :
  isAuthenticated (removeAuthToken b) = false.
Proof.
  unfold isAuthenticated. now rewrite (proj1 (removeAuthToken_forgets b)).
Qed.

Lemma navigate_keeps_token (path : string) (b : Browser) :
  isAuthenticated (navigate path b) = isAuthenticated b.
Proof. reflexivity. Qed.

Lemma onRejected_401_logs_out {A} (error : AxiosError) (r : ErrorResponse) (b : Browser) :
  response error = Some r -> status r = 401 ->
  isAuthenticated (snd (@onRejected A error b)) = false /\
  pathname (snd (@onRejected A error b)) = "/login".
Proof.
  intros Hr Hs.
  destruct (@onRejected_401 A error r b Hr Hs) as (Ht & _ & Hp & _). cbn zeta in *.
  split; [|exact Hp]. unfold isAuthenticated. now rewrite Ht.
Qed.

(** X8. Logging in stores the token of the answer, so the session counts
    as authenticated exactly when that token is not empty; logging out
    ends it, and doing so twice is the same as once. A login that fails
    with a 401 leaves no session and the login page; one that fails in any
    other way, with another status or with no response at all, leaves the
    browser as it was; and every failed login is handed on as a
    rejection. *)
Theorem login_and_logout
    (data : @AuthResponse User) (b : Browser)
    (unauthorized other : AxiosError) (r : ErrorResponse) :
  response unauthorized = Some r -> status r = 401 ->
  (forall r', response other = Some r' -> status r' <> 401) ->
  (fst (login (Answered data) b) = Resolved data /\
   getAuthToken (snd (login (Answered data) b)) = Some (access_token data) /\
   isAuthenticated (snd (login (Answered data) b))
   = negb (String.eqb (access_token data) "")) /\
  (isAuthenticated (logout (snd (login (Answered data) b))) = false /\
   logout (logout b) = logout b) /\
  (isAuthenticated (snd (@login User (Failed unauthorized) b)) = false /\
   pathname (snd (@login User (Failed unauthorized) b)) = "/login" /\
   exists reason, fst (@login User (Failed unauthorized) b) = Rejected reason) /\
  (snd (@login User (Failed other) b) = b /\
   exists reason, fst (@login User (Failed other) b) = Rejected reason).
Proof.
  intros Hr Hs Ho.
  assert (Hfail : forall error, exists reason,
            @login User (Failed error) b
            = (Rejected reason, snd (@onRejected (@AuthResponse User) error b))).
  { intros error. unfold login, request.
    destruct (@onRejected_rejects (@AuthResponse User) error b) as (x & Hx & _).
    destruct (@onRejected (@AuthResponse User) error b) as [res b'].
    cbn [fst snd] in *. subst res. now exists x. }
  split; [|split; [|split]].
  - unfold login, request, onFulfilled. cbn [fst snd].
    unfold isAuthenticated. rewrite setAuthToken_stores. auto.
  - split; [apply isAuthenticated_removeAuthToken|].
    unfold logout, removeAuthToken. cbn. now rewrite !delete_delete_eq.
  - destruct (Hfail unauthorized) as (reason & ->). cbn [fst snd].
    destruct (@onRejected_401_logs_out (@AuthResponse User) unauthorized r b Hr Hs) as [H1 H2].
    split; [exact H1|]. split; [exact H2|]. now exists reason.
  - destruct (Hfail other) as (reason & ->). cbn [fst snd].
    split; [now apply onRejected_other_keeps | now exists reason].
Qed.

(** X9. The check that runs when the provider mounts always ends the
    loading state. Without a stored token it asks nothing and changes
    nothing; with one, an answer becomes the current user, and any failure
    (whatever its status) removes the token. Starting from the initial
    state, the context therefore never holds a user without a stored
    token. *)
Theorem checkAuthStatus_outcomes (outcome : Outcome User) (s : AuthState) (b : Browser) :
  isLoading (fst (checkAuthStatus outcome s b)) = false /\
  (isAuthenticated b = false ->
   checkAuthStatus outcome s b = (mkAuthState (currentUser s) false, b)) /\
  (forall userData, isAuthenticated b = true -> outcome = Answered userData ->
   checkAuthStatus outcome s b = (mkAuthState (Some userData) false, b)) /\
  (forall error, outcome = Failed error ->
   isAuthenticated (snd (checkAuthStatus outcome s b)) = false /\
   currentUser (fst (checkAuthStatus outcome s b)) = currentUser s) /\
  (contextAuthenticated (fst (checkAuthStatus outcome initialAuthState b)) = true ->
   isAuthenticated (snd (checkAuthStatus outcome initialAuthState b)) = true).
Proof.
  assert (Hrej : forall error, exists reason b',
            @onRejected User error b = (Rejected reason, b')).
  { intros error. destruct (@onRejected_rejects User error b) as (x & Hx & _).
    destruct (@onRejected User error b) as [res b'] eqn:E. cbn in Hx. subst res. eauto. }
  unfold checkAuthStatus, getCurrentUser, request, onFulfilled.
  destruct (isAuthenticated b) eqn:Hb.
  - split; [|split; [|split; [|split]]].
    + destruct outcome as [u|error]; [reflexivity|].
      destruct (Hrej error) as (reason & b' & ->). reflexivity.
    + discriminate.
    + intros userData _ ->. reflexivity.
    + intros error ->. destruct (Hrej error) as (reason & b' & ->). cbn [snd fst].
      split; [apply isAuthenticated_removeAuthToken | reflexivity].
    + destruct outcome as [u|error]; [intros _; exact Hb|].
      destruct (Hrej error) as (reason & b' & ->). cbn. discriminate.
  - split; [|split; [|split; [|split]]].
    + reflexivity.
    + reflexivity.
    + intros userData H. discriminate.
    + intros error _. cbn. split; [exact Hb | reflexivity].
    + cbn. discriminate.
Qed.

End SessionFacts.

(** X8 on a login that works, one refused with a 401 and one that meets a
    500. *)
Lemma login_and_logout_witness :
  let data := @Auth.mkAuthResponse Z "jwt" "bearer" 7%Z in
  let b := Api.setAuthToken "old" (Api.mkBrowser ∅ ∅ "/login") in
  let unauthorized := Api.mkAxiosError (Some (Api.mkErrorResponse 401 (Some "Bad password")))
                        "Request failed with status code 401" in
  let other := Api.mkAxiosError (Some (Api.mkErrorResponse 500 None))
                 "Request failed with status code 500" in
  (fst (Auth.login (Auth.Answered data) b) = Api.Resolved data /\
   Api.getAuthToken (snd (Auth.login (Auth.Answered data) b)) = Some (Auth.access_token data) /\
   Auth.isAuthenticated (snd (Auth.login (Auth.Answered data) b))
   = negb (String.eqb (Auth.access_token data) "")) /\
  (Auth.isAuthenticated (Auth.logout (snd (Auth.login (Auth.Answered data) b))) = false /\
   Auth.logout (Auth.logout b) = Auth.logout b) /\
  (Auth.isAuthenticated (snd (@Auth.login Z (Auth.Failed unauthorized) b)) = false /\
   Api.pathname (snd (@Auth.login Z (Auth.Failed unauthorized) b)) = "/login" /\
   exists reason, fst (@Auth.login Z (Auth.Failed unauthorized) b) = Api.Rejected reason) /\
  (snd (@Auth.login Z (Auth.Failed other) b) = b /\
   exists reason, fst (@Auth.login Z (Auth.Failed other) b) = Api.Rejected reason).
Proof.
  apply (@login_and_logout Z (@Auth.mkAuthResponse Z "jwt" "bearer" 7%Z)
           (Api.setAuthToken "old" (Api.mkBrowser ∅ ∅ "/login"))
           (Api.mkAxiosError (Some (Api.mkErrorResponse 401 (Some "Bad password")))
              "Request failed with status code 401")
           (Api.mkAxiosError (Some (Api.mkErrorResponse 500 None))
              "Request failed with status code 500")
           (Api.mkErrorResponse 401 (Some "Bad password")));
    [reflexivity | reflexivity | intros r' [= <-]; cbn; discriminate].
Defined.

Section GuardFacts.

Import Api Auth.

(** X10. The guard shows its children only to an authenticated user once
    loading is over. Any other visitor, once loading is over, is sent to
    the login path with the whole current location kept in the state. A
    successful login then navigates to the pathname of the kept location
    and to nothing more of it: two locations with the same pathname lead
    to the same place, whatever their search and hash. With no location
    kept, or one whose pathname is empty, it navigates to "/". *)
Theorem guard_round_trip (isAuth loading : bool) (redirectTo : string)
    (location : Router.Location) :
  (ProtectedRoute isAuth loading redirectTo location = Children <->
   isAuth = true /\ loading = false) /\
  (loading = false -> isAuth = false ->
   ProtectedRoute isAuth loading redirectTo location = Navigate redirectTo location) /\
  (loading = true ->
   ProtectedRoute isAuth loading redirectTo location = LoadingPage) /\
  (Router.pathname location <> "" ->
   handleLoginSuccess (Some location) = Router.pathname location) /\
  (Router.pathname location = "" -> handleLoginSuccess (Some location) = "/") /\
  (forall other, Router.pathname other = Router.pathname location ->
                 handleLoginSuccess (Some other) = handleLoginSuccess (Some location)) /\
  handleLoginSuccess None = "/".
Proof.
  unfold ProtectedRoute, handleLoginSuccess, or_string. cbn [option_map].
  split; [|split; [|split; [|split; [|split; [|split]]]]].
  - split.
    + destruct loading, isAuth; cbn; intros H; try discriminate H; auto.
    + intros [-> ->]. reflexivity.
  - intros -> ->. reflexivity.
  - intros ->. reflexivity.
  - intros Hne. destruct (String.eqb_spec (Router.pathname location) "");
      [contradiction | reflexivity].
  - intros ->. reflexivity.
  - intros other ->. reflexivity.
  - reflexivity.
Qed.

End GuardFacts.

(** X10 on a visitor of "/leagues/7?week=3#scores": the guard keeps the
    whole location and the login leads back to "/leagues/7". *)
Lemma guard_round_trip_witness :
  let location := Router.mkLocation "/leagues/7" "?week=3" "#scores" in
  Auth.ProtectedRoute false false "/login" location = Auth.Navigate "/login" location /\
  Auth.handleLoginSuccess (Some location) = "/leagues/7" /\
  Auth.handleLoginSuccess (Some (Router.mkLocation "/leagues/7" "" "")) = "/leagues/7".
Proof.
  cbv zeta.
  destruct (guard_round_trip false false "/login"
              (Router.mkLocation "/leagues/7" "?week=3" "#scores"))
    as (_ & Hnav & _ & Hpath & _ & Hsame & _).
  split; [now apply Hnav|].
  split; [apply Hpath; discriminate|].
  rewrite (Hsame (Router.mkLocation "/leagues/7" "" "") eq_refl).
  apply Hpath. discriminate.
Defined.

(* ===================================================================== *)
(** * More facts: text extraction                                           *)
(* ===================================================================== *)

Section RegexFacts.

Import Utils Regex.
Local Open Scope N_scope.

Implicit Types (s : JSString) (class : N -> bool) (literal : list (N -> bool)).

Lemma takeRun_all class s : forallb class (takeRun class s) = true.
Proof.
  induction s as [|c s IH]; cbn; [reflexivity|].
  destruct (class c) eqn:E; cbn; [now rewrite E | reflexivity].
Qed.

(** The run is a prefix, and what follows it does not start in the class. *)
Lemma takeRun_split class s :
  exists rest, s = takeRun class s ++ rest /\
               match rest with c :: _ => class c = false | [] => True end.
Proof.
  induction s as [|c s (rest & IH & Hrest)]; cbn.
  - exists []. auto.
  - destruct (class c) eqn:E.
    + exists rest. cbn. split; [congruence | exact Hrest].
    + exists (c :: s). auto.
Qed.

(** Where the literal matches, the text starts with characters that pass
    its tests, one by one. *)
Lemma matchLiteral_split literal s rest :
  matchLiteral literal s = Some rest ->
  exists m, s = m ++ rest /\ Forall2 (fun p c => p c = true) literal m.
Proof.
  revert s. induction literal as [|p literal IH]; intros s; cbn.
  - intros [= <-]. exists []. auto.
  - destruct s as [|c s]; [discriminate|].
    destruct (p c) eqn:E; [|discriminate].
    intros H. destruct (IH s H) as (m & -> & Hm).
    exists (c :: m). auto.
Qed.

Lemma matchLiteral_matches literal m rest :
  Forall2 (fun p c => p c = true) literal m ->
  matchLiteral literal (m ++ rest) = Some rest.
Proof.
  induction 1 as [|p c literal m Hp _ IH]; cbn; [reflexivity|].
  now rewrite Hp.
Qed.

(** What a successful search found: a non-empty run of the class, right
    after the literal, as long as it can be. *)
Lemma search_sound literal class s capture :
  search literal class s = Some capture ->
  capture <> [] /\ forallb class capture = true /\
  exists before m rest,
    s = before ++ m ++ capture ++ rest /\
    Forall2 (fun p c => p c = true) literal m /\
    match rest with c :: _ => class c = false | [] => True end.
Proof.
  induction s as [|c0 s IH].
  - cbn [search]. unfold matchHere.
    destruct (matchLiteral literal []) as [r|] eqn:E; [|discriminate].
    destruct (matchLiteral_split _ _ _ E) as (m & Hs & Hm).
    destruct (takeRun_split class r) as (rest & Hr & Hrest).
    pose proof (takeRun_all class r) as Hall.
    destruct (takeRun class r) as [|k run] eqn:Er; [discriminate|].
    intros [= <-]. split; [discriminate|]. split; [exact Hall|].
    exists [], m, rest. cbn [app]. rewrite Hs at 1. rewrite Hr at 1. auto.
  - cbn [search]. unfold matchHere.
    destruct (matchLiteral literal (c0 :: s)) as [r|] eqn:E.
    + destruct (matchLiteral_split _ _ _ E) as (m & Hs & Hm).
      destruct (takeRun_split class r) as (rest & Hr & Hrest).
      pose proof (takeRun_all class r) as Hall.
      destruct (takeRun class r) as [|k run] eqn:Er.
      * intros H. destruct (IH H) as (Hne & Hc & before & m' & rest' & -> & Hm' & Hr').
        split; [exact Hne|]. split; [exact Hc|].
        exists (c0 :: before), m', rest'. auto.
      * intros [= <-]. split; [discriminate|]. split; [exact Hall|].
        exists [], m, rest. cbn [app]. rewrite Hs at 1. rewrite Hr at 1. auto.
    + intros H. destruct (IH H) as (Hne & Hc & before & m' & rest' & -> & Hm' & Hr').
      split; [exact Hne|]. split; [exact Hc|].
      exists (c0 :: before), m', rest'. auto.
Qed.

(** Wherever the literal stands before a character of the class, the
    search finds something. *)
Lemma search_complete literal class before m c rest :
  Forall2 (fun p c => p c = true) literal m -> class c = true ->
  search literal class (before ++ m ++ c :: rest) <> None.
Proof.
  intros Hm Hc. induction before as [|b before IH].
  - cbn [app]. destruct (m ++ c :: rest) as [|x xs] eqn:Es.
    + destruct m; discriminate.
    + cbn [search]. rewrite <- Es. unfold matchHere.
      rewrite (matchLiteral_matches _ _ _ Hm). cbn. rewrite Hc. discriminate.
  - cbn [app search].
    destruct (matchHere literal class (b :: before ++ m ++ c :: rest));
      [discriminate | exact IH].
Qed.

(** A search passes over a prefix in which no match starts. *)
Lemma search_skip literal class before rest :
  (forall b1 b2, before = b1 ++ b2 -> b2 <> [] ->
                 matchLiteral literal (b2 ++ rest) = None) ->
  search literal class (before ++ rest) = search literal class rest.
Proof.
  induction before as [|b before IH]; intros H; [reflexivity|].
  cbn [app search]. unfold matchHere.
  assert (H0 : matchLiteral literal ((b :: before) ++ rest) = None)
    by (apply (H [] (b :: before)); [reflexivity | discriminate]).
  cbn [app] in H0. rewrite H0.
  apply IH. intros b1 b2 -> Hne. apply (H (b :: b1) b2); [reflexivity | exact Hne].
Qed.

Lemma exactly_matches (text : string) (m : JSString) :
  Forall2 (fun p c => p c = true) (exactly text) m <-> m = units text.
Proof.
  unfold exactly. generalize (units text) as u. intros u. revert m.
  induction u as [|p u IH]; intros m; cbn.
  - split; [inversion 1; reflexivity | intros ->; constructor].
  - split.
    + inversion 1 as [|? c ? m' Hc Hm]; subst. apply N.eqb_eq in Hc. subst.
      f_equal. now apply IH.
    + intros ->. constructor; [apply N.eqb_refl | now apply IH].
Qed.

(** ** Trimming *)

Lemma trimStart_split s :
  exists blank, s = blank ++ trimStart s /\ forallb isStrWhiteSpaceChar blank = true.
Proof.
  induction s as [|c s (blank & IH & Hb)]; cbn.
  - exists []. auto.
  - destruct (isStrWhiteSpaceChar c) eqn:E.
    + exists (c :: blank). cbn. rewrite E, Hb. split; [congruence | reflexivity].
    + exists []. auto.
Qed.

Lemma trimStart_clean s :
  match s with c :: _ => isStrWhiteSpaceChar c = false | [] => True end ->
  trimStart s = s.
Proof. destruct s as [|c s]; cbn; [reflexivity | now intros ->]. Qed.

Lemma trimStart_head s :
  match trimStart s with c :: _ => isStrWhiteSpaceChar c = false | [] => True end.
Proof.
  induction s as [|c s IH]; cbn; [exact I|].
  destruct (isStrWhiteSpaceChar c) eqn:E; [exact IH | exact E].
Qed.

Lemma trimStart_In s c : In c (trimStart s) -> In c s.
Proof.
  destruct (trimStart_split s) as (blank & Hs & _). intros H.
  rewrite Hs. apply in_or_app. now right.
Qed.

Lemma trim_In s c : In c (trim s) -> In c s.
Proof.
  unfold trim. intros H. apply in_rev in H. apply trimStart_In in H.
  apply in_rev in H. now apply trimStart_In.
Qed.

(** A trimmed string starts and ends with something that is not white
    space, so trimming it again changes nothing. *)
Lemma trim_idempotent s : trim (trim s) = trim s.
Proof.
  unfold trim.
  set (t := trimStart s).
  destruct (trimStart_split (rev t)) as (blank & Hrev & _).
  set (e := trimStart (rev t)) in *.
  assert (Ht : t = rev e ++ rev blank).
  { rewrite <- (rev_involutive t), Hrev, rev_app_distr. reflexivity. }
  assert (Hclean : trimStart (rev e) = rev e).
  { apply trimStart_clean. pose proof (trimStart_head s) as Hh. fold t in Hh.
    rewrite Ht in Hh. destruct (rev e); [exact I | exact Hh]. }
  rewrite Hclean, rev_involutive.
  subst e. rewrite (trimStart_clean (trimStart (rev t))) by apply trimStart_head.
  reflexivity.
Qed.

End RegexFacts.

Section LeagueConnectFacts.

Import Utils Regex LeagueConnectPage.
Local Open Scope N_scope.

(** X11. [extractLeagueIdFromUrl] returns either the empty string or a run
    of decimal digits that stands in the URL right after "leagueId=" and
    is not followed by another digit; and it does return such a run
    whenever the URL has "leagueId=" followed by a digit somewhere. *)
Theorem extractLeagueIdFromUrl_spec (url : JSString) :
  (extractLeagueIdFromUrl url = [] \/
   (forallb isDecimalDigit (extractLeagueIdFromUrl url) = true /\
    exists before rest,
      url = before ++ units "leagueId=" ++ extractLeagueIdFromUrl url ++ rest /\
      startsWithDigit rest = false)) /\
  (forall before d rest,
     isDecimalDigit d = true -> url = before ++ units "leagueId=" ++ d :: rest ->
     extractLeagueIdFromUrl url <> []).
Proof.
  unfold extractLeagueIdFromUrl. split.
  - destruct (search (exactly "leagueId=") isDecimalDigit url) as [id|] eqn:E;
      [|left; reflexivity].
    right. destruct (search_sound _ _ _ _ E)
      as (_ & Hall & before & m & rest & Hurl & Hm & Hrest).
    apply exactly_matches in Hm. subst m.
    split; [exact Hall|]. exists before, rest. split; [exact Hurl|].
    destruct rest as [|c rest]; [reflexivity | exact Hrest].
  - intros before d rest Hd ->.
    pose proof (search_complete (exactly "leagueId=") isDecimalDigit before
                  (units "leagueId=") d rest) as H.
    destruct (search (exactly "leagueId=") isDecimalDigit
                (before ++ units "leagueId=" ++ d :: rest)) as [id|] eqn:E.
    + destruct (search_sound _ _ _ _ E) as (Hne & _). exact Hne.
    + exfalso. apply H; [now apply exactly_matches | exact Hd | reflexivity].
Qed.

Lemma parseInt10_digits (ds : JSString) :
  ds <> [] -> forallb isDecimalDigit ds = true ->
  parseInt10 ds = Some (Z.of_N (decimalValue ds)).
Proof.
  intros Hne Hds. destruct ds as [|d ds]; [contradiction|].
  pose proof Hds as Hall. cbn in Hds. apply andb_true_iff in Hds as [Hd _].
  pose proof (decimal_digit_not_sign d Hd) as Hnosign.
  unfold parseInt10. rewrite (trimStart_digit d _ Hd).
  unfold signOf, dropSign. rewrite Hnosign.
  apply orb_false_iff in Hnosign as [_ ->].
  rewrite <- (app_nil_r (d :: ds)) at 1.
  rewrite readDigits_decimal by (assumption || discriminate || reflexivity).
  unfold decimalValue. f_equal. lia.
Qed.

(** X12. The id that pasting a URL puts into the field is a non-empty run
    of digits. The schema accepts it exactly when the number it denotes is
    not 0, and refuses it otherwise with the issue "League ID must be a
    valid number". As long as the number is at most 2^53, the range in
    which [parseInt] rounds nothing, the value the schema yields is that
    number itself. *)
Theorem pasted_id_passes_schema (pastedText id : JSString) :
  handleUrlPaste pastedText = Some id ->
  id <> [] /\ forallb isDecimalDigit id = true /\
  (decimalValue id = 0 ->
   league_id_schema id = inr "League ID must be a valid number"%string) /\
  (0 < decimalValue id -> exists n, league_id_schema id = inl n /\ (0 < n)%Z) /\
  (0 < decimalValue id -> decimalValue id <= 2 ^ 53 ->
   league_id_schema id = inl (Z.of_N (decimalValue id))).
Proof.
  unfold handleUrlPaste. intros H.
  assert (Hall : forallb isDecimalDigit (extractLeagueIdFromUrl pastedText) = true).
  { unfold extractLeagueIdFromUrl.
    destruct (search (exactly "leagueId=") isDecimalDigit pastedText) as [x|] eqn:E;
      [|reflexivity].
    now destruct (search_sound _ _ _ _ E) as (_ & Hx & _). }
  destruct (extractLeagueIdFromUrl pastedText) as [|c cs] eqn:E; [discriminate|].
  injection H as <-.
  split; [discriminate|]. split; [exact Hall|].
  assert (Hschema : league_id_schema (c :: cs) =
                    if (0 <? decimalValue (c :: cs))
                    then inl (Z.of_N (decimalValue (c :: cs)))
                    else inr "League ID must be a valid number"%string).
  { unfold league_id_schema.
    rewrite (parseInt10_digits (c :: cs)) by (discriminate || exact Hall).
    cbn [isNaN gt0 negb andb].
    destruct (N.ltb_spec 0 (decimalValue (c :: cs))) as [Hpos|Hzero].
    - destruct (Z.ltb_spec 0 (Z.of_N (decimalValue (c :: cs)))); [reflexivity | lia].
    - destruct (Z.ltb_spec 0 (Z.of_N (decimalValue (c :: cs)))); [lia | reflexivity]. }
  rewrite Hschema. split; [|split].
  - intros ->. reflexivity.
  - intros Hpos. apply N.ltb_lt in Hpos as Hb. rewrite Hb.
    eexists. split; [reflexivity | lia].
  - intros Hpos _. apply N.ltb_lt in Hpos. now rewrite Hpos.
Qed.

Lemma readDigits_zero_x (c1 : N) (rest : JSString) :
  (c1 =? 0x78) || (c1 =? 0x58) = true ->
  readDigits 10 (0x30 :: c1 :: rest) false 0 = Some 0.
Proof.
  intros H. cbn [readDigits].
  change (radixDigit 10 0x30) with (Some 0).
  rewrite radixDigit_not_decimal; [reflexivity|].
  apply orb_true_iff in H as [H|H]; apply N.eqb_eq in H; subst; reflexivity.
Qed.

(** X13. Whatever the schema of the connect form accepts as a league id,
    [isValidESPNLeagueId] accepts too, and [parseInt] without a radix
    reads the same number from it. The converse fails: "0x1F" is valid for
    [isValidESPNLeagueId], which reads it as hexadecimal, and is refused
    by the schema, which reads 0. *)
Theorem schema_is_stricter_than_isValid (val : JSString) (id : Z) :
  league_id_schema val = inl id ->
  (isValidESPNLeagueId val = true /\ parseInt val = Some id /\ (0 < id)%Z) /\
  (isValidESPNLeagueId (units "0x1F") = true /\
   league_id_schema (units "0x1F") = inr "League ID must be a valid number"%string).
Proof.
  intros H. split; [|split; reflexivity].
  unfold league_id_schema in H. destruct val as [|c cs]; [discriminate|].
  destruct (parseInt10 (c :: cs)) as [n|] eqn:E; [|discriminate].
  cbn [isNaN gt0 negb andb] in H.
  destruct (Z.ltb_spec 0 n) as [Hpos|]; [|discriminate].
  injection H as <-.
  assert (Hp : parseInt (c :: cs) = Some n).
  { unfold parseInt10 in E. unfold parseInt.
    set (u := dropSign (trimStart (c :: cs))) in *.
    assert (Hr : radixAndBody u = (10, u)).
    { unfold radixAndBody. destruct u as [|c0 [|c1 rest]]; try reflexivity.
      destruct ((c0 =? 0x30) && ((c1 =? 0x78) || (c1 =? 0x58))) eqn:Ex; [|reflexivity].
      exfalso. apply andb_true_iff in Ex as [E0 Ex]. apply N.eqb_eq in E0. subst c0.
      rewrite (readDigits_zero_x c1 rest Ex) in E. injection E as <-. lia. }
    rewrite Hr. exact E. }
  split; [|split; [exact Hp | exact Hpos]].
  apply isValidESPNLeagueId_iff. exists n. auto.
Qed.

Lemma trimmedIfAny_Some (field : option JSString) (sent : JSString) :
  trimmedIfAny field = Some sent ->
  sent <> [] /\ trim sent = sent /\ exists typed, field = Some typed /\ sent = trim typed.
Proof.
  unfold trimmedIfAny. intros H.
  destruct field as [typed|]; [|discriminate].
  destruct (trim typed) as [|c cs] eqn:E; [discriminate|].
  injection H as <-. split; [discriminate|].
  split; [rewrite <- E; apply trim_idempotent|]. exists typed. auto.
Qed.

Lemma trimmedIfAny_None (field : option JSString) :
  trimmedIfAny field = None <->
  field = None \/ exists blank, field = Some blank /\ trim blank = [].
Proof.
  unfold trimmedIfAny. destruct field as [typed|].
  - destruct (trim typed) as [|c cs] eqn:E; split.
    + intros _. right. now exists typed.
    + reflexivity.
    + discriminate.
    + intros [H | (blank & [= <-] & H)]; [discriminate | congruence].
  - split; [now left | reflexivity].
Qed.

(** X16. The connection request never carries an empty or padded cookie.
    For each of the two cookie fields, [espn_s2] and [espn_swid]: a field
    that is sent is the trimmed form of what was typed in that field and is
    not empty, and a field is left out of the request exactly when nothing
    was typed in it or what was typed holds only white space. The league
    id is sent as it is. *)
Theorem connection_cookies_are_trimmed (id : Z) (s2 swid : option JSString) :
  let data := connectionData id s2 swid in
  (forall sent, espn_s2 data = Some sent ->
     sent <> [] /\ trim sent = sent /\ exists typed, s2 = Some typed /\ sent = trim typed) /\
  (forall sent, espn_swid data = Some sent ->
     sent <> [] /\ trim sent = sent /\ exists typed, swid = Some typed /\ sent = trim typed) /\
  (espn_s2 data = None <->
   s2 = None \/ exists blank, s2 = Some blank /\ trim blank = []) /\
  (espn_swid data = None <->
   swid = None \/ exists blank, swid = Some blank /\ trim blank = []) /\
  league_id data = id.
Proof.
  cbv zeta. unfold connectionData. cbn [espn_s2 espn_swid league_id].
  split; [apply trimmedIfAny_Some|].
  split; [apply trimmedIfAny_Some|].
  split; [apply trimmedIfAny_None|].
  split; [apply trimmedIfAny_None | reflexivity].
Qed.

End LeagueConnectFacts.

(** X12 on a league URL. *)
Lemma pasted_id_passes_schema_witness :
  let id := Utils.units "123456" in
  id <> [] /\ forallb Utils.isDecimalDigit id = true /\
  LeagueConnectPage.league_id_schema id = inl 123456%Z.
Proof.
  cbv zeta.
  destruct (pasted_id_passes_schema
              (Utils.units
                 "https://fantasy.espn.com/football/league?leagueId=123456&seasonId=2024")
              (Utils.units "123456") eq_refl) as (H1 & H2 & _ & _ & H3).
  split; [exact H1|]. split; [exact H2|].
  apply H3; vm_compute; [reflexivity | discriminate].
Defined.

(** X13 on " 42". *)
Lemma schema_is_stricter_than_isValid_witness :
  (Utils.isValidESPNLeagueId (Utils.units " 42") = true /\
   Utils.parseInt (Utils.units " 42") = Some 42%Z /\ (0 < 42)%Z) /\
  (Utils.isValidESPNLeagueId (Utils.units "0x1F") = true /\
   LeagueConnectPage.league_id_schema (Utils.units "0x1F")
   = inr "League ID must be a valid number"%string).
Proof.
  apply (schema_is_stricter_than_isValid (Utils.units " 42") 42). reflexivity.
Defined.

(** X16 on two cookies typed with blanks around them. *)
Lemma connection_cookies_are_trimmed_witness :
  let data := LeagueConnectPage.connectionData 42
                (Some (Utils.units "  AEBx%2F ")) (Some (Utils.units " {1A2B} ")) in
  LeagueConnectPage.espn_s2 data = Some (Utils.units "AEBx%2F") /\
  LeagueConnectPage.espn_swid data = Some (Utils.units "{1A2B}") /\
  LeagueConnectPage.espn_swid (LeagueConnectPage.connectionData 42 None (Some (Utils.units "  ")))
  = None.
Proof.
  cbv zeta.
  destruct (connection_cookies_are_trimmed 42
              (Some (Utils.units "  AEBx%2F ")) (Some (Utils.units " {1A2B} ")))
    as (H1 & H2 & _).
  destruct (connection_cookies_are_trimmed 42 None (Some (Utils.units "  ")))
    as (_ & _ & _ & H3 & _).
  split; [|split].
  - destruct (LeagueConnectPage.espn_s2 _) as [sent|] eqn:E; [|discriminate E].
    destruct (H1 sent eq_refl) as (_ & _ & typed & [= <-] & ->). reflexivity.
  - destruct (LeagueConnectPage.espn_swid _) as [sent|] eqn:E; [|discriminate E].
    destruct (H2 sent eq_refl) as (_ & _ & typed & [= <-] & ->). reflexivity.
  - apply H3. right. exists (Utils.units "  "). split; reflexivity.
Defined.

Section CookieFacts.

Import Utils Regex Cookies.
Local Open Scope N_scope.

Lemma asciiUpper_equals (c : N) : (asciiUpper c =? 0x3D) = true -> c = 0x3D.
Proof.
  unfold asciiUpper. intros H. apply N.eqb_eq in H.
  destruct ((0x61 <=? c) && (c <=? 0x7A)) eqn:E; [|exact H].
  apply andb_true_iff in E as [H1 H2]. apply N.leb_le in H1, H2. lia.
Qed.

(** Both cookie patterns end in "=": a match contains one. *)
Lemma espn_s2_literal_equals (m : JSString) :
  Forall2 (fun p c => p c = true) (ignoringCase "espn_s2=") m -> In 0x3D m.
Proof.
  change (ignoringCase "espn_s2=")
    with (ignoringCase "espn_s2" ++ [fun c => asciiUpper c =? 0x3D]).
  intros H. apply Forall2_app_inv_l in H as (m1 & m2 & _ & H2 & ->).
  inversion H2 as [|? c ? ? Hc Hnil]; subst. inversion Hnil; subst.
  apply asciiUpper_equals in Hc. subst. apply in_or_app. right. now left.
Qed.

Lemma swid_literal_shape (s rest : JSString) :
  matchLiteral (ignoringCase "SWID=") s = Some rest ->
  exists c0 c1 c2 c3, s = c0 :: c1 :: c2 :: c3 :: 0x3D :: rest.
Proof.
  intros H. destruct (matchLiteral_split _ _ _ H) as (m & -> & Hm).
  change (ignoringCase "SWID=")
    with (ignoringCase "SWID" ++ [fun c => asciiUpper c =? 0x3D]) in Hm.
  apply Forall2_app_inv_l in Hm as (m1 & m2 & H1 & H2 & ->).
  inversion H2 as [|? c ? ? Hc Hnil]; subst. inversion Hnil; subst.
  apply asciiUpper_equals in Hc. subst.
  cbn in H1.
  inversion H1 as [|? c0 ? t0 _ H1']; subst.
  inversion H1' as [|? c1 ? t1 _ H1'']; subst.
  inversion H1'' as [|? c2 ? t2 _ H1''']; subst.
  inversion H1''' as [|? c3 ? t3 _ H1'''']; subst.
  inversion H1''''; subst.
  exists c0, c1, c2, c3. reflexivity.
Qed.

Lemma swid_literal_equals (m : JSString) :
  Forall2 (fun p c => p c = true) (ignoringCase "SWID=") m -> In 0x3D m.
Proof.
  change (ignoringCase "SWID=")
    with (ignoringCase "SWID" ++ [fun c => asciiUpper c =? 0x3D]).
  intros H. apply Forall2_app_inv_l in H as (m1 & m2 & _ & H2 & ->).
  inversion H2 as [|? c ? ? Hc Hnil]; subst. inversion Hnil; subst.
  apply asciiUpper_equals in Hc. subst. apply in_or_app. right. now left.
Qed.

Lemma forallb_In (class : N -> bool) (s : JSString) (c : N) :
  forallb class s = true -> In c s -> class c = true.
Proof. intros H Hin. exact (proj1 (forallb_forall class s) H c Hin). Qed.

(** A text without "=" has no cookie to find. *)
Lemma search_without_equals (literal : list (N -> bool)) (text : JSString) :
  (forall m, Forall2 (fun p c => p c = true) literal m -> In 0x3D m) ->
  forallb notEquals text = true ->
  search literal notSemicolon text = None.
Proof.
  intros Hlit Hno.
  destruct (search literal notSemicolon text) as [capture|] eqn:E; [|reflexivity].
  destruct (search_sound _ _ _ _ E) as (_ & _ & before & m & rest & -> & Hm & _).
  exfalso. pose proof (Hlit m Hm) as Hin.
  assert (Hc : notEquals 0x3D = true).
  { apply (forallb_In notEquals _ _ Hno).
    apply in_or_app. right. apply in_or_app. now left. }
  discriminate Hc.
Qed.

Lemma trim_keeps_class (class : N -> bool) (s : JSString) :
  forallb class s = true -> forallb class (trim s) = true.
Proof.
  intros H. apply forallb_forall. intros c Hc.
  apply (forallb_In class s c H). now apply trim_In.
Qed.

(** X14. Whatever the cookie text, a value that [extractESPNCookies] finds
    holds no ";" and has no white space at its ends; and from a text
    without any "=" it finds neither cookie. *)
Theorem extracted_cookies_are_clean (cookieText other value : JSString) :
  espn_s2 (extractESPNCookies cookieText) = Some value \/
  swid (extractESPNCookies cookieText) = Some value ->
  forallb notEquals other = true ->
  (forallb notSemicolon value = true /\ trim value = value) /\
  extractESPNCookies other = mkCookies None None.
Proof.
  intros Hfound Hno. split.
  - assert (Hgen : forall literal,
              option_map trim (search literal notSemicolon cookieText) = Some value ->
              forallb notSemicolon value = true /\ trim value = value).
    { intros literal H.
      destruct (search literal notSemicolon cookieText) as [capture|] eqn:E;
        [|discriminate].
      injection H as <-.
      destruct (search_sound _ _ _ _ E) as (_ & Hall & _).
      split; [now apply trim_keeps_class | apply trim_idempotent]. }
    unfold extractESPNCookies in Hfound. cbn [espn_s2 swid] in Hfound.
    destruct Hfound as [H|H]; exact (Hgen _ H).
  - unfold extractESPNCookies.
    rewrite (search_without_equals _ _ espn_s2_literal_equals Hno).
    rewrite (search_without_equals _ _ swid_literal_equals Hno).
    reflexivity.
Qed.

Lemma takeRun_stop (class : N -> bool) (run : JSString) (c : N) (rest : JSString) :
  forallb class run = true -> class c = false ->
  takeRun class (run ++ c :: rest) = run.
Proof.
  intros Hrun Hc. induction run as [|x run IH]; cbn.
  - now rewrite Hc.
  - cbn in Hrun. apply andb_true_iff in Hrun as [Hx Hrun].
    now rewrite Hx, IH.
Qed.

Lemma takeRun_whole (class : N -> bool) (run : JSString) :
  forallb class run = true -> takeRun class run = run.
Proof.
  intros Hrun. induction run as [|x run IH]; cbn; [reflexivity|].
  cbn in Hrun. apply andb_true_iff in Hrun as [Hx Hrun].
  now rewrite Hx, IH.
Qed.

Lemma search_step (literal : list (N -> bool)) (class : N -> bool) (c : N) (s : JSString) :
  matchLiteral literal (c :: s) = None ->
  search literal class (c :: s) = search literal class s.
Proof. intros H. cbn [search]. unfold matchHere. now rewrite H. Qed.

Lemma search_here (literal : list (N -> bool)) (class : N -> bool) (m : JSString)
    (c : N) (run tail : JSString) :
  Forall2 (fun p c => p c = true) literal m ->
  forallb class (c :: run) = true ->
  match tail with x :: _ => class x = false | [] => True end ->
  search literal class (m ++ (c :: run) ++ tail) = Some (c :: run).
Proof.
  intros Hm Hrun Htail.
  assert (Htake : takeRun class ((c :: run) ++ tail) = c :: run).
  { destruct tail as [|x tail].
    - rewrite app_nil_r. now apply takeRun_whole.
    - now apply takeRun_stop. }
  destruct (m ++ (c :: run) ++ tail) as [|y ys] eqn:Es.
  { destruct m; discriminate. }
  cbn [search]. rewrite <- Es. unfold matchHere.
  rewrite (matchLiteral_matches _ _ _ Hm), Htake. reflexivity.
Qed.

(** X15. From the header "espn_s2=<a>; SWID=<b>", where neither value is
    empty or holds a ";" and <a> holds no "=", [extractESPNCookies]
    returns the two values, trimmed. *)
Theorem cookie_header_round_trip (a b : JSString) :
  a <> [] -> b <> [] ->
  forallb notSemicolon a = true -> forallb notSemicolon b = true ->
  forallb notEquals a = true ->
  extractESPNCookies (units "espn_s2=" ++ a ++ units "; SWID=" ++ b)
  = mkCookies (Some (trim a)) (Some (trim b)).
Proof.
  intros Ha Hb Hsa Hsb Hea.
  destruct a as [|a0 a]; [contradiction|].
  destruct b as [|b0 b]; [contradiction|].
  unfold extractESPNCookies. f_equal.
  - (* espn_s2: the match starts at the first character *)
    change (units "; SWID=" ++ b0 :: b) with (0x3B :: units " SWID=" ++ b0 :: b).
    rewrite (search_here (ignoringCase "espn_s2=") notSemicolon (units "espn_s2=")
               a0 a (0x3B :: units " SWID=" ++ b0 :: b));
      [reflexivity | repeat constructor | exact Hsa | reflexivity].
  - (* SWID: nothing matches before it *)
    change (units "espn_s2=" ++ (a0 :: a) ++ units "; SWID=" ++ b0 :: b)
      with (0x65 :: 0x73 :: 0x70 :: 0x6E :: 0x5F :: 0x73 :: 0x32 :: 0x3D ::
            (a0 :: a) ++ units "; SWID=" ++ b0 :: b).
    do 8 (rewrite search_step by reflexivity).
    replace ((a0 :: a) ++ units "; SWID=" ++ b0 :: b)
      with (((a0 :: a) ++ units "; ") ++ units "SWID=" ++ (b0 :: b) ++ [])
      by (rewrite <- !app_assoc, app_nil_r; reflexivity).
    rewrite search_skip.
    + rewrite (search_here (ignoringCase "SWID=") notSemicolon (units "SWID=")
                 b0 b []); [reflexivity | repeat constructor | exact Hsb | exact I].
    + intros b1 b2 Hsplit Hne.
      destruct (matchLiteral (ignoringCase "SWID=")
                  (b2 ++ units "SWID=" ++ (b0 :: b) ++ [])) as [r|] eqn:E;
        [|reflexivity].
      exfalso. destruct (swid_literal_shape _ _ E) as (c0 & c1 & c2 & c3 & Hshape).
      assert (Hno : forallb notEquals b2 = true).
      { apply forallb_forall. intros c Hc.
        assert (Hin : In c ((a0 :: a) ++ units "; ")).
        { rewrite Hsplit. apply in_or_app. now right. }
        apply in_app_or in Hin as [Hin|Hin].
        - exact (forallb_In notEquals _ _ Hea Hin).
        - change (units "; ") with [0x3B; 0x20] in Hin. cbn [In] in Hin.
          destruct Hin as [<-|[<-|Hf]]; [reflexivity | reflexivity | destruct Hf]. }
      destruct b2 as [|x1 [|x2 [|x3 [|x4 [|x5 b2']]]]]; try contradiction;
        cbn in Hshape; try (injection Hshape; intros; discriminate).
      injection Hshape as _ _ _ _ Hx5 _.
      cbn [forallb] in Hno. rewrite !andb_true_iff in Hno.
      destruct Hno as (_ & _ & _ & _ & Hx & _). subst x5. discriminate Hx.
Qed.

End CookieFacts.

(** X14 on a header with blanks, and on a text without "=". *)
Lemma extracted_cookies_are_clean_witness :
  (forallb Cookies.notSemicolon (Utils.units "AEB123") = true /\
   Regex.trim (Utils.units "AEB123") = Utils.units "AEB123") /\
  Cookies.extractESPNCookies (Utils.units "no cookies here") = Cookies.mkCookies None None.
Proof.
  apply (extracted_cookies_are_clean (Utils.units "Cookie: ESPN_S2= AEB123 ; swid={1-2}")
           (Utils.units "no cookies here") (Utils.units "AEB123")).
  - left. reflexivity.
  - reflexivity.
Defined.

(** X15 on a short header. *)
Lemma cookie_header_round_trip_witness :
  Cookies.extractESPNCookies
    (Utils.units "espn_s2=" ++ Utils.units "AEB%2F123" ++ Utils.units "; SWID="
     ++ Utils.units "{A1-B2}")
  = Cookies.mkCookies (Some (Regex.trim (Utils.units "AEB%2F123")))
                      (Some (Regex.trim (Utils.units "{A1-B2}"))).
Proof.
  apply (cookie_header_round_trip (Utils.units "AEB%2F123") (Utils.units "{A1-B2}"));
    (discriminate || reflexivity).
Defined.

(* ===================================================================== *)
(** * More facts: the win percentage of whole records                       *)
(* ===================================================================== *)

Section RecordFacts.

Import Utils Records.

Lemma records_mirrored : onEveryRecord mirrored (counts 100) = true.
Proof. vm_compute. reflexivity. Qed.

Lemma records_evenAt50 : onEveryRecord evenAt50 (counts 100) = true.
Proof. vm_compute. reflexivity. Qed.

Lemma records_monotone : onEveryRecord monotone (counts 100) = true.
Proof. vm_compute. reflexivity. Qed.

(** X17. For whole records of at most 100 wins, losses and ties in which a
    game has been played, the percentages of two mirrored records (the
    wins of one are the losses of the other) add up to 100 within one unit
    in the last place, 2^-46; they need not add up to 100 itself, as 1-2-0
    and 2-1-0 show. A record with as many wins as losses stands at 50
    itself, whatever its ties. *)
Theorem mirrored_records_add_up_within_an_ulp (wins losses ties : nat) :
  (wins <= 100)%nat -> (losses <= 100)%nat -> (ties <= 100)%nat ->
  (wins + losses + ties <> 0)%nat ->
  let w := ofNat wins in
  let l := ofNat losses in
  let t := ofNat ties in
  (abs (getWinPercentage w l t + getWinPercentage l w t - 100) <=? ulp100)%float = true /\
  ((wins + ties <> 0)%nat -> (getWinPercentage w w t =? 50)%float = true) /\
  (getWinPercentage 1 2 0 + getWinPercentage 2 1 0 =? 100)%float = false.
Proof.
  intros Hw Hl Ht Hne. cbv zeta. split; [|split].
  - pose proof (onEveryRecord_spec _ _ records_mirrored
                  (ofNat wins) (ofNat losses) (ofNat ties)
                  (ofNat_counts _ _ Hw) (ofNat_counts _ _ Hl) (ofNat_counts _ _ Ht)) as H.
    unfold mirrored in H. rewrite (record_played wins losses ties) in H by assumption.
    exact H.
  - intros Hwt.
    pose proof (onEveryRecord_spec _ _ records_evenAt50
                  (ofNat wins) (ofNat losses) (ofNat ties)
                  (ofNat_counts _ _ Hw) (ofNat_counts _ _ Hl) (ofNat_counts _ _ Ht)) as H.
    unfold evenAt50 in H. rewrite (record_played wins wins ties) in H by (assumption || lia).
    exact H.
  - reflexivity.
Qed.

(** X18. For whole records of at most 100 wins, losses and ties, one more
    win ([wins + 1]) never lowers the percentage and one more loss never
    raises it. *)
Theorem a_win_never_lowers_the_percentage (wins losses ties : nat) :
  (wins <= 100)%nat -> (losses <= 100)%nat -> (ties <= 100)%nat ->
  let w := ofNat wins in
  let l := ofNat losses in
  let t := ofNat ties in
  (getWinPercentage w l t <=? getWinPercentage (w + 1) l t)%float = true /\
  (getWinPercentage w (l + 1) t <=? getWinPercentage w l t)%float = true.
Proof.
  intros Hw Hl Ht. cbv zeta.
  pose proof (onEveryRecord_spec _ _ records_monotone
                (ofNat wins) (ofNat losses) (ofNat ties)
                (ofNat_counts _ _ Hw) (ofNat_counts _ _ Hl) (ofNat_counts _ _ Ht)) as H.
  unfold monotone in H. now apply andb_true_iff in H.
Qed.

End RecordFacts.

(** X17 on 7-5-1 and its mirror 5-7-1. *)
Lemma mirrored_records_add_up_within_an_ulp_witness :
  (abs (Utils.getWinPercentage 7 5 1 + Utils.getWinPercentage 5 7 1 - 100)
   <=? Records.ulp100)%float = true /\
  (Utils.getWinPercentage 7 7 1 =? 50)%float = true.
Proof.
  destruct (mirrored_records_add_up_within_an_ulp 7 5 1) as (H1 & H2 & _);
    [lia | lia | lia | lia |].
  split; [exact H1 | apply H2; lia].
Defined.

(** X18 on 7-5-1. *)
Lemma a_win_never_lowers_the_percentage_witness :
  (Utils.getWinPercentage 7 5 1 <=? Utils.getWinPercentage (7 + 1) 5 1)%float = true /\
  (Utils.getWinPercentage 7 (5 + 1) 1 <=? Utils.getWinPercentage 7 5 1)%float = true.
Proof.
  apply (a_win_never_lowers_the_percentage 7 5 1); lia.
Defined.

(* ===================================================================== *)
(** * More facts: matchup cards and the current matchup                     *)
(* ===================================================================== *)

Section CardFacts.

Import Api MatchupCard.

Variable trim : string -> string.

(** X19. A team always has a name on the card. It is the name of the
    matchup when it has one. Otherwise it is the trimmed form of location,
    a blank and nickname (a missing one counting as empty), when that is
    not empty, and "Team" when it is. In no case is it the empty string. *)
Theorem team_name_is_never_empty (name location nickname : option string) :
  let trimmed := trim (or_string location "" +:+ " " +:+ or_string nickname "") in
  teamName trim name location nickname <> "" /\
  (forall n, name = Some n -> n <> "" -> teamName trim name location nickname = n) /\
  (name = None \/ name = Some "" -> trimmed <> "" ->
   teamName trim name location nickname = trimmed) /\
  (name = None \/ name = Some "" -> trimmed = "" ->
   teamName trim name location nickname = "Team").
Proof.
  cbv zeta. unfold teamName. split; [|split; [|split]].
  - apply or_string_default_nonempty, or_string_default_nonempty. discriminate.
  - intros n -> Hn. cbn. destruct (String.eqb_spec n ""); [contradiction | reflexivity].
  - intros Hname Hne.
    assert (E : forall x, or_string name x = x)
      by (intros x; destruct Hname as [-> | ->]; reflexivity).
    rewrite E. unfold or_string at 1.
    destruct (String.eqb_spec
                (trim (or_string location "" +:+ " " +:+ or_string nickname "")) "");
      [contradiction | reflexivity].
  - intros [-> | ->] ->; reflexivity.
Qed.

(** X20. The green style marks the user's own win and nothing else: a side
    gets it exactly when it won and is the user's team; a winning side
    that is not the user's gets the blue one; the side that lost, and both
    sides of a tie, get the dimmed grey one. *)
Theorem winner_styles (m : Matchup) (userTeamId : option Z) (isHome : bool) :
  let side := if isHome then HOME else AWAY in
  let team := if isHome then home_team_id m else away_team_id m in
  (getWinnerStyle m userTeamId isHome = "bg-green-50 border-green-200" <->
   winner m = side /\ userTeamId = Some team) /\
  (getWinnerStyle m userTeamId isHome = "bg-blue-50 border-blue-200" <->
   winner m = side /\ userTeamId <> Some team) /\
  (getWinnerStyle m userTeamId isHome = "bg-gray-50 border-gray-200 opacity-75" <->
   winner m <> side /\ winner m <> UNDECIDED) /\
  (winner m = TIE ->
   getWinnerStyle m userTeamId true = getWinnerStyle m userTeamId false).
Proof.
  cbn zeta. unfold getWinnerStyle. cbn zeta.
  destruct userTeamId as [u|].
  - destruct (Z.eqb_spec u (if isHome then home_team_id m else away_team_id m)) as [E|E];
      destruct (winner m), isHome; cbn;
      (repeat split; try congruence; try tauto;
       try (intros [? ?]; congruence); try (intros [? ?]; contradiction)).
  - destruct (winner m), isHome; cbn;
      (repeat split; try congruence; try tauto;
       try (intros [? ?]; congruence); try (intros [? ?]; contradiction)).
Qed.

End CardFacts.

Section FavoriteFacts.

Import Favorites.
Local Open Scope Q_scope.

Lemma gt_spec (a b : Q) : gt a b = true <-> b < a.
Proof.
  unfold gt. rewrite negb_true_iff. split.
  - intros H. apply Qnot_le_lt. intros Hle. apply Qle_bool_iff in Hle. congruence.
  - intros H. destruct (Qle_bool a b) eqn:E; [|reflexivity].
    apply Qle_bool_iff in E. lra.
Qed.

(** X21. At most one side of a card carries the favourite's star. A side
    carries it exactly when its projection is positive and greater than
    the other one, so a starred side always shows its projection, and
    with equal projections (two missing ones among them) there is no
    star. *)
Theorem at_most_one_favorite (home away : option Q) :
  (homeFavorite home away && awayFavorite home away = false) /\
  (homeFavorite home away = true <->
   orZero away < orZero home /\ 0 < orZero home) /\
  (awayFavorite home away = true <->
   orZero home < orZero away /\ 0 < orZero away) /\
  (homeFavorite home away = true -> showsProjection (homeProjected home) = true) /\
  (orZero home == orZero away ->
   homeFavorite home away = false /\ awayFavorite home away = false).
Proof.
  unfold homeFavorite, awayFavorite, showsProjection, homeProjected, awayProjected.
  set (h := orZero home). set (a := orZero away).
  assert (Hh : gt h a && gt h 0 = true <-> a < h /\ 0 < h)
    by (rewrite andb_true_iff, !gt_spec; tauto).
  assert (Ha : gt a h && gt a 0 = true <-> h < a /\ 0 < a)
    by (rewrite andb_true_iff, !gt_spec; tauto).
  split; [|split; [exact Hh | split; [exact Ha | split]]].
  - apply not_true_iff_false. intros H.
    apply andb_true_iff in H as [H1 H2]. apply Hh in H1. apply Ha in H2. lra.
  - intros H. apply Hh in H. apply gt_spec. tauto.
  - intros Heq. split; apply not_true_iff_false; intros H.
    + apply Hh in H. lra.
    + apply Ha in H. lra.
Qed.

End FavoriteFacts.

Section HookFacts.

Import MatchupCard MatchupsHook.
Local Open Scope Z_scope.

Context {Score : Type}.
Variable home_score away_score : Matchup -> Score.

Lemma find_matchup_some (matchups : list Matchup) (team : Z) (m : Matchup) :
  find_matchup matchups team = Some m ->
  In m matchups /\ (home_team_id m = team \/ away_team_id m = team).
Proof.
  induction matchups as [|x rest IH]; cbn; [discriminate|].
  destruct ((home_team_id x =? team) || (away_team_id x =? team)) eqn:E.
  - intros [= <-]. split; [now left|].
    apply orb_true_iff in E as [E|E]; apply Z.eqb_eq in E; auto.
  - intros H. destruct (IH H) as [Hin Hm]. split; [now right | exact Hm].
Qed.

Lemma find_matchup_none (matchups : list Matchup) (team : Z) :
  find_matchup matchups team = None <->
  forall m, In m matchups -> home_team_id m <> team /\ away_team_id m <> team.
Proof.
  induction matchups as [|x rest IH]; cbn.
  - split; [intros _ m [] | reflexivity].
  - destruct ((home_team_id x =? team) || (away_team_id x =? team)) eqn:E.
    + split; [discriminate|]. intros H. exfalso.
      destruct (H x (or_introl eq_refl)) as [H1 H2].
      apply orb_true_iff in E as [E|E]; apply Z.eqb_eq in E; contradiction.
    + apply orb_false_iff in E as [E1 E2]. apply Z.eqb_neq in E1, E2.
      rewrite IH. split.
      * intros H m [<-|Hin]; [auto | exact (H m Hin)].
      * intros H m Hin. apply H. now right.
Qed.

Lemma find_matchup_first (matchups : list Matchup) (team : Z) (m : Matchup) :
  find_matchup matchups team = Some m ->
  exists before after,
    matchups = before ++ m :: after /\
    forall x, In x before -> home_team_id x <> team /\ away_team_id x <> team.
Proof.
  induction matchups as [|x rest IH]; cbn [find_matchup]; [discriminate|].
  destruct ((home_team_id x =? team) || (away_team_id x =? team)) eqn:E.
  - intros [= <-]. exists [], rest. split; [reflexivity | intros y []].
  - intros H. destruct (IH H) as (before & after & -> & Hnone).
    exists (x :: before), after. split; [reflexivity|].
    apply orb_false_iff in E as [E1 E2]. apply Z.eqb_neq in E1, E2.
    intros y [<-|Hy]; [auto | now apply Hnone].
Qed.

(** X22. The current matchup of a team is the first of the matchups given
    in which the team plays, at home or away: no matchup before it in the
    list has the team on either side. The opponent is the team on the
    other side, with the score of that side, and [myScore] is the score of
    the team's own side. When no matchup has the team on either side (or
    while there is no data), the matchup, the opponent and the score are
    all null. *)
Theorem current_matchup_is_the_teams
    (matchups : list Matchup) (team : Z) :
  let current := useCurrentMatchup home_score away_score (Some matchups) team in
  (forall m, data current = Some m ->
     (exists before after,
        matchups = before ++ m :: after /\
        forall x, In x before -> home_team_id x <> team /\ away_team_id x <> team) /\
     ((home_team_id m = team /\
       opponent current = Some (mkOpponent (away_team_id m) (away_team_name m) (away_score m)) /\
       myScore current = Some (home_score m)) \/
      (home_team_id m <> team /\ away_team_id m = team /\
       opponent current = Some (mkOpponent (home_team_id m) (home_team_name m) (home_score m)) /\
       myScore current = Some (away_score m)))) /\
  (data current = None <->
   forall m, In m matchups -> home_team_id m <> team /\ away_team_id m <> team) /\
  (data current = None -> opponent current = None /\ myScore current = None) /\
  useCurrentMatchup home_score away_score None team = mkCurrentMatchup None None None.
Proof.
  cbn zeta. unfold useCurrentMatchup. cbn [data opponent myScore].
  split; [|split; [apply find_matchup_none | split; [|reflexivity]]].
  - intros m Hm. rewrite Hm. destruct (find_matchup_some _ _ _ Hm) as [Hin Hside].
    split; [now apply find_matchup_first|].
    destruct (Z.eqb_spec (home_team_id m) team) as [E|E].
    + left. auto.
    + right. destruct Hside as [H|H]; [contradiction|]. auto.
  - intros ->. auto.
Qed.

End HookFacts.

(* ===================================================================== *)
(** * The recent activity of the waiver budget card                        *)
(* ===================================================================== *)

Section BudgetCardFacts.

Import WaiverBudgets BudgetCard.
Local Open Scope Z_scope.

Lemma hasPending_spec (budget : TeamBudgetSummary) :
  hasPending budget = true <->
  exists t, In t (recent_transactions budget) /\ status t = PENDING.
Proof.
  unfold hasPending. rewrite existsb_exists. split.
  - intros (t & Hin & Hs). exists t. split; [exact Hin|].
    destruct (status t); [reflexivity | discriminate | discriminate].
  - intros (t & Hin & Hs). exists t. split; [exact Hin|]. now rewrite Hs.
Qed.

Lemma length_zero_nil {A} (l : list A) : Z.of_nat (List.length l) = 0 <-> l = [].
Proof.
  destruct l as [|a l]; cbn [List.length]; split; intros H;
    try reflexivity; try discriminate; lia.
Qed.

(** X23. The foot of the card shows exactly one of its two blocks: "No
    recent activity" when the team has no transaction, the "Recent
    Activity" block otherwise. The block shows the first transactions, at
    most three of them and in their order; those it leaves out are counted
    by the "+n more transactions" line, which is there only when n is
    positive. The "Pending" badge answers for every transaction, shown or
    left out. *)
Theorem recent_activity_accounts_for_every_transaction (budget : TeamBudgetSummary) :
  let transactions := recent_transactions budget in
  let a := activity budget in
  (noRecentActivity a = true <-> transactions = []) /\
  (recentActivity a = None <-> transactions = []) /\
  (forall ra, recentActivity a = Some ra ->
     (List.length (badges ra) <= 3)%nat /\
     transactions = badges ra ++ skipn 3 transactions /\
     Z.of_nat (List.length (skipn 3 transactions)) =
       match more ra with Some n => n | None => 0 end /\
     (forall n, more ra = Some n -> 0 < n) /\
     (pendingBadge ra = true <->
      exists t, In t transactions /\ status t = PENDING)).
Proof.
  cbv zeta. unfold activity. cbn [noRecentActivity recentActivity].
  set (ts := recent_transactions budget).
  split; [|split].
  - rewrite Z.eqb_eq. apply length_zero_nil.
  - rewrite <- length_zero_nil.
    destruct (Z.ltb_spec 0 (Z.of_nat (List.length ts))); split; intros H';
      try discriminate; try reflexivity; lia.
  - intros ra Hra.
    destruct (Z.ltb_spec 0 (Z.of_nat (List.length ts))) as [Hpos|Hpos]; [|discriminate].
    injection Hra as <-. cbn [badges more pendingBadge].
    split; [|split; [|split; [|split]]].
    + rewrite length_firstn. lia.
    + symmetry. apply firstn_skipn.
    + rewrite length_skipn.
      destruct (Z.ltb_spec 3 (Z.of_nat (List.length ts))); lia.
    + intros n. destruct (Z.ltb_spec 3 (Z.of_nat (List.length ts))); [|discriminate].
      intros [= <-]. lia.
    + apply hasPending_spec.
Qed.

End BudgetCardFacts.

(* ===================================================================== *)
(** * The three groups of the roster page                                  *)
(* ===================================================================== *)

Section RosterGroupFacts.

Import TeamRosterPage TeamRosterGroups.

Lemma group_In (keep : RosterPlayer -> bool) (players : list RosterPlayer) (p : RosterPlayer) :
  In p (group keep (Some players)) <-> In p players /\ keep p = true.
Proof. unfold group. apply filter_In. Qed.

Lemma groups_partition (players : list RosterPlayer) :
  Permutation
    (List.filter isStarter players ++ List.filter isBench players ++
     List.filter isIR players)
    players.
Proof.
  induction players as [|p players IH]; [constructor|].
  cbn [List.filter].
  destruct (isStarter p) eqn:Es, (isBench p) eqn:Eb, (isIR p) eqn:Ei;
    try (exfalso; unfold isStarter, isBench, isIR in Es, Eb, Ei;
         destruct (String.eqb_spec (lineup_slot_name p) "BENCH") as [E1|E1];
         destruct (String.eqb_spec (lineup_slot_name p) "IR") as [E2|E2];
         cbn [negb andb] in Es; congruence).
  - cbn [app]. constructor. exact IH.
  - symmetry. apply Permutation_cons_app. symmetry. exact IH.
  - symmetry.
    rewrite app_assoc. apply Permutation_cons_app. rewrite <- app_assoc.
    symmetry. exact IH.
Qed.

(** X30. The three groups of the roster page are a partition of the
    roster: together they hold every player exactly as often as the roster
    does, so the three counts add up to the size of the roster. The
    starters are the players whose slot badge has the green default colour,
    and no player is in two groups. Before the roster has loaded the three
    groups are empty. *)
Theorem roster_groups_partition (players : list RosterPlayer) :
  Permutation
    (startingRoster (Some players) ++ benchPlayers (Some players) ++
     irPlayers (Some players))
    players /\
  (List.length (startingRoster (Some players)) +
   List.length (benchPlayers (Some players)) +
   List.length (irPlayers (Some players)) = List.length players)%nat /\
  (forall p, In p (startingRoster (Some players)) <->
             In p players /\
             getSlotColor (lineup_slot_name p) = "bg-green-100 text-green-700") /\
  (forall p, ~ (In p (startingRoster (Some players)) /\ In p (benchPlayers (Some players))) /\
             ~ (In p (startingRoster (Some players)) /\ In p (irPlayers (Some players))) /\
             ~ (In p (benchPlayers (Some players)) /\ In p (irPlayers (Some players)))) /\
  startingRoster None = [] /\ benchPlayers None = [] /\ irPlayers None = [].
Proof.
  unfold startingRoster, benchPlayers, irPlayers.
  split; [|split; [|split; [|split]]].
  - apply groups_partition.
  - pose proof (Permutation_length (groups_partition players)) as H.
    rewrite !length_app in H. unfold group. lia.
  - intros p. rewrite group_In. unfold isStarter, getSlotColor.
    destruct (String.eqb_spec (lineup_slot_name p) "BENCH");
      destruct (String.eqb_spec (lineup_slot_name p) "IR"); cbn [negb andb];
      split; intros [Hin H]; split; try exact Hin; try reflexivity; discriminate.
  - intros p. rewrite !group_In. unfold isStarter, isBench, isIR.
    destruct (String.eqb_spec (lineup_slot_name p) "BENCH") as [Eb|Eb];
      destruct (String.eqb_spec (lineup_slot_name p) "IR") as [Ei|Ei]; cbn [negb andb];
      repeat split; intros [[_ H1] [_ H2]]; try discriminate.
    rewrite Eb in Ei. discriminate.
  - repeat split.
Qed.

End RosterGroupFacts.

(* ===================================================================== *)
(** * The filters of the strategic suggestions                             *)
(* ===================================================================== *)

Section SuggestionFacts.

Import Api Auth StrategicSuggestions.
Local Open Scope Z_scope.

Lemma truthy_spec (s : option string) :
  truthy s = true <-> exists text, s = Some text /\ text <> "".
Proof.
  unfold truthy. destruct s as [text|].
  - destruct (String.eqb_spec text "") as [E|E]; cbn [negb]; split.
    + discriminate.
    + intros (t & [= <-] & Ht). contradiction.
    + intros _. now exists text.
    + reflexivity.
  - split; [discriminate | intros (t & H & _); discriminate].
Qed.

Lemma blocked_spec (value : string) (wanted : option string) :
  truthy wanted && differs value wanted = false <->
  (forall t, wanted = Some t -> t <> "" -> value = t).
Proof.
  unfold truthy, differs. destruct wanted as [w|].
  - destruct (String.eqb_spec w "") as [Ew|Ew], (String.eqb_spec value w) as [Ev|Ev];
      cbn [negb andb]; split; intros H.
    + intros t [= <-] Ht. contradiction.
    + reflexivity.
    + intros t [= <-] Ht. contradiction.
    + reflexivity.
    + intros t [= <-] _. exact Ev.
    + reflexivity.
    + discriminate.
    + exfalso. apply Ev. now apply H.
  - cbn [andb]. split; [intros _ t; discriminate | reflexivity].
Qed.

Lemma passes_spec (filters : SuggestionFilters) (s : StrategicSuggestion) :
  passes filters s = true <->
  (forall t, filter_type filters = Some t -> t <> "" -> type s = t) /\
  (forall p, filter_priority filters = Some p -> p <> "" -> priority s = p).
Proof.
  rewrite <- !blocked_spec. unfold passes.
  destruct (truthy (filter_type filters) && differs (type s) (filter_type filters));
    destruct (truthy (filter_priority filters) &&
              differs (priority s) (filter_priority filters));
    split; try discriminate; try (intros [H1 H2]; discriminate); try reflexivity.
  intros _. split; reflexivity.
Qed.

Lemma filter_all {A} (f : A -> bool) (l : list A) :
  (forall a, In a l -> f a = true) -> List.filter f l = l.
Proof.
  induction l as [|a l IH]; intros H; [reflexivity|].
  cbn [List.filter]. rewrite (H a (or_introl eq_refl)). f_equal.
  apply IH. intros b Hb. apply H. now right.
Qed.

Lemma filter_twice {A} (f : A -> bool) (l : list A) :
  List.filter f (List.filter f l) = List.filter f l.
Proof.
  apply filter_all. intros a Ha. apply filter_In in Ha. apply Ha.
Qed.

(** X24. The suggestions that are shown are those that meet every filter
    that is set, in their order; a filter that is unset or empty lets every
    suggestion through. Choosing "all" in both selects shows every
    suggestion again, whatever the filters were; choosing another value
    leaves only suggestions that have that value. Filtering what is shown
    a second time changes nothing. *)
Theorem filtered_suggestions_spec (filters : SuggestionFilters)
    (suggestions : list StrategicSuggestion) :
  (forall s, In s (filteredSuggestions filters suggestions) <->
     In s suggestions /\
     (forall t, filter_type filters = Some t -> t <> "" -> type s = t) /\
     (forall p, filter_priority filters = Some p -> p <> "" -> priority s = p)) /\
  filteredSuggestions
    (handleFilterChange KeyType "all" (handleFilterChange KeyPriority "all" filters))
    suggestions = suggestions /\
  (forall key value s, value <> "all" -> value <> "" ->
     In s (filteredSuggestions (handleFilterChange key value filters) suggestions) ->
     match key with KeyType => type s | KeyPriority => priority s end = value) /\
  filteredSuggestions filters (filteredSuggestions filters suggestions) =
    filteredSuggestions filters suggestions.
Proof.
  split; [|split; [|split]].
  - intros s. unfold filteredSuggestions. rewrite filter_In, passes_spec. reflexivity.
  - unfold filteredSuggestions. apply filter_all. intros s _.
    apply passes_spec. cbn. split; intros x; discriminate.
  - intros key value s Hall Hne Hin.
    unfold filteredSuggestions in Hin. apply filter_In in Hin as [_ Hp].
    apply passes_spec in Hp as [Ht Hp].
    unfold handleFilterChange in Ht, Hp.
    destruct (String.eqb_spec value "all") as [E|_]; [contradiction|].
    destruct key; cbn [filter_type filter_priority] in Ht, Hp.
    + apply Ht; [reflexivity | exact Hne].
    + apply Hp; [reflexivity | exact Hne].
  - apply filter_twice.
Qed.

Lemma onRejected_detail {A} (error : AxiosError) (b : Browser) :
  exists reason b', @onRejected A error b = (Rejected reason, b') /\ detail reason <> "".
Proof.
  unfold onRejected. eexists. eexists. split; [reflexivity|].
  cbn [detail]. apply or_string_default_nonempty. apply or_string_default_nonempty.
  discriminate.
Qed.

Lemma or_string_nonempty (s d : string) : s <> "" -> or_string (Some s) d = s.
Proof.
  intros H. unfold or_string. destruct (String.eqb_spec s ""); [contradiction | reflexivity].
Qed.

Lemma truthy_Some (s : string) : s <> "" -> truthy (Some s) = true.
Proof. intros H. apply truthy_spec. now exists s. Qed.

(** X25. What the list area shows after [fetchSuggestions]. Without a team
    (none, or team 0) no request is made: the browser is untouched, the
    suggestions stay and the area says "No team selected". With a team the
    component is no longer loading; after an answer the suggestions are the
    answer and the area shows cards or one of the two "no suggestions"
    notes, with the refresh button; after a failure the suggestions are
    emptied, the refresh button is gone and the area shows the detail of
    the rejection that the response interceptor made, which is never empty,
    so the component's own fallback text is not used. In any state, "No
    suggestions match your filters" means that there are suggestions and
    that a filter is set. The filters survive a fetch. *)
Theorem suggestions_panel_after_fetch (userTeamId : option Z)
    (outcome : Outcome (list StrategicSuggestion)) (s : State) (b : Browser) :
  let r := fetchSuggestions userTeamId outcome s b in
  filters (fst r) = filters s /\
  (noTeam userTeamId = true ->
     snd r = b /\ suggestions (fst r) = suggestions s /\
     panel (fst r) = UnableToLoad "No team selected") /\
  (noTeam userTeamId = false ->
     isLoading (fst r) = false /\
     match outcome with
     | Answered data =>
         suggestions (fst r) = data /\ refreshButton (fst r) = true /\
         (panel (fst r) = Cards (filteredSuggestions (filters s) data) \/
          panel (fst r) = NoSuggestionsAvailable \/
          panel (fst r) = NoSuggestionsMatch)
     | Failed e =>
         suggestions (fst r) = [] /\ refreshButton (fst r) = false /\
         exists reason, fst (@onRejected (list StrategicSuggestion) e b) = Rejected reason /\
                        detail reason <> "" /\
                        panel (fst r) = UnableToLoad (detail reason)
     end) /\
  (forall st, panel st = NoSuggestionsMatch ->
     suggestions st <> [] /\
     (truthy (filter_type (filters st)) = true \/
      truthy (filter_priority (filters st)) = true)).
Proof.
  cbv zeta. unfold fetchSuggestions.
  split; [|split; [|split]].
  - destruct (noTeam userTeamId); [reflexivity|].
    destruct outcome as [data|e]; cbn [request onFulfilled fst filters]; [reflexivity|].
    destruct (onRejected_detail (A := list StrategicSuggestion) e b) as (reason & b' & -> & _).
    reflexivity.
  - intros ->. cbn [fst snd suggestions]. repeat split.
  - intros ->. destruct outcome as [data|e]; cbn [request onFulfilled].
    + cbn [fst isLoading suggestions]. split; [reflexivity|]. split; [reflexivity|].
      split; [reflexivity|].
      unfold panel. cbn [error truthy isLoading filters suggestions]. cbv zeta.
      destruct (filteredSuggestions (filters s) data) as [|x shown] eqn:E.
      * destruct data; [right; left | right; right]; reflexivity.
      * left. reflexivity.
    + destruct (onRejected_detail (A := list StrategicSuggestion) e b)
        as (reason & b' & -> & Hne).
      cbn [fst isLoading suggestions]. split; [reflexivity|]. split; [reflexivity|].
      rewrite (or_string_nonempty _ _ Hne).
      split; [unfold refreshButton; cbn [error]; now rewrite (truthy_Some _ Hne)|].
      exists reason. split; [reflexivity|]. split; [exact Hne|].
      unfold panel. cbn [error]. now rewrite (truthy_Some _ Hne).
  - intros st. unfold panel.
    destruct (truthy (error st)); [discriminate|].
    destruct (isLoading st); [discriminate|]. cbv zeta.
    destruct (filteredSuggestions (filters st) (suggestions st)) as [|x shown] eqn:E;
      [|discriminate].
    destruct (suggestions st) as [|x rest] eqn:Es; [discriminate|]. intros _.
    split; [discriminate|].
    destruct (truthy (filter_type (filters st))) eqn:Et; [now left|].
    destruct (truthy (filter_priority (filters st))) eqn:Ep; [now right|].
    exfalso. unfold filteredSuggestions in E. cbn [List.filter] in E.
    unfold passes in E. rewrite Et, Ep in E. cbn [andb] in E. discriminate.
Qed.

End SuggestionFacts.

(* ===================================================================== *)
(** * hooks/useApi.ts                                                       *)
(* ===================================================================== *)

Section UseApiFacts.

Import Api Auth UseApi.

Context {T : Type}.

(** X26. [execute] hands on what the call settled to and never leaves the
    hook loading. After an answer the data is the answer and the error is
    cleared. After a failure of a call made through the axios instance the
    data of an earlier success is still there beside the error, and the
    error of the state and the text of the toast are both the detail of the
    rejection that the response interceptor made: it is never empty, so
    the hook's own "An unexpected error occurred" is not used. Whatever the
    call, the error of the state is never the empty string, and it is
    absent exactly when the call resolved. *)
Theorem execute_outcomes (showSuccessToast : bool) (successMessage : string)
    (outcome : Outcome T) (b : Browser) (prev : @UseApiState T) :
  let call := fst (request outcome b) in
  let r := execute showSuccessToast successMessage call prev in
  settled r = call /\
  loading (state r) = false /\
  match outcome with
  | Answered result =>
      data (state r) = Some result /\ UseApi.error (state r) = None /\
      toasts r = if showSuccessToast then [ToastSuccess successMessage] else []
  | Failed e =>
      data (state r) = data prev /\
      exists reason, call = Rejected reason /\ detail reason <> "" /\
                     UseApi.error (state r) = Some (detail reason) /\
                     toasts r = [ToastError (detail reason)]
  end /\
  (forall apiFunction : Settled T,
     let r' := execute showSuccessToast successMessage apiFunction prev in
     UseApi.error (state r') <> Some "" /\
     (UseApi.error (state r') = None <-> exists result, apiFunction = Resolved result)).
Proof.
  cbv zeta. split; [|split; [|split]].
  - unfold execute. destruct (fst (request outcome b)); reflexivity.
  - unfold execute. destruct (fst (request outcome b)); reflexivity.
  - destruct outcome as [result|e]; cbn [request onFulfilled fst].
    + unfold execute. cbn. repeat split.
    + destruct (onRejected_detail (A := T) e b) as (reason & b' & -> & Hne).
      cbn [fst]. unfold execute. cbn [state data pending toasts UseApi.error].
      split; [reflexivity|]. exists reason. rewrite (or_string_nonempty _ _ Hne).
      repeat split. exact Hne.
  - intros apiFunction. unfold execute. destruct apiFunction as [result|reason];
      cbn [state UseApi.error].
    + split; [discriminate|]. split; [intros _; now exists result | reflexivity].
    + split.
      * intros [= H].
        apply (or_string_default_nonempty (Some (detail reason))
                 "An unexpected error occurred"); [discriminate | exact H].
      * split; [discriminate | intros (result & H); discriminate].
Qed.

End UseApiFacts.

(* ===================================================================== *)
(** * The trade analyzer page                                              *)
(* ===================================================================== *)

Section TradePageFacts.

Import Trades TradeAnalyzerPage.
Local Open Scope Z_scope.

Lemma compact_nonzero (l : list (option Z)) : Forall (fun p : Z => p <> 0) (compact l).
Proof.
  induction l as [|[p|] l IH]; cbn [compact]; [constructor | | exact IH].
  destruct (Z.eqb_spec p 0); [exact IH | constructor; assumption].
Qed.

Lemma compact_length (l : list (option Z)) :
  (List.length (compact l) <= List.length l)%nat.
Proof.
  induction l as [|[p|] l IH]; cbn [compact List.length]; [lia | | lia].
  destruct (p =? 0); cbn [List.length]; lia.
Qed.

Lemma compact_app (l1 l2 : list (option Z)) :
  compact (l1 ++ l2) = compact l1 ++ compact l2.
Proof.
  induction l1 as [|[p|] l1 IH]; cbn [compact app]; [reflexivity | | exact IH].
  destruct (p =? 0); [exact IH | cbn [app]; now rewrite IH].
Qed.

Lemma compact_map_Some (players : list Z) :
  Forall (fun p : Z => p <> 0) players -> compact (map Some players) = players.
Proof.
  induction 1 as [|p players Hp _ IH]; cbn [map compact]; [reflexivity|].
  destruct (Z.eqb_spec p 0); [contradiction | now rewrite IH].
Qed.

Lemma compact_holes (k : nat) : compact (repeat None k) = [].
Proof. induction k as [|k IH]; [reflexivity | exact IH]. Qed.

Lemma assign_length (n : nat) (v : Z) (l : list (option Z)) :
  List.length (assign n v l) = Nat.max (S n) (List.length l).
Proof.
  revert l. induction n as [|n IH]; intros [|p l]; cbn [assign List.length].
  - reflexivity.
  - lia.
  - rewrite IH. cbn [List.length]. lia.
  - rewrite IH. lia.
Qed.

Lemma splice1_length (n : nat) (l : list (option Z)) :
  (List.length (splice1 n l) <= List.length l)%nat.
Proof.
  revert l. induction n as [|n IH]; intros [|p l]; cbn [splice1 List.length]; try lia.
  specialize (IH l). lia.
Qed.

Lemma assign_inside (n : nat) (v : Z) (players : list Z) :
  (n < List.length players)%nat ->
  assign n v (map Some players) = map Some (<[n := v]> players).
Proof.
  revert players. induction n as [|n IH]; intros [|p players] H;
    cbn [List.length] in H; try lia; cbn [map assign].
  - reflexivity.
  - cbn. f_equal. apply IH. lia.
Qed.

Lemma assign_past (n : nat) (v : Z) (l : list (option Z)) :
  (List.length l <= n)%nat ->
  assign n v l = l ++ repeat None (n - List.length l) ++ [Some v].
Proof.
  revert l. induction n as [|n IH]; intros [|p l] H; cbn [List.length] in H; try lia.
  - reflexivity.
  - cbn [assign]. rewrite (IH [] ltac:(cbn; lia)). cbn [List.length app].
    rewrite Nat.sub_0_r. reflexivity.
  - cbn [assign List.length app]. rewrite (IH l ltac:(lia)). reflexivity.
Qed.

Lemma splice1_map (n : nat) (players : list Z) :
  splice1 n (map Some players) = map Some (firstn n players ++ skipn (S n) players).
Proof.
  revert players. induction n as [|n IH]; intros [|p players]; cbn [map splice1 firstn skipn app];
    try reflexivity.
  rewrite IH. reflexivity.
Qed.

Lemma Forall_removed (n : nat) (players : list Z) :
  Forall (fun p : Z => p <> 0) players ->
  Forall (fun p : Z => p <> 0) (firstn n players ++ skipn (S n) players).
Proof.
  intros H. rewrite List.Forall_forall in H.
  apply List.Forall_forall. intros x Hx. apply H.
  apply in_app_or in Hx as [Hx|Hx].
  - rewrite <- (firstn_skipn n players). apply in_or_app. now left.
  - rewrite <- (firstn_skipn (S n) players). apply in_or_app. now right.
Qed.

Lemma playersChanged_nonzero (i : nat) (value : option Z) (players : list Z) :
  Forall (fun p : Z => p <> 0) (playersChanged i value players).
Proof. unfold playersChanged. apply compact_nonzero. Qed.

Lemma playersChanged_length (i : nat) (value : option Z) (players : list Z) :
  (1 <= i)%nat ->
  (List.length (playersChanged i value players) <= Nat.max i (List.length players))%nat.
Proof.
  intros Hi. unfold playersChanged.
  etransitivity; [apply compact_length|].
  assert (Hs : (List.length (splice1 (i - 1) (map Some players))
                <= Nat.max i (List.length players))%nat).
  { etransitivity; [apply splice1_length|]. rewrite length_map. lia. }
  destruct value as [v|]; [|exact Hs].
  destruct (v =? 0); [exact Hs|].
  rewrite assign_length, length_map. lia.
Qed.

(** X28. What typing in player box [i] does to the list of a side, which
    holds no 0. A number other than 0 replaces the entry at position i-1 if
    the list is that long, and is appended otherwise: the position of a
    player in the list is not the number of the box it was typed in. An
    empty box, a text that is no number, and 0 all remove the entry at
    position i-1 if there is one, and the later entries move up. The new
    list holds no 0 either, whatever the list was. *)
Theorem player_box_change_spec (i : nat) (players : list Z) :
  Forall (fun p : Z => p <> 0) players ->
  (forall v, v <> 0 ->
     playersChanged i (Some v) players =
       if (i - 1 <? List.length players)%nat
       then <[(i - 1)%nat := v]> players
       else players ++ [v]) /\
  playersChanged i None players =
    firstn (i - 1) players ++ skipn (S (i - 1)) players /\
  playersChanged i (Some 0) players = playersChanged i None players /\
  (forall value, Forall (fun p : Z => p <> 0) (playersChanged i value players)).
Proof.
  intros Hnz. split; [|split; [|split]].
  - intros v Hv. unfold playersChanged.
    destruct (Z.eqb_spec v 0) as [E|_]; [contradiction|].
    destruct (Nat.ltb_spec (i - 1) (List.length players)) as [Hin|Hout].
    + rewrite (assign_inside _ _ _ Hin). apply compact_map_Some.
      apply Forall_insert; assumption.
    + rewrite assign_past by (rewrite length_map; exact Hout).
      rewrite !compact_app, compact_holes, (compact_map_Some _ Hnz).
      cbn [compact app]. destruct (Z.eqb_spec v 0); [contradiction | reflexivity].
  - unfold playersChanged. rewrite splice1_map. apply compact_map_Some.
    now apply Forall_removed.
  - reflexivity.
  - intros value. apply playersChanged_nonzero.
Qed.

Lemma player_box_change_spec_witness :
  let players := [11; 12] in
  Forall (fun p : Z => p <> 0) players /\
  playersChanged 3 (Some 13) players = [11; 12; 13] /\
  playersChanged 1 (Some 13) players = [13; 12] /\
  playersChanged 1 None players = [12].
Proof.
  cbv zeta.
  assert (H : Forall (fun p : Z => p <> 0) [11; 12]) by (repeat constructor; lia).
  split; [exact H|].
  destruct (player_box_change_spec 3 [11; 12] H) as (H3 & _).
  destruct (player_box_change_spec 1 [11; 12] H) as (H1 & H0 & _).
  split; [|split].
  - rewrite (H3 13) by lia. reflexivity.
  - rewrite (H1 13) by lia. reflexivity.
  - rewrite H0. reflexivity.
Defined.


Lemma find_team_In (teams : list Team) (value : option Z) (t : Team) :
  find_team teams value = Some t -> In t teams /\ value = Some (id t).
Proof.
  induction teams as [|t0 teams IH]; cbn [find_team]; [discriminate|].
  destruct value as [v|].
  - destruct (Z.eqb_spec (id t0) v) as [E|E].
    + intros [= <-]. split; [now left | now rewrite E].
    + intros H. destruct (IH H) as [Hin Hv]. split; [now right | exact Hv].
  - intros H. destruct (IH H) as [_ Hv]. discriminate.
Qed.


Lemma step_wellFormed (teams : option (list Team)) (league_id : option Z)
    (s : State) (e : Event) :
  ofThePage e -> wellFormed teams league_id s -> wellFormed teams league_id (step teams s e).
Proof.
  intros He (Hl & H1 & H2 & Hn1 & Hz1 & Hn2 & Hz2).
  destruct e as [value|value|i text|i text|]; cbn [step ofThePage] in *;
    unfold wellFormed, selectTeam1, selectTeam2, team1PlayerChanged, team2PlayerChanged,
      resetAnalysis;
    cbn [league selectedTeam1 selectedTeam2 team1Players team2Players].
  - repeat split; try assumption; try (cbn; lia); try constructor.
    intros t Ht. now apply find_team_In in Ht.
  - repeat split; try assumption; try (cbn; lia); try constructor.
    intros t Ht. now apply find_team_In in Ht.
  - repeat split; try assumption; try apply playersChanged_nonzero.
    pose proof (playersChanged_length i (boxValue text) (team1Players s)). lia.
  - repeat split; try assumption; try apply playersChanged_nonzero.
    pose proof (playersChanged_length i (boxValue text) (team2Players s)). lia.
  - repeat split; try assumption; try (cbn; lia); try constructor; discriminate.
Qed.

Lemma run_wellFormed (teams : option (list Team)) (league_id : option Z)
    (events : list Event) :
  Forall ofThePage events -> wellFormed teams league_id (run teams league_id events).
Proof.
  unfold run.
  assert (H0 : wellFormed teams league_id (initialState league_id)).
  { unfold wellFormed, initialState. cbn.
    repeat split; try discriminate; try lia; constructor. }
  revert H0. generalize (initialState league_id).
  induction events as [|e events IH]; intros s Hs Hev; [exact Hs|].
  cbn [fold_left]. apply Forall_cons in Hev as [He Hev].
  apply IH; [|exact Hev]. now apply step_wellFormed.
Qed.

Lemma handleAnalyzeTrade_Some (s : State) (r : TradeAnalysisRequest) :
  handleAnalyzeTrade s = Some r ->
  exists t1 t2 l, selectedTeam1 s = Some t1 /\ selectedTeam2 s = Some t2 /\
                  league s = Some l /\ team1Players s <> [] /\ team2Players s <> [] /\
                  r = mkRequest l (espn_team_id t1) (espn_team_id t2)
                                (team1Players s) (team2Players s).
Proof.
  unfold handleAnalyzeTrade.
  destruct (selectedTeam1 s) as [t1|], (selectedTeam2 s) as [t2|], (league s) as [l|],
    (team1Players s) as [|p1 ps1], (team2Players s) as [|p2 ps2];
    cbn [missing isEmpty orb]; try discriminate.
  intros [= <-]. exists t1, t2, l. repeat split; discriminate.
Qed.

(** X27. Whatever the user does on the page (choosing teams, typing in the
    three player boxes of a side, resetting), a click on "Analyze Trade"
    sends nothing while the button is disabled or the league has not
    loaded, and sends a request once the button is enabled and the league
    is there. A request that is sent is for the league of the page, names
    the ESPN ids of two teams of the league, and gives one to three players
    a side, none of them 0. *)
Theorem trade_page_requests (teams : option (list Team)) (league_id : option Z)
    (events : list Event) :
  Forall ofThePage events ->
  let s := run teams league_id events in
  (analyzeDisabled s false = true -> handleAnalyzeTrade s = None) /\
  (league_id = None -> handleAnalyzeTrade s = None) /\
  (analyzeDisabled s false = false -> league_id <> None -> handleAnalyzeTrade s <> None) /\
  (forall r, handleAnalyzeTrade s = Some r ->
     Some (Trades.league_id r) = league_id /\
     (1 <= List.length (give_players r) <= 3)%nat /\
     (1 <= List.length (receive_players r) <= 3)%nat /\
     Forall (fun p => p <> 0) (give_players r) /\
     Forall (fun p => p <> 0) (receive_players r) /\
     exists t1 t2, In t1 (teamsOrNone teams) /\ In t2 (teamsOrNone teams) /\
                   proposing_team_id r = espn_team_id t1 /\
                   receiving_team_id r = espn_team_id t2).
Proof.
  intros Hev. cbv zeta.
  destruct (run_wellFormed teams league_id events Hev)
    as (Hl & H1 & H2 & Hn1 & Hz1 & Hn2 & Hz2).
  set (s := run teams league_id events) in *.
  split; [|split; [|split]].
  - unfold analyzeDisabled, handleAnalyzeTrade. rewrite orb_false_r. now intros ->.
  - intros E. rewrite E in Hl. unfold handleAnalyzeTrade. rewrite Hl.
    cbn [missing]. now rewrite orb_true_r.
  - unfold analyzeDisabled, handleAnalyzeTrade. intros Hd Hne. rewrite Hl.
    destruct league_id as [l|]; [|contradiction].
    destruct (selectedTeam1 s), (selectedTeam2 s), (team1Players s), (team2Players s);
      cbn [missing isEmpty orb] in Hd |- *; discriminate.
  - intros r Hr. apply handleAnalyzeTrade_Some in Hr
      as (t1 & t2 & l & E1 & E2 & El & Hg & Hrv & ->).
    cbn [Trades.league_id give_players receive_players proposing_team_id receiving_team_id].
    split; [congruence|].
    split; [destruct (team1Players s); [contradiction | cbn [List.length] in *; lia]|].
    split; [destruct (team2Players s); [contradiction | cbn [List.length] in *; lia]|].
    split; [exact Hz1|]. split; [exact Hz2|].
    exists t1, t2. repeat split; [now apply H1 | now apply H2].
Qed.

Lemma trade_page_requests_witness :
  let teams := Some [mkTeam 1 10 "Aces"; mkTeam 2 20 "Bears"] in
  let events := [SelectTeam1 (Some 1); SelectTeam2 (Some 2);
                 Team1Player 3 (Utils.units "4241"); Team2Player 1 (Utils.units "3116")] in
  Forall ofThePage events /\
  handleAnalyzeTrade (run teams (Some 7) events) = Some (mkRequest 7 10 20 [4241] [3116]) /\
  handleAnalyzeTrade (run teams None events) = None.
Proof.
  cbv zeta.
  assert (H : Forall ofThePage
                [SelectTeam1 (Some 1); SelectTeam2 (Some 2);
                 Team1Player 3 (Utils.units "4241"); Team2Player 1 (Utils.units "3116")]).
  { repeat constructor; cbn; lia. }
  split; [exact H|]. split.
  - vm_compute. reflexivity.
  - apply (trade_page_requests (Some [mkTeam 1 10 "Aces"; mkTeam 2 20 "Bears"]) None _ H).
    reflexivity.
Defined.




End TradePageFacts.
